(** * Deep Leakage from Gradients: the [Experiment] class of src/experiment.py

    A shallow embedding of [Experiment.__init__], [Experiment.train] and the
    helper methods they call, over an explicit model of the Python heap of
    torch tensors (tensor objects pointing into flat storages), the two
    ambient random generators and a log of the numeric library calls.
    [Experiment.make_reconstruction_plots] is modelled apart, as the calls it
    makes on the axes of its figure.

    The numeric collaborators (the LeNet classifier, autograd, the L-BFGS
    optimizer, torchvision datasets and transforms, the skimage metrics and
    the measures of utils.py) are taken as parameters, bundled in the class
    [Collab]; every theorem of the development holds for all of them. *)

From Stdlib Require Import ZArith QArith String List Lia.
From stdpp Require Import base tactics option list strings gmap.

Local Open Scope string_scope.
Local Open Scope list_scope.
Local Open Scope Z_scope.

(** ** Exceptions, events, plain data *)

(** The Python exceptions the modelled code can raise.  [ValueError] is the
    exception the source uses for an unrecognised [measure] or [init_type]. *)
Inductive exn : Type :=
| KeyError (key : string)
| ValueError (msg : string)
| IndexError
| RuntimeError
| ZeroDivisionError
| StaleReference.   (* a reference to no tensor object: unreachable from Python *)

Inductive result (A : Type) : Type :=
| Ok (a : A)
| Raise (e : exn).
Arguments Ok {A} a.
Arguments Raise {A} e.

(** The distributions of the three torch samplers used by [init_data]:
    [torch.rand], [torch.randn] and [torch.normal(mean, std)]. *)
Inductive dist : Type :=
| Uniform01
| StandardNormal
| Normal (mean std : Q).

(** Calls into the numeric libraries, logged in program order. *)
Inductive event : Type :=
| EvDataset (name : string)          (* a torchvision dataset constructor *)
| EvForward                          (* self.net(x) *)
| EvAutograd (create_graph : bool)   (* torch.autograd.grad *)
| EvBackward                         (* Tensor.backward() *)
| EvZeroGrad                         (* optimizer.zero_grad() *)
| EvVar                              (* torch.var *)
| EvSample (d : dist).               (* torch.rand / randn / normal *)

(** The contents of a tensor: its shape and its elements in row-major order. *)
Record tval (S : Type) : Type := mk_tval { shape : list nat; elems : list S }.
Arguments mk_tval {S} shape elems.
Arguments shape {S} t.
Arguments elems {S} t.

(** What [create_loss_measure] returns: the function [euclidean_measure] of
    utils.py, or an instance [gaussian_measure(sigma, Q)]. *)
Inductive measure_fn (S : Type) : Type :=
| euclidean_measure
| gaussian_measure (sigma Q : S).
Arguments euclidean_measure {S}.
Arguments gaussian_measure {S} sigma Q.

(** One round of [torch.optim.LBFGS.step] after its first evaluation of the
    closure: an in-place update of every optimised tensor (from its current
    elements and its [.grad]), then possibly a re-evaluation of the closure. *)
Record lbfgs_round (S : Type) : Type := mk_round {
  r_update : list S -> option (list S) -> list S;
  r_reeval : bool
}.
Arguments mk_round {S} r_update r_reeval.
Arguments r_update {S} l.
Arguments r_reeval {S} l.

(** The classes stored in the dictionary of [load_dataset]. *)
Inductive dataset_class : Type := CIFAR100 | QMNIST | Omniglot | SVHN.

(** The dictionary [{'psnr': _, 'ssim': _, 'mse': _}], whose three keys are
    fixed at creation and only ever looked up by literal. *)
Record loss_dict (A : Type) : Type := mk_loss_dict {
  d_psnr : A; d_ssim : A; d_mse : A
}.
Arguments mk_loss_dict {A} d_psnr d_ssim d_mse.
Arguments d_psnr {A} l.
Arguments d_ssim {A} l.
Arguments d_mse {A} l.

(** A Python reference to a tensor object: its index in the heap. *)
Abbreviation tref := nat (only parsing).

(** ** External collaborators *)

Class Collab : Type := {
  scalar : Type;                (* Python / torch floats *)
  pyrng : Type;                 (* state of Python's global [random] *)
  torchrng : Type;              (* state of torch's global generator *)
  dataset : Type;               (* an opened torchvision dataset *)
  pil_image : Type;             (* a PIL image *)
  (* torch *)
  cuda_is_available : bool;
  zero_grad_set_to_none : bool; (* the default of [Optimizer.zero_grad] *)
  scalar_zero : scalar;
  scalar_add : scalar -> scalar -> scalar;
  torch_sample : dist -> list nat -> torchrng -> list scalar * torchrng;
  torch_var : list scalar -> scalar;
  softmax : tval scalar -> tval scalar;
  (* random: [floor(random() * n)] *)
  random_below : nat -> pyrng -> nat * pyrng;
  (* models.py: LeNet() followed by net.apply(weights_init) *)
  LeNet : torchrng -> list (tval scalar) * torchrng;
  (* autograd: the gradient of cross_entropy_for_onehot(net(x), y) with
     respect to net.parameters(), from the parameter values, x and y *)
  ce_grad : list (tval scalar) -> tval scalar -> tval scalar -> list (tval scalar);
  (* utils.py: the value of a measure on two gradient lists *)
  measure_eval : measure_fn scalar -> list (tval scalar) -> list (tval scalar) -> scalar;
  (* autograd: what grad_diff.backward() adds to the .grad of dummy_data, of
     dummy_label and of each classifier parameter, from the measure, the
     original gradients, the parameter values, dummy_data and dummy_label *)
  backward_grads : measure_fn scalar -> list (tval scalar) -> list (tval scalar) ->
                   tval scalar -> tval scalar ->
                   list scalar * list scalar * list (list scalar);
  (* torch.optim.LBFGS: the rounds of one step, from lr, the index of the
     step and the loss of its first evaluation *)
  lbfgs_rounds : scalar -> nat -> scalar -> list (lbfgs_round scalar);
  (* torchvision *)
  dataset_open : dataset_class -> dataset;
  dataset_len : dataset -> nat;
  dataset_image : dataset -> nat -> tval scalar;   (* tp(dst[index][0]) *)
  dataset_label : dataset -> nat -> Z;             (* dst[index][1] *)
  ToPILImage : tval scalar -> pil_image;
  (* utils.py *)
  label_to_onehot : Z -> tval scalar;
  (* numpy / skimage *)
  transpose_hwc : tval scalar -> tval scalar;      (* .numpy().transpose((1, 2, 0)) *)
  psnr : tval scalar -> tval scalar -> scalar;
  mse : tval scalar -> tval scalar -> scalar;
  ssim : tval scalar -> tval scalar -> scalar
}.

Section Model.
Context `{C : Collab}.

Abbreviation tv := (tval scalar).

(** ** The heap of tensors *)

(** A tensor object: a view (shape) on a storage, with the autograd
    attributes.  Python variables hold references ([tref]) to tensor objects;
    several objects may share one storage ([view], [detach]). *)
Record tobj : Type := mk_tobj {
  o_storage : nat;
  o_shape : list nat;
  o_requires_grad : bool;
  o_grad_fn : bool;                   (* attached to a computation graph *)
  o_grad : option (list scalar)       (* the .grad accumulator *)
}.

Record world : Type := mk_world {
  objs : list tobj;
  stor : list (list scalar);
  py_rng : pyrng;
  torch_rng : torchrng;
  trace : list event
}.

Definition set_objs (w : world) (o : list tobj) : world :=
  mk_world o (stor w) (py_rng w) (torch_rng w) (trace w).
Definition set_stor (w : world) (s : list (list scalar)) : world :=
  mk_world (objs w) s (py_rng w) (torch_rng w) (trace w).
Definition set_py_rng (w : world) (r : pyrng) : world :=
  mk_world (objs w) (stor w) r (torch_rng w) (trace w).
Definition set_torch_rng (w : world) (r : torchrng) : world :=
  mk_world (objs w) (stor w) (py_rng w) r (trace w).
Definition set_trace (w : world) (t : list event) : world :=
  mk_world (objs w) (stor w) (py_rng w) (torch_rng w) t.

Definition set_grad_of (o : tobj) (g : option (list scalar)) : tobj :=
  mk_tobj (o_storage o) (o_shape o) (o_requires_grad o) (o_grad_fn o) g.
Definition set_requires_grad_of (o : tobj) (b : bool) : tobj :=
  mk_tobj (o_storage o) (o_shape o) b (o_grad_fn o) (o_grad o).

(** ** The monad: state passing over [world], with exceptions.  The world
    reached when an exception is raised is kept, as in Python. *)
Definition M (A : Type) : Type := world -> result A * world.

Definition ret {A} (a : A) : M A := fun w => (Ok a, w).
Definition raise {A} (e : exn) : M A := fun w => (Raise e, w).
Definition bind {A B} (m : M A) (k : A -> M B) : M B :=
  fun w => match m w with
           | (Ok a, w') => k a w'
           | (Raise e, w') => (Raise e, w')
           end.
Definition lift {A} (r : result A) : M A := fun w => (r, w).

Notation "'let*' x ':=' m 'in' k" := (bind m (fun x => k))
  (at level 10, x pattern, m at level 100, k at level 200).
Notation "m ';;' k" := (bind m (fun _ => k))
  (at level 100, k at level 200, right associativity).

Fixpoint for_each {A S : Type} (l : list A) (body : A -> S -> M S) (s : S) : M S :=
  match l with
  | [] => ret s
  | x :: l' => let* s' := body x s in for_each l' body s'
  end.

Fixpoint map_m {A B : Type} (f : A -> M B) (l : list A) : M (list B) :=
  match l with
  | [] => ret []
  | x :: l' => let* y := f x in let* ys := map_m f l' in ret (y :: ys)
  end.

(** ** Heap primitives *)

Definition log (e : event) : M unit :=
  fun w => (Ok tt, set_trace w (trace w ++ [e])).

Definition get_obj (r : tref) : M tobj :=
  fun w => match objs w !! r with
           | Some o => (Ok o, w)
           | None => (Raise StaleReference, w)
           end.

Definition get_elems (o : tobj) : M (list scalar) :=
  fun w => match stor w !! o_storage o with
           | Some e => (Ok e, w)
           | None => (Raise StaleReference, w)
           end.

(** The contents seen through a reference. *)
Definition get_val (r : tref) : M tv :=
  let* o := get_obj r in
  let* e := get_elems o in
  ret (mk_tval (o_shape o) e).

(** A new tensor object on an existing storage. *)
Definition new_view (st : nat) (sh : list nat) (rg gf : bool) : M tref :=
  fun w => (Ok (length (objs w)),
            set_objs w (objs w ++ [mk_tobj st sh rg gf None])).

(** A new tensor object on a new storage. *)
Definition new_tensor (v : tv) (rg gf : bool) : M tref :=
  fun w => (Ok (length (objs w)),
            set_objs (set_stor w (stor w ++ [elems v]))
                     (objs w ++ [mk_tobj (length (stor w)) (shape v) rg gf None])).

Definition put_obj (r : tref) (o : tobj) : M unit :=
  fun w => (Ok tt, set_objs w (<[r := o]> (objs w))).

Definition put_elems (st : nat) (e : list scalar) : M unit :=
  fun w => (Ok tt, set_stor w (<[st := e]> (stor w))).


(** ** Tensor operations of torch used by the source *)

Definition size (r : tref) : M (list nat) :=
  let* o := get_obj r in ret (o_shape o).

(** [t.requires_grad_(b)]: mutates the tensor object and returns it. *)
Definition requires_grad_ (r : tref) (b : bool) : M tref :=
  let* o := get_obj r in
  put_obj r (set_requires_grad_of o b);;
  ret r.

(** [t.detach()]: a new tensor object on the same storage, outside any
    computation graph. *)
Definition detach (r : tref) : M tref :=
  let* o := get_obj r in
  new_view (o_storage o) (o_shape o) false false.

(** [t.clone()]: a new storage holding a copy of the elements; the copy stays
    in the graph of [t] when [t] is in one. *)
Definition clone (r : tref) : M tref :=
  let* o := get_obj r in
  let* e := get_elems o in
  new_tensor (mk_tval (o_shape o) e) false (o_requires_grad o || o_grad_fn o).

(** [t.view(1, *t.size())]. *)
Definition view_1 (r : tref) : M tref :=
  let* o := get_obj r in
  new_view (o_storage o) (1%nat :: o_shape o) (o_requires_grad o) (o_grad_fn o).

(** Device placement is not modelled: [t.to(device)] and [t.cpu()] keep the
    reference. *)
Definition to (r : tref) (dev : string) : M tref := ret r.

(** [torch.rand(size)], [torch.randn(size)], [torch.normal(mean, std, size)]. *)
Definition torch_random (d : dist) (sh : list nat) : M tref :=
  log (EvSample d);;
  let* e := (fun w => let '(e, g) := torch_sample d sh (torch_rng w) in
                      (Ok e, set_torch_rng w g)) in
  new_tensor (mk_tval sh e) false false.

(** [torch.cat(ts, 0)] on contents: the list must be non-empty, no tensor may
    be zero-dimensional and the shapes must agree after the first axis. *)
Definition cat0 (vs : list tv) : result tv :=
  match vs with
  | [] => Raise RuntimeError
  | v :: _ =>
      match shape v with
      | [] => Raise RuntimeError
      | _ :: s =>
          if forallb (fun u => bool_decide (tail (shape u) = s /\ shape u <> [])) vs
          then Ok (mk_tval (foldr Nat.add 0%nat (map (fun u => hd 0%nat (shape u)) vs) :: s)
                           (concat (map elems vs)))
          else Raise RuntimeError
      end
  end.

Definition torch_cat (ts : list tref) : M tref :=
  let* vs := map_m get_val ts in
  let* v := lift (cat0 vs) in
  new_tensor v false false.

(** [t[i]] on contents. *)
Definition index_first (v : tv) (i : nat) : result tv :=
  match shape v with
  | [] => Raise IndexError
  | n :: s =>
      if (i <? n)%nat
      then Ok (mk_tval s (take (foldr Nat.mul 1%nat s)
                               (drop (i * foldr Nat.mul 1%nat s) (elems v))))
      else Raise IndexError
  end.

(** What [backward()] does at a leaf: add into [.grad]. *)
Definition accumulate_grad (r : tref) (g : list scalar) : M unit :=
  let* o := get_obj r in
  if o_requires_grad o
  then put_obj r (set_grad_of o (Some (match o_grad o with
                                       | None => g
                                       | Some a => zip_with scalar_add a g
                                       end)))
  else ret tt.

(** [Optimizer.zero_grad()] over the tensors given to the optimizer. *)
Definition zero_grad (ps : list tref) : M unit :=
  log EvZeroGrad;;
  for_each ps (fun p _ =>
    let* o := get_obj p in
    match o_grad o with
    | None => ret tt
    | Some g =>
        put_obj p (set_grad_of o (if zero_grad_set_to_none then None
                                  else Some (map (fun _ => scalar_zero) g)))
    end) tt.

(** [range(n)]. *)
Definition range (n : Z) : list nat := seq 0 (Z.to_nat n).

(** [random.choices(list(range(n)), k=k)]: [k] draws of
    [population[floor(random() * n)]]. *)
Definition random_choices (n : nat) (k : Z) : M (list nat) :=
  map_m (fun _ : nat =>
           if (n =? 0)%nat then raise IndexError
           else fun w => let '(i, g) := random_below n (py_rng w) in
                         (Ok i, set_py_rng w g))
        (range k).

(** [np.arange(0, stop, step)] on integers. *)
Definition np_arange (stop step : Z) : M (list Z) :=
  if step =? 0 then raise ZeroDivisionError
  else ret (map (fun i : nat => Z.of_nat i * step) (range (- ((- stop) / step)))).

(** ** The class [Experiment]

    The [print] calls of the source are left out: they have no effect on the
    object or on the tensors. *)

(** The dictionary [params] given to [Experiment(params)], with its ten keys. *)
Record Params : Type := mk_Params {
  p_num_epochs : Z;
  p_batch_size : Z;
  p_measure : string;
  p_data : string;
  p_index : Z;
  p_init_type : string;
  p_Q : scalar;
  p_val_size : Z;
  p_n_images : Z;
  p_lr : scalar
}.

(** The attributes of an [Experiment] object.  [net] is the list of the
    classifier's parameters, in the order of [net.parameters()]. *)
Record Experiment : Type := mk_Experiment {
  device : string;
  num_epochs : Z;
  batch_size : Z;
  measure : string;
  data_name : string;
  img_index : Z;
  init_type : string;
  Q : scalar;
  val_size : Z;
  n_images : Z;
  net : list tref;
  lr : scalar;
  dst : dataset;
  indices : list nat;
  gt_data : tref;
  gt_label : list tref;
  gt_onehot_label : tref;
  original_dy_dx : list tref;
  loss_measure : measure_fn scalar;
  iters : list Z;
  losses : loss_dict (list (list scalar));
  history : list (list pil_image)
}.

Definition set_history_losses (self : Experiment)
    (h : list (list pil_image)) (l : loss_dict (list (list scalar))) : Experiment :=
  mk_Experiment (device self) (num_epochs self) (batch_size self) (measure self)
    (data_name self) (img_index self) (init_type self) (Q self) (val_size self)
    (n_images self) (net self) (lr self) (dst self) (indices self) (gt_data self)
    (gt_label self) (gt_onehot_label self) (original_dy_dx self) (loss_measure self)
    (iters self) l h.

Definition format_image (d : dataset) (index : nat) (dev : string) : M tref :=
  let* t := new_tensor (dataset_image d index) false false in
  let* gt := to t dev in
  view_1 gt.

Definition format_label (d : dataset) (index : nat) (dev : string) : M tref :=
  new_tensor (label_to_onehot (dataset_label d index)) false false.

Definition dsts : gmap string dataset_class :=
  <["CIFAR" := CIFAR100]> (<["MNIST" := QMNIST]>
    (<["Omniglot" := Omniglot]> (<["SVHN" := SVHN]> ∅))).

Definition load_dataset (name : string) : M dataset :=
  match dsts !! name with
  | Some c => log (EvDataset name);; ret (dataset_open c)
  | None => raise (KeyError name)
  end.

Definition load_ground_truths (d : dataset) (idxs : list nat) (dev : string)
    : M (tref * list tref * tref) :=
  let* images := map_m (fun idx => format_image d idx dev) idxs in
  let* gt_label := map_m (fun idx => format_label d idx dev) idxs in
  let* gt_data := torch_cat images in
  let* gt_onehot_label := torch_cat gt_label in
  ret (gt_data, gt_label, gt_onehot_label).

Definition compute_original_grad (params : list tref) (gt_data gt_onehot_label : tref)
    : M (list tref) :=
  let* pvals := map_m get_val params in
  let* x := get_val gt_data in
  log EvForward;;
  let* y := get_val gt_onehot_label in
  log (EvAutograd false);;
  let* dy_dx := map_m (fun g => new_tensor g false false) (ce_grad pvals x y) in
  map_m (fun t => let* d := detach t in clone d) dy_dx.

(** [torch.cat(ts)] on flattened tensors: the list must be non-empty. *)
Definition cat_flat (ts : list (list scalar)) : result (list scalar) :=
  match ts with
  | [] => Raise RuntimeError
  | _ :: _ => Ok (concat ts)
  end.

Definition measure_msg : string :=
  "Only keywords 'euclidean' and 'gaussian' are accepted for 'measure'.".

Definition create_loss_measure (measure : string) (original_dy_dx : list tref)
    (Q : scalar) : M (measure_fn scalar) :=
  if (measure =? "euclidean")%string then ret euclidean_measure
  else if (measure =? "gaussian")%string then
    let* all_grads := map_m (fun grad => let* v := get_val grad in ret (elems v))
                            original_dy_dx in
    let* flat := lift (cat_flat all_grads) in
    log EvVar;;
    let sigma := torch_var flat in
    ret (gaussian_measure sigma Q)
  else raise (ValueError measure_msg).

Definition init_type_msg : string :=
  "Only keywords 'uniform', 'gaussian' and 'gaussian_shift are accepted for 'init_type'.".

Definition init_data (self : Experiment) : M (tref * tref) :=
  let sample d :=
    let* sd := size (gt_data self) in
    let* t := torch_random d sd in
    let* t := to t (device self) in
    let* dummy_data := requires_grad_ t true in
    let* sl := size (gt_onehot_label self) in
    let* t := torch_random d sl in
    let* t := to t (device self) in
    let* dummy_label := requires_grad_ t true in
    ret (dummy_data, dummy_label) in
  if (init_type self =? "uniform")%string then sample Uniform01
  else if (init_type self =? "gaussian")%string then sample StandardNormal
  else if (init_type self =? "gaussian_shift")%string then sample (Normal (1 # 2) (1 # 2))
  else raise (ValueError init_type_msg).

Definition __init__ (params : Params) : M Experiment :=
  let device := if cuda_is_available then "cuda" else "cpu" in
  let* net := (fun w => let '(vs, g) := LeNet (torch_rng w) in
                        map_m (fun v => new_tensor v true false) vs
                              (set_torch_rng w g)) in
  let* dst := load_dataset (p_data params) in
  let* indices := random_choices (dataset_len dst) (p_batch_size params) in
  let* gts := load_ground_truths dst indices device in
  let '(gt_data, gt_label, gt_onehot_label) := gts in
  let* original_dy_dx := compute_original_grad net gt_data gt_onehot_label in
  let* loss_measure := create_loss_measure (p_measure params) original_dy_dx (p_Q params) in
  let* iters := np_arange (p_num_epochs params) (p_val_size params) in
  ret (mk_Experiment device (p_num_epochs params) (p_batch_size params)
         (p_measure params) (p_data params) (p_index params) (p_init_type params)
         (p_Q params) (p_val_size params) (p_n_images params) net (p_lr params)
         dst indices gt_data gt_label gt_onehot_label original_dy_dx loss_measure
         iters (mk_loss_dict [] [] []) []).

(** The local function [closure] of [train]; [dummy_data] and [dummy_label]
    are the two tensors given to the optimizer. *)
Definition closure (self : Experiment) (dummy_data dummy_label : tref) : M scalar :=
  zero_grad [dummy_data; dummy_label];;
  let* pvals := map_m get_val (net self) in
  let* dv := get_val dummy_data in
  log EvForward;;
  let* lv := get_val dummy_label in
  let dummy_onehot_label := softmax lv in
  log (EvAutograd true);;
  let dummy_dy_dx := ce_grad pvals dv dummy_onehot_label in
  let* ovals := map_m get_val (original_dy_dx self) in
  let grad_diff := measure_eval (loss_measure self) ovals dummy_dy_dx in
  log EvBackward;;
  let '(gd, gl, gps) := backward_grads (loss_measure self) ovals pvals dv lv in
  accumulate_grad dummy_data gd;;
  accumulate_grad dummy_label gl;;
  for_each (zip (net self) gps) (fun pg _ => accumulate_grad (fst pg) (snd pg)) tt;;
  ret grad_diff.

(** The in-place update [p.add_(...)] of one optimised tensor. *)
Definition update_in_place (rd : lbfgs_round scalar) (p : tref) : M unit :=
  let* o := get_obj p in
  let* e := get_elems o in
  put_elems (o_storage o) (r_update rd e (o_grad o)).

(** [optimizer.step(closure)] for the L-BFGS optimizer over
    [[dummy_data, dummy_label]]. *)
Definition optimizer_step (self : Experiment) (dummy_data dummy_label : tref)
    (k : nat) : M unit :=
  let* loss := closure self dummy_data dummy_label in
  for_each (lbfgs_rounds (lr self) k loss) (fun rd _ =>
    update_in_place rd dummy_data;;
    update_in_place rd dummy_label;;
    if r_reeval rd then closure self dummy_data dummy_label;; ret tt else ret tt) tt.

(** The state of the loop of [train]: [self.history] and the local
    [train_loss]. *)
Definition loop_state : Type :=
  (list (list pil_image) * loss_dict (list scalar))%type.

(** One iteration of [for iters in range(self.num_epochs)]. *)
Definition epoch (self : Experiment) (dummy_data dummy_label : tref) (gt_im : tv)
    (iters : nat) (st : loop_state) : M loop_state :=
  optimizer_step self dummy_data dummy_label iters;;
  if val_size self =? 0 then raise ZeroDivisionError
  else if Z.of_nat iters mod val_size self =? 0 then
    let* current_loss := closure self dummy_data dummy_label in
    let* dv := get_val dummy_data in
    let* ims := map_m (fun i => let* x := lift (index_first dv i) in ret (ToPILImage x))
                      (range (batch_size self)) in
    let* d0 := lift (index_first dv 0%nat) in
    let dummy_im := transpose_hwc d0 in
    ret (fst st ++ [ims],
         mk_loss_dict (d_psnr (snd st) ++ [psnr gt_im dummy_im])
                      (d_ssim (snd st) ++ [ssim gt_im dummy_im])
                      (d_mse (snd st) ++ [mse gt_im dummy_im]))
  else ret st.

Definition train (self : Experiment) : M Experiment :=
  let* dd := init_data self in
  let* gv := get_val (gt_data self) in
  let* g0 := lift (index_first gv 0%nat) in
  let gt_im := transpose_hwc g0 in
  let train_loss := mk_loss_dict [] [] [] in
  let* st := for_each (range (num_epochs self)) (epoch self (fst dd) (snd dd) gt_im)
                      (history self, train_loss) in
  ret (set_history_losses self (fst st)
         (mk_loss_dict (d_psnr (losses self) ++ [d_psnr (snd st)])
                       (d_ssim (losses self) ++ [d_ssim (snd st)])
                       (d_mse (losses self) ++ [d_mse (snd st)]))).

End Model.

(** ** Vocabulary of the statements *)

Section Vocabulary.
Context `{C : Collab}.

(** The contents seen through a reference, as a pure function of the world. *)
Definition val_of (w : world) (r : tref) : option (tval scalar) :=
  match objs w !! r with
  | Some o => match stor w !! o_storage o with
              | Some e => Some (mk_tval (o_shape o) e)
              | None => None
              end
  | None => None
  end.

Definition readable (w : world) (r : tref) : Prop := is_Some (val_of w r).

(** The distribution [init_data] selects for a recognised [init_type]. *)
Definition valid_init_type (s : string) : option dist :=
  if (s =? "uniform")%string then Some Uniform01
  else if (s =? "gaussian")%string then Some StandardNormal
  else if (s =? "gaussian_shift")%string then Some (Normal (1 # 2) (1 # 2))
  else None.

(** The world after [sampler(size).to(device).requires_grad_(True)]. *)
Definition sample_world (d : dist) (sh : list nat) (w : world) : world :=
  mk_world (objs w ++ [mk_tobj (length (stor w)) sh true false None])
           (stor w ++ [fst (torch_sample d sh (torch_rng w))])
           (py_rng w) (snd (torch_sample d sh (torch_rng w)))
           (trace w ++ [EvSample d]).

Definition with_measure (p : Params) (s : string) : Params :=
  mk_Params (p_num_epochs p) (p_batch_size p) s (p_data p) (p_index p)
    (p_init_type p) (p_Q p) (p_val_size p) (p_n_images p) (p_lr p).

Definition with_init_type (p : Params) (s : string) : Params :=
  mk_Params (p_num_epochs p) (p_batch_size p) (p_measure p) (p_data p) (p_index p)
    s (p_Q p) (p_val_size p) (p_n_images p) (p_lr p).

Definition set_init_type (self : Experiment) (s : string) : Experiment :=
  mk_Experiment (device self) (num_epochs self) (batch_size self) (measure self)
    (data_name self) (img_index self) s (Q self) (val_size self)
    (n_images self) (net self) (lr self) (dst self) (indices self) (gt_data self)
    (gt_label self) (gt_onehot_label self) (original_dy_dx self) (loss_measure self)
    (iters self) (losses self) (history self).

(** The epochs at which the loop of [train] takes a snapshot. *)
Definition snapshot_epochs (n v : Z) : list nat :=
  filter (fun i : nat => Z.of_nat i mod v = 0) (range n).

(** [ceil(n / v)] for positive [v]. *)
Definition ceil_div (n v : Z) : Z := (n + v - 1) / v.

(** [k] successive calls of [train] on the same object. *)
Fixpoint train_n (k : nat) (self : Experiment) : M Experiment :=
  match k with
  | O => ret self
  | S k' => bind (train self) (train_n k')
  end.

(** The events logged by one evaluation of the closure. *)
Definition is_loop_event (e : event) : bool :=
  match e with
  | EvZeroGrad | EvForward | EvAutograd true | EvBackward => true
  | _ => false
  end.

(** What the optimisation loop keeps of the world [b] it starts from: the
    tensor objects up to the [.grad] of the references in [T], the storages
    other than those of the references in [D], and a log that only grows by
    closure events. *)
Record loop_inv (b : world) (T D : list tref) (w : world) : Prop := mk_loop_inv {
  li_objs : Forall2 (fun o o' => o' = set_grad_of o (o_grad o')) (objs b) (objs w);
  li_frame : forall i, i ∉ T -> objs w !! i = objs b !! i;
  li_len_stor : length (stor w) = length (stor b);
  li_stor : forall j, (forall r o, r ∈ D -> objs b !! r = Some o -> o_storage o <> j) ->
                      stor w !! j = stor b !! j;
  li_trace : exists t, trace w = trace b ++ t /\ forallb is_loop_event t = true;
  li_py_rng : py_rng w = py_rng b;
  li_torch_rng : torch_rng w = torch_rng b
}.

(** Total correctness under an invariant [I] of the world: from every world
    in [I] the computation returns normally, in [I], a value in [Q]. *)
Definition safe {A} (I : world -> Prop) (m : M A) (Q : A -> Prop) : Prop :=
  forall w, I w -> exists a w', m w = (Ok a, w') /\ I w' /\ Q a.

(** The state of the loop of [train] after [n] snapshots, starting from the
    history [h0]: one history entry and one value of each metric per snapshot,
    every metric being taken against the image [gt_im]. *)
Definition recorded (gt_im : tval scalar) (h0 : list (list pil_image)) (n : nat)
    (st : loop_state) : Prop :=
  exists snaps ims, length snaps = n /\ length ims = n /\ fst st = h0 ++ snaps /\
    snd st = mk_loss_dict (map (psnr gt_im) ims) (map (ssim gt_im) ims) (map (mse gt_im) ims).

(** An experiment as [__init__] leaves it, in a world holding its tensors. *)
Record wf_experiment (self : Experiment) (w : world) : Prop := mk_wf {
  wf_net : Forall (readable w) (net self);
  wf_orig : Forall (readable w) (original_dy_dx self);
  wf_orig_net : Forall (fun r => r ∉ net self) (original_dy_dx self);
  wf_gt_data : exists v s, val_of w (gt_data self) = Some v /\
                           shape v = Z.to_nat (batch_size self) :: s;
  wf_batch : 0 < batch_size self;
  wf_gt_label : is_Some (objs w !! gt_onehot_label self);
  wf_val_size : val_size self <> 0
}.

(** The two references [init_data] returns in the world [w], and the world
    [train] runs its loop from. *)
Definition dummy_refs (w : world) : list tref := [length (objs w); S (length (objs w))].

Definition train_world (self : Experiment) (d : dist) (w : world) : world :=
  match objs w !! gt_data self, objs w !! gt_onehot_label self with
  | Some og, Some ol => sample_world d (o_shape ol) (sample_world d (o_shape og) w)
  | _, _ => w
  end.

(** The events logged by [train]. *)
Definition is_train_event (e : event) : bool :=
  is_loop_event e || match e with EvSample _ => true | _ => false end.

(** What a call of [train] leaves of the world [w]: every tensor object
    outside [T] (the classifier's parameters), every tensor object up to its
    [.grad], every storage, and the log up to events of [train]. *)
Record untouched (T : list tref) (w w' : world) : Prop := mk_untouched {
  ut_objs : forall i o, objs w !! i = Some o -> i ∉ T -> objs w' !! i = Some o;
  ut_layout : forall i o, objs w !! i = Some o ->
                exists o', objs w' !! i = Some o' /\ o' = set_grad_of o (o_grad o');
  ut_stor : forall j e, stor w !! j = Some e -> stor w' !! j = Some e;
  ut_trace : exists t, trace w' = trace w ++ t /\ forallb is_train_event t = true
}.

(** Every tensor object points to an existing storage. *)
Definition heap_wf (w : world) : Prop :=
  Forall (fun o => (o_storage o < length (stor w))%nat) (objs w).

(** A tensor outside any computation graph whose storage no other tensor
    object shares: what [t.detach().clone()] returns. *)
Definition detached_copy (w : world) (r : tref) : Prop :=
  exists o, objs w !! r = Some o /\ o_requires_grad o = false /\ o_grad_fn o = false /\
            forall r' o', objs w !! r' = Some o' -> o_storage o' = o_storage o -> r' = r.

(** The world [w'] extends the heap of [w]: allocations only. *)
Record heap_ext (w w' : world) : Prop := mk_heap_ext {
  he_objs : objs w `prefix_of` objs w';
  he_stor : stor w `prefix_of` stor w';
  he_wf : heap_wf w -> heap_wf w'
}.

Definition heap_step (w w' : world) : Prop :=
  heap_ext w w' /\ trace w' = trace w /\ py_rng w' = py_rng w /\ torch_rng w' = torch_rng w.

(** Allocating functions: each call returns a new reference to known contents. *)
Definition allocates {A} (f : A -> M tref) (V : A -> tval scalar -> Prop) : Prop :=
  forall x w r w', f x w = (Ok r, w') ->
    heap_step w w' /\ (length (objs w) <= r)%nat /\ exists v, val_of w' r = Some v /\ V x v.

(** What [__init__] has built when it reaches [create_loss_measure]. *)
Record setup : Type := mk_setup {
  s_net : list tref;
  s_dst : dataset;
  s_indices : list nat;
  s_gt_data : tref;
  s_gt_label : list tref;
  s_gt_onehot_label : tref;
  s_original_dy_dx : list tref
}.

Definition the_device : string := if cuda_is_available then "cuda" else "cpu".

(** [__init__] up to and including [compute_original_grad] (lines 22-57). *)
Definition setup_prefix (params : Params) : M setup :=
  bind (fun w => map_m (fun v => new_tensor v true false) (fst (LeNet (torch_rng w)))
                       (set_torch_rng w (snd (LeNet (torch_rng w))))) (fun net =>
  bind (load_dataset (p_data params)) (fun dst =>
  bind (random_choices (dataset_len dst) (p_batch_size params)) (fun indices =>
  bind (load_ground_truths dst indices the_device) (fun gts =>
  bind (compute_original_grad net (fst (fst gts)) (snd gts)) (fun original_dy_dx =>
  ret (mk_setup net dst indices (fst (fst gts)) (snd (fst gts)) (snd gts) original_dy_dx)))))).

(** [__init__] from [create_loss_measure] on (lines 60-65). *)
Definition setup_finish (params : Params) (s : setup) : M Experiment :=
  bind (create_loss_measure (p_measure params) (s_original_dy_dx s) (p_Q params)) (fun loss_measure =>
  bind (np_arange (p_num_epochs params) (p_val_size params)) (fun iters =>
  ret (mk_Experiment the_device (p_num_epochs params) (p_batch_size params)
         (p_measure params) (p_data params) (p_index params) (p_init_type params)
         (p_Q params) (p_val_size params) (p_n_images params) (s_net s) (p_lr params)
         (s_dst s) (s_indices s) (s_gt_data s) (s_gt_label s) (s_gt_onehot_label s)
         (s_original_dy_dx s) loss_measure iters (mk_loss_dict [] [] []) []))).

(** [self'] is [self] up to [history] and [losses]. *)
Definition same_config (self self' : Experiment) : Prop :=
  self' = set_history_losses self (history self') (losses self').

Definition experiment_of (p : Params) (s : setup) (lm : measure_fn scalar) (its : list Z)
    : Experiment :=
  mk_Experiment the_device (p_num_epochs p) (p_batch_size p)
    (p_measure p) (p_data p) (p_index p) (p_init_type p)
    (p_Q p) (p_val_size p) (p_n_images p) (s_net s) (p_lr p)
    (s_dst s) (s_indices s) (s_gt_data s) (s_gt_label s) (s_gt_onehot_label s)
    (s_original_dy_dx s) lm its (mk_loss_dict [] [] []) [].





(** C2 as stated: construction fails with the [ValueError] of an invalid
    configuration, and no gradient has been computed when it does. *)
Definition fails_before_any_gradient (p : Params) (w : world) : Prop :=
  exists msg w', __init__ p w = (Raise (ValueError msg), w') /\
                 forall b, EvAutograd b ∉ trace w'.

(** C3 as stated: construction fails with the [ValueError] of an invalid
    configuration. *)
Definition fails_at_setup (p : Params) (w : world) : Prop :=
  exists msg w', __init__ p w = (Raise (ValueError msg), w').

(** ** Vocabulary of the further properties *)

(** The computation keeps [I], whether it returns or raises. *)
Definition preserves {A} (I : world -> Prop) (m : M A) : Prop :=
  forall w r w', I w -> m w = (r, w') -> I w'.



End Vocabulary.

(** ** [make_reconstruction_plots]

    The method draws with matplotlib and returns nothing: the model keeps the
    calls made on the axes of the figure, in order.  The exceptions it can
    raise are Python's own, not those of the training code. *)
Section Plots.
Context `{C : Collab}.

Inductive plot_exn : Type :=
| PlotValueError                  (* ValueError: plt.subplots without rows *)
| PlotTypeError                   (* TypeError: an Axes object is subscripted *)
| PlotIndexError                  (* IndexError: a list or array index out of range *)
| PlotAttributeError              (* AttributeError: an array of axes has no imshow *)
| UnboundLocalError (var : string).   (* a local variable read before it is bound *)

(** What [plt.subplots] returns as [axes]: one Axes object, named by its row
    and column in the figure, or a numpy array of them with one or two
    dimensions. *)
Inductive axes_val : Type :=
| Axes (row col : nat)
| Axes1D (l : list (nat * nat))
| Axes2D (l : list (list (nat * nat))).

(** What is shown in a cell, and its title. *)
Inductive picture : Type :=
| Reconstruction (im : pil_image)               (* self.history[j][i] *)
| DatasetPicture (d : dataset) (index : nat).   (* self.dst[index][0] *)

Inductive caption : Type :=
| It (n : Z)                        (* f"it={n}" *)
| GroundTruthImage (index : nat).   (* f"Ground truth. Image {index}" *)

Inductive draw : Type :=
| Imshow (row col : nat) (p : picture)
| SetTitle (row col : nat) (c : caption)
| AxisOff (row col : nat)
| TightLayout
| PltShow.

(** The local variables [i] and [j] of the method, unbound until a loop binds
    them and kept after the loop, and the calls made so far. *)
Record frame : Type := mk_frame {
  v_i : option nat;
  v_j : option nat;
  drawn : list draw
}.

Definition P (A : Type) : Type := frame -> plot_exn + A * frame.

Definition p_ret {A} (a : A) : P A := fun f => inr (a, f).
Definition p_raise {A} (e : plot_exn) : P A := fun _ => inl e.
Definition p_bind {A B} (m : P A) (k : A -> P B) : P B :=
  fun f => match m f with
           | inr (a, f') => k a f'
           | inl e => inl e
           end.

Notation "'let*' x ':=' m 'in' k" := (p_bind m (fun x => k))
  (at level 10, x pattern, m at level 100, k at level 200).
Notation "m ';;' k" := (p_bind m (fun _ => k))
  (at level 100, k at level 200, right associativity).

Definition store_i (x : nat) : P unit := fun f => inr (tt, mk_frame (Some x) (v_j f) (drawn f)).
Definition store_j (x : nat) : P unit := fun f => inr (tt, mk_frame (v_i f) (Some x) (drawn f)).
Definition load_i : P nat :=
  fun f => match v_i f with Some x => inr (x, f) | None => inl (UnboundLocalError "i") end.
Definition load_j : P nat :=
  fun f => match v_j f with Some x => inr (x, f) | None => inl (UnboundLocalError "j") end.
Definition emit (d : draw) : P unit :=
  fun f => inr (tt, mk_frame (v_i f) (v_j f) (drawn f ++ [d])).

(** [for x in l: body], [x] being the local variable stored by [store]. *)
Fixpoint p_for (store : nat -> P unit) (l : list nat) (body : P unit) : P unit :=
  match l with
  | [] => p_ret tt
  | x :: l' => store x;; body;; p_for store l' body
  end.

(** [l[i]] on a list and [a[i]] on a value of [axes]. *)
Definition subscript {A} (l : list A) (i : nat) : P A :=
  match l !! i with
  | Some x => p_ret x
  | None => p_raise PlotIndexError
  end.

Definition axes_subscript (a : axes_val) (i : nat) : P axes_val :=
  match a with
  | Axes _ _ => p_raise PlotTypeError
  | Axes1D l => let* rc := subscript l i in p_ret (Axes (fst rc) (snd rc))
  | Axes2D l => let* row := subscript l i in p_ret (Axes1D row)
  end.

(** [plt.subplots(nrows, ncols)[1]], with the default [squeeze=True]: a single
    Axes for a 1 x 1 grid, a one-dimensional array for a single row or a
    single column, a two-dimensional array otherwise. *)
Definition subplots (nrows : Z) (ncols : nat) : P axes_val :=
  if (nrows <=? 0) || (ncols =? 0)%nat then p_raise PlotValueError
  else if (nrows =? 1) && (ncols =? 1)%nat then p_ret (Axes 0 0)
  else if nrows =? 1 then p_ret (Axes1D (map (pair 0%nat) (seq 0 ncols)))
  else if (ncols =? 1)%nat then p_ret (Axes1D (map (fun r => (r, 0%nat)) (range nrows)))
  else p_ret (Axes2D (map (fun r => map (pair r) (seq 0 ncols)) (range nrows))).

(** The three methods called on a cell: the receiver is looked up, then the
    argument is evaluated, then the call is made. *)
Definition imshow (ax : axes_val) (arg : P picture) : P unit :=
  match ax with
  | Axes r c => let* p := arg in emit (Imshow r c p)
  | _ => p_raise PlotAttributeError
  end.

Definition set_title (ax : axes_val) (arg : P caption) : P unit :=
  match ax with
  | Axes r c => let* t := arg in emit (SetTitle r c t)
  | _ => p_raise PlotAttributeError
  end.

Definition axis_off (ax : axes_val) : P unit :=
  match ax with
  | Axes r c => emit (AxisOff r c)
  | _ => p_raise PlotAttributeError
  end.

(** [axes[i][j + off]] and [axes[i + off]]. *)
Definition axes_i_j (axes : axes_val) (off : nat) : P axes_val :=
  let* i := load_i in
  let* row := axes_subscript axes i in
  let* j := load_j in
  axes_subscript row (j + off).

Definition axes_i (axes : axes_val) (off : nat) : P axes_val :=
  let* i := load_i in
  axes_subscript axes (i + off).

(** Lines 176-178, the body of the loops over [i] and [j]. *)
Definition show_reconstruction (self : Experiment) (axes : axes_val) : P unit :=
  let* ax := axes_i_j axes 0 in
  imshow ax (let* j := load_j in
             let* hj := subscript (history self) j in
             let* i := load_i in
             let* im := subscript hj i in
             p_ret (Reconstruction im));;
  let* ax := axes_i_j axes 0 in
  set_title ax (let* j := load_j in p_ret (It (Z.of_nat j * val_size self)));;
  let* ax := axes_i_j axes 0 in
  axis_off ax.

(** Lines 181-183, the body of the second loop over [i]. *)
Definition show_ground_truth (self : Experiment) (axes : axes_val) : P unit :=
  let* ax := axes_i_j axes 1 in
  imshow ax (let* i := load_i in
             let* idx := subscript (indices self) i in
             p_ret (DatasetPicture (dst self) idx));;
  let* ax := axes_i_j axes 1 in
  set_title ax (let* i := load_i in
                let* idx := subscript (indices self) i in
                p_ret (GroundTruthImage idx));;
  let* ax := axes_i_j axes 1 in
  axis_off ax.

(** Lines 186-188, the body of the loop of a batch of one image. *)
Definition show_reconstruction_1 (self : Experiment) (axes : axes_val) : P unit :=
  let* ax := axes_i axes 0 in
  imshow ax (let* i := load_i in
             let* hi := subscript (history self) i in
             let* im := subscript hi 0 in
             p_ret (Reconstruction im));;
  let* ax := axes_i axes 0 in
  set_title ax (let* i := load_i in p_ret (It (Z.of_nat i * val_size self)));;
  let* ax := axes_i axes 0 in
  axis_off ax.

(** Lines 189-191. *)
Definition show_ground_truth_1 (self : Experiment) (axes : axes_val) : P unit :=
  let* ax := axes_i axes 1 in
  imshow ax (let* idx := subscript (indices self) 0 in
             p_ret (DatasetPicture (dst self) idx));;
  let* ax := axes_i axes 1 in
  set_title ax (let* idx := subscript (indices self) 0 in
                p_ret (GroundTruthImage idx));;
  let* ax := axes_i axes 1 in
  axis_off ax.

Definition make_reconstruction_plots (self : Experiment) : P unit :=
  let* axes := subplots (batch_size self) (length (history self) + 1) in
  (if 1 <? batch_size self then
     p_for store_i (range (batch_size self))
       (p_for store_j (range (Z.of_nat (length (history self))))
          (show_reconstruction self axes));;
     p_for store_i (range (batch_size self)) (show_ground_truth self axes)
   else
     p_for store_i (range (Z.of_nat (length (history self))))
       (show_reconstruction_1 self axes);;
     show_ground_truth_1 self axes);;
  emit TightLayout;;
  emit PltShow.

(** A call of the method: what it has drawn when [plt.show()] returns, or the
    exception it raises. *)
Definition plot (self : Experiment) : plot_exn + list draw :=
  match make_reconstruction_plots self (mk_frame None None []) with
  | inr (_, f) => inr (drawn f)
  | inl e => inl e
  end.

(** The calls that fill one cell. *)
Definition cell (r c : nat) (p : picture) (t : caption) : list draw :=
  [Imshow r c p; SetTitle r c t; AxisOff r c].

(** Row [i] of the figure: one cell per entry of [history], then the
    ground-truth cell. *)
Definition reconstruction_cells (self : Experiment) (i : nat) : list draw :=
  flat_map (fun j => match history self !! j ≫= (.!! i) with
                     | Some im => cell i j (Reconstruction im)
                                       (It (Z.of_nat j * val_size self))
                     | None => []
                     end)
           (seq 0 (length (history self))).

Definition ground_truth_cell (self : Experiment) (i : nat) : list draw :=
  match indices self !! i with
  | Some idx => cell i (length (history self)) (DatasetPicture (dst self) idx)
                     (GroundTruthImage idx)
  | None => []
  end.

Definition figure (self : Experiment) : list draw :=
  (if 1 <? batch_size self then
     flat_map (reconstruction_cells self) (range (batch_size self)) ++
     flat_map (ground_truth_cell self) (range (batch_size self))
   else reconstruction_cells self 0 ++ ground_truth_cell self 0) ++
  [TightLayout; PltShow].

(** What the method relies on: a batch of at least one image, drawn indices
    for the whole batch, and a non-empty history of whole batches. *)
Record plottable (self : Experiment) : Prop := mk_plottable {
  pl_batch : 0 < batch_size self;
  pl_indices : length (indices self) = Z.to_nat (batch_size self);
  pl_history : history self <> [];
  pl_entries : Forall (fun e => length e = Z.to_nat (batch_size self)) (history self)
}.

(** The value of a loop variable after a loop over [l]. *)
Definition after_loop (l : list nat) (v : option nat) : option nat :=
  match last l with
  | Some x => Some x
  | None => v
  end.

End Plots.

(** ** A concrete collaborator instance, on integers

    Used to run the model: scalars are integers, the generators are counters,
    every dataset has three 1x2x2 images, the classifier has one parameter
    tensor, and each backward pass adds a non-zero gradient to every leaf. *)
Module Concrete.

Definition ones (n : nat) (x : Z) : list Z := repeat x n.

#[local] Instance ZCollab : Collab := {|
  scalar := Z;
  pyrng := nat;
  torchrng := nat;
  dataset := dataset_class;
  pil_image := list Z;
  cuda_is_available := false;
  zero_grad_set_to_none := false;
  scalar_zero := 0;
  scalar_add := Z.add;
  torch_sample := fun d sh g =>
    (ones (foldr Nat.mul 1%nat sh) (Z.of_nat g), S g);
  torch_var := fun l => foldr Z.add 0 l;
  softmax := fun v => v;
  random_below := fun n g => ((g mod n)%nat, S g);
  LeNet := fun g => ([mk_tval [2%nat] [1; 2]], S g);
  ce_grad := fun ps x y => map (fun p => mk_tval (shape p) (map (Z.add 1) (elems p))) ps;
  measure_eval := fun m o d => 7;
  backward_grads := fun m o ps dv lv =>
    (map (fun _ => 1) (elems dv), map (fun _ => 1) (elems lv),
     map (fun p => map (fun _ => 1) (elems p)) ps);
  lbfgs_rounds := fun lr k loss =>
    [mk_round (fun e g => match g with
                          | Some g => zip_with Z.sub e g
                          | None => e
                          end) true];
  dataset_open := fun c => c;
  dataset_len := fun _ => 3%nat;
  dataset_image := fun _ i => mk_tval [1%nat; 2%nat; 2%nat] (ones 4 (Z.of_nat i));
  dataset_label := fun _ i => Z.of_nat i;
  ToPILImage := fun v => elems v;
  label_to_onehot := fun l => mk_tval [1%nat; 3%nat] [l; 0; 0];
  transpose_hwc := fun v => v;
  psnr := fun a b => 1;
  mse := fun a b => 2;
  ssim := fun a b => 3
|}.

Definition w0 : world := mk_world [] [] 0%nat 0%nat [].

Definition params0 : Params :=
  mk_Params 5 2 "euclidean" "CIFAR" 0 "uniform" 1 2 1 1.

(** Configurations with an unsupported measure, initialisation, dataset, and
    one with the gaussian measure. *)
Definition params_l1 : Params :=
  mk_Params 5 2 "l1" "CIFAR" 0 "uniform" 1 2 1 1.
Definition params_bimodal : Params :=
  mk_Params 5 2 "euclidean" "CIFAR" 0 "bimodal" 1 2 1 1.
Definition params_gaussian : Params :=
  mk_Params 5 2 "gaussian" "CIFAR" 0 "gaussian_shift" 1 2 1 1.
Definition params_imagenet : Params :=
  mk_Params 5 2 "euclidean" "ImageNet" 0 "uniform" 1 2 1 1.
(** The same initial world with Python's generator in another state: other
    images are drawn from the dataset. *)
Definition w0' : world := mk_world [] [] 1%nat 0%nat [].

(** Configurations with an empty batch and with no epoch. *)
Definition params_empty_batch : Params :=
  mk_Params 5 0 "euclidean" "CIFAR" 0 "uniform" 1 2 1 1.
Definition params_no_epochs : Params :=
  mk_Params 0 2 "euclidean" "CIFAR" 0 "uniform" 1 2 1 1.

End Concrete.

(** ** Proofs *)

Section Proofs.
Context `{C : Collab}.

(** *** The monad *)

Lemma bind_ok {A B} (m : M A) (k : A -> M B) w a w1 :
  m w = (Ok a, w1) -> bind m k w = k a w1.
Proof. intros H. unfold bind. by rewrite H. Qed.

Lemma bind_raise {A B} (m : M A) (k : A -> M B) w e w1 :
  m w = (Raise e, w1) -> bind m k w = (Raise e, w1).
Proof. intros H. unfold bind. by rewrite H. Qed.

Lemma bind_ok_inv {A B} (m : M A) (k : A -> M B) w b w2 :
  bind m k w = (Ok b, w2) -> exists a w1, m w = (Ok a, w1) /\ k a w1 = (Ok b, w2).
Proof.
  unfold bind. destruct (m w) as [[a|e] w1]; [eauto | discriminate].
Qed.

Lemma safe_ret {A} (I : world -> Prop) (a : A) (Q : A -> Prop) :
  Q a -> safe I (ret a) Q.
Proof. intros HQ w HI. by exists a, w. Qed.

Lemma safe_bind {A B} (I : world -> Prop) (m : M A) (k : A -> M B) P Q :
  safe I m P -> (forall a, P a -> safe I (k a) Q) -> safe I (bind m k) Q.
Proof.
  intros Hm Hk w HI. destruct (Hm w HI) as (a & w1 & E & HI1 & HP).
  destruct (Hk a HP w1 HI1) as (b & w2 & E2 & HI2 & HQ).
  exists b, w2. by rewrite (bind_ok _ _ _ _ _ E).
Qed.

Lemma safe_mono {A} (I : world -> Prop) (m : M A) (P Q : A -> Prop) :
  safe I m P -> (forall a, P a -> Q a) -> safe I m Q.
Proof.
  intros Hm HPQ w HI. destruct (Hm w HI) as (a & w1 & E & HI1 & HP). eauto 6.
Qed.

Lemma safe_lift {A} (I : world -> Prop) (r : result A) a (Q : A -> Prop) :
  r = Ok a -> Q a -> safe I (lift r) Q.
Proof. intros -> HQ w HI. by exists a, w. Qed.

Lemma safe_for_each {A S} (I : world -> Prop) (l : list A) (body : A -> S -> M S)
    (P : S -> Prop) s :
  (forall x s, x ∈ l -> P s -> safe I (body x s) P) -> P s -> safe I (for_each l body s) P.
Proof.
  revert s. induction l as [|x l IH]; intros s Hb Hs; simpl.
  - by apply safe_ret.
  - eapply safe_bind; [apply Hb; [left | done] |].
    intros s' Hs'. apply IH; [|done]. intros y t Hy. apply Hb. by right.
Qed.

Lemma safe_map_m {A B} (I : world -> Prop) (f : A -> M B) (l : list A) (P : A -> B -> Prop) :
  (forall x, x ∈ l -> safe I (f x) (P x)) -> safe I (map_m f l) (Forall2 P l).
Proof.
  induction l as [|x l IH]; intros Hf; simpl.
  - by apply safe_ret.
  - eapply safe_bind; [apply Hf; left |]. intros y Hy.
    eapply safe_bind; [apply IH; intros z Hz; apply Hf; by right |]. intros ys Hys.
    apply safe_ret. by constructor.
Qed.

(** *** Reading the heap *)

Lemma get_val_eq r w :
  get_val r w = (match val_of w r with Some v => Ok v | None => Raise StaleReference end, w).
Proof.
  unfold get_val, val_of, bind, get_obj, get_elems, ret.
  destruct (objs w !! r) as [o|]; [|done].
  destruct (stor w !! o_storage o); done.
Qed.

Lemma size_eq r o w : objs w !! r = Some o -> size r w = (Ok (o_shape o), w).
Proof. intros H. unfold size, bind, get_obj, ret. by rewrite H. Qed.

(** *** [init_data] *)

(** [sampler(size).to(device).requires_grad_(True)] allocates one tensor. *)
Lemma sample_requires_grad_eq d sh dev w :
  bind (torch_random d sh) (fun t => bind (to t dev) (fun t => requires_grad_ t true)) w =
  (Ok (length (objs w)), sample_world d sh w).
Proof.
  unfold bind, torch_random, log, to, ret, requires_grad_, put_obj, new_tensor, bind, get_obj,
    sample_world. simpl.
  destruct (torch_sample d sh (torch_rng w)) as [e1 g1]. simpl.
  rewrite list_lookup_middle by done. simpl. unfold set_objs, set_requires_grad_of. simpl.
  f_equal. f_equal.
  rewrite insert_app_r_alt by lia. by rewrite Nat.sub_diag.
Qed.

Lemma init_data_eq self w og ol d :
  objs w !! gt_data self = Some og ->
  objs w !! gt_onehot_label self = Some ol ->
  valid_init_type (init_type self) = Some d ->
  init_data self w =
    (Ok (length (objs w), S (length (objs w))),
     sample_world d (o_shape ol) (sample_world d (o_shape og) w)).
Proof.
  intros Hg Hl Hd.
  assert (Hs : forall d',
    (bind (size (gt_data self)) (fun sd =>
     bind (torch_random d' sd) (fun t =>
     bind (to t (device self)) (fun t =>
     bind (requires_grad_ t true) (fun dummy_data =>
     bind (size (gt_onehot_label self)) (fun sl =>
     bind (torch_random d' sl) (fun t =>
     bind (to t (device self)) (fun t =>
     bind (requires_grad_ t true) (fun dummy_label =>
     ret (dummy_data, dummy_label)))))))))) w =
    (Ok (length (objs w), S (length (objs w))),
     sample_world d' (o_shape ol) (sample_world d' (o_shape og) w))).
  { intros d'.
    erewrite bind_ok by (by apply size_eq).
    pose proof (sample_requires_grad_eq d' (o_shape og) (device self) w) as E1.
    unfold bind at 1 2 in E1. unfold bind at 1 2 3.
    destruct (torch_random d' (o_shape og) w) as [[t|e] w1]; [|done].
    destruct (to t (device self) w1) as [[t'|e] w2]; [|done].
    rewrite E1.
    erewrite bind_ok; last first.
    { apply size_eq. simpl. rewrite lookup_app_l by (by eapply lookup_lt_Some). done. }
    pose proof (sample_requires_grad_eq d' (o_shape ol) (device self)
                  (sample_world d' (o_shape og) w)) as E2.
    unfold bind at 1 2 in E2. unfold bind at 1 2 3.
    destruct (torch_random d' (o_shape ol) _) as [[t2|e] w3]; [|done].
    destruct (to t2 (device self) w3) as [[t2'|e] w4]; [|done].
    rewrite E2. unfold ret. simpl. by rewrite length_app, Nat.add_1_r. }
  unfold init_data. unfold valid_init_type in Hd.
  repeat case_match; simplify_eq; apply Hs.
Qed.

Lemma init_data_invalid self w :
  valid_init_type (init_type self) = None ->
  init_data self w = (Raise (ValueError init_type_msg), w).
Proof.
  unfold valid_init_type, init_data. intros H. by repeat case_match.
Qed.

(** *** The optimisation loop keeps [loop_inv] and cannot fail *)

Section Loop.
Variables (b : world) (T D : list tref).

Lemma loop_inv_refl : loop_inv b T D b.
Proof.
  constructor; try done.
  - apply Forall2_same_length_lookup_2; [done|]. intros i o o' H1 H2. simplify_eq. by destruct o.
  - exists []. by rewrite app_nil_r.
Qed.

Lemma li_lookup w i o :
  loop_inv b T D w -> objs b !! i = Some o ->
  exists o', objs w !! i = Some o' /\ o' = set_grad_of o (o_grad o').
Proof.
  intros [H _ _ _ _ _ _] Hi.
  destruct (Forall2_lookup_l _ _ _ _ _ H Hi) as (o' & ? & ?). eauto.
Qed.

Lemma li_lookup_r w i o' :
  loop_inv b T D w -> objs w !! i = Some o' ->
  exists o, objs b !! i = Some o /\ o' = set_grad_of o (o_grad o').
Proof.
  intros [H _ _ _ _ _ _] Hi.
  destruct (Forall2_lookup_r _ _ _ _ _ H Hi) as (o & ? & ?). eauto.
Qed.

Lemma li_val_of w r vb :
  loop_inv b T D w -> val_of b r = Some vb ->
  exists v, val_of w r = Some v /\ shape v = shape vb.
Proof.
  intros HI. unfold val_of. destruct (objs b !! r) as [o|] eqn:Eo; [|done].
  destruct (stor b !! o_storage o) as [e|] eqn:Ee; [|done]. intros [= <-].
  destruct (li_lookup _ _ _ HI Eo) as (o' & -> & Ho').
  assert (is_Some (stor w !! o_storage o')) as [e' ->].
  { apply lookup_lt_is_Some. rewrite (li_len_stor _ _ _ _ HI), Ho'. simpl.
    by eapply lookup_lt_Some. }
  eexists; split; [done|]. simpl. by rewrite Ho'.
Qed.

Lemma li_log w e :
  is_loop_event e = true -> loop_inv b T D w ->
  loop_inv b T D (set_trace w (trace w ++ [e])).
Proof.
  intros He [H1 H2 H3 H4 (t & Ht & Hall) H6 H7]. constructor; try done. simpl.
  exists (t ++ [e]). rewrite Ht, app_assoc. split; [done|].
  rewrite forallb_app, Hall. simpl. by rewrite He.
Qed.

Lemma li_put_grad w r o g :
  r ∈ T -> objs w !! r = Some o -> loop_inv b T D w ->
  loop_inv b T D (set_objs w (<[r := set_grad_of o g]> (objs w))).
Proof.
  intros Hr Ho HI. destruct (li_lookup_r _ _ _ HI Ho) as (ob & Hob & Hoo).
  destruct HI as [H1 H2 H3 H4 H5 H6 H7]. constructor; try done; simpl.
  - apply Forall2_same_length_lookup_2.
    { rewrite length_insert. by eapply Forall2_length. }
    intros i x y Hx Hy. destruct (decide (i = r)) as [->|Hne].
    + rewrite list_lookup_insert_eq in Hy by (by eapply lookup_lt_Some).
      simplify_eq. rewrite Hoo. done.
    + rewrite list_lookup_insert_ne in Hy by done.
      by eapply (Forall2_lookup_lr _ _ _ _ _ _ H1).
  - intros i Hi. rewrite list_lookup_insert_ne; [by apply H2|]. intros ->. done.
Qed.

Lemma li_put_elems w r o e :
  r ∈ D -> objs w !! r = Some o -> loop_inv b T D w ->
  loop_inv b T D (set_stor w (<[o_storage o := e]> (stor w))).
Proof.
  intros Hr Ho HI. destruct (li_lookup_r _ _ _ HI Ho) as (ob & Hob & Hoo).
  destruct HI as [H1 H2 H3 H4 H5 H6 H7]. constructor; try done; simpl.
  - by rewrite length_insert.
  - intros j Hj. rewrite list_lookup_insert_ne; [by apply H4|].
    rewrite Hoo. simpl. by eapply Hj.
Qed.

Abbreviation I := (loop_inv b T D).

Lemma safe_log e : is_loop_event e = true -> safe I (log e) (fun _ => True).
Proof. intros He w HI. exists tt, (set_trace w (trace w ++ [e])). split; [done|]. split; [by apply li_log|done]. Qed.

Lemma safe_get_val r vb :
  val_of b r = Some vb -> safe I (get_val r) (fun v => shape v = shape vb).
Proof.
  intros Hb w HI. destruct (li_val_of _ _ _ HI Hb) as (v & Hv & Hs).
  exists v, w. by rewrite get_val_eq, Hv.
Qed.

Lemma readable_obj w r : readable w r -> exists o, objs w !! r = Some o.
Proof. intros [v Hv]. unfold val_of in Hv. destruct (objs w !! r); [eauto|done]. Qed.

Lemma safe_accumulate_grad r g :
  r ∈ T -> readable b r -> safe I (accumulate_grad r g) (fun _ => True).
Proof.
  intros Hr [ob Hb]%readable_obj w HI.
  destruct (li_lookup _ _ _ HI Hb) as (o & Ho & _).
  unfold accumulate_grad, bind, get_obj. rewrite Ho.
  destruct (o_requires_grad o).
  - eexists tt, _. split; [done|]. split; [|done]. by apply li_put_grad.
  - by exists tt, w.
Qed.

Lemma safe_zero_grad ps :
  (forall p, p ∈ ps -> p ∈ T /\ readable b p) -> safe I (zero_grad ps) (fun _ => True).
Proof.
  intros Hps. unfold zero_grad. eapply safe_bind; [by apply safe_log|]. intros _ _.
  apply safe_for_each; [|done]. intros p [] Hp _ w HI.
  destruct (Hps p Hp) as (HT & [ob Hb]%readable_obj).
  destruct (li_lookup _ _ _ HI Hb) as (o & Ho & _).
  unfold bind, get_obj. rewrite Ho. destruct (o_grad o).
  - eexists tt, _. split; [done|]. split; [|done]. by apply li_put_grad.
  - by exists tt, w.
Qed.

Lemma safe_update_in_place rd r :
  r ∈ D -> readable b r -> safe I (update_in_place rd r) (fun _ => True).
Proof.
  intros Hr [vb Hb] w HI.
  destruct (li_val_of _ _ _ HI Hb) as (v & Hv & _).
  unfold val_of in Hv. destruct (objs w !! r) as [o|] eqn:Ho; [|done].
  destruct (stor w !! o_storage o) as [e|] eqn:He; [|done].
  unfold update_in_place, bind, get_obj, get_elems. rewrite Ho, He.
  eexists tt, _. split; [done|]. split; [|done]. by eapply li_put_elems.
Qed.


Lemma index_first_ok (v : tval scalar) n s i :
  shape v = n :: s -> (i < n)%nat -> exists x, index_first v i = Ok x.
Proof.
  intros Hs Hi. unfold index_first. rewrite Hs.
  apply Nat.ltb_lt in Hi. rewrite Hi. eauto.
Qed.

Section Body.
Variables (self : Experiment) (dd dl : tref) (n : nat) (s : list nat) (vd : tval scalar).
Hypothesis net_T : forall p, p ∈ net self -> p ∈ T.
Hypothesis dd_T : dd ∈ T.
Hypothesis dl_T : dl ∈ T.
Hypothesis dd_D : dd ∈ D.
Hypothesis dl_D : dl ∈ D.
Hypothesis net_readable : Forall (readable b) (net self).
Hypothesis orig_readable : Forall (readable b) (original_dy_dx self).
Hypothesis dd_val : val_of b dd = Some vd.
Hypothesis dd_shape : shape vd = n :: s.
Hypothesis dl_readable : readable b dl.
Hypothesis batch_le : (Z.to_nat (batch_size self) <= n)%nat.
Hypothesis n_pos : (0 < n)%nat.
Hypothesis val_size_nz : val_size self <> 0.

Lemma safe_get_vals rs :
  Forall (readable b) rs -> safe I (map_m get_val rs) (fun _ => True).
Proof.
  intros Hrs. eapply safe_mono; [apply (safe_map_m _ _ _ (fun _ _ => True))|done].
  intros r Hr. rewrite Forall_forall in Hrs. destruct (Hrs r Hr) as [vb Hvb].
  eapply safe_mono; [by apply safe_get_val|done].
Qed.

Lemma safe_closure : safe I (closure self dd dl) (fun _ => True).
Proof.
  assert (dd_readable : readable b dd) by (by exists vd).
  unfold closure.
  eapply safe_bind.
  { apply safe_zero_grad. intros p Hp.
    apply elem_of_cons in Hp as [->|Hp]; [by eauto|].
    apply list_elem_of_singleton in Hp as ->. eauto. }
  intros _ _. eapply safe_bind; [apply safe_get_vals, net_readable|]. intros pvals _.
  eapply safe_bind; [by eapply safe_get_val|]. intros dv _.
  eapply safe_bind; [by apply safe_log|]. intros _ _.
  destruct dl_readable as [vl Hvl].
  eapply safe_bind; [by eapply safe_get_val|]. intros lv _.
  eapply safe_bind; [by apply safe_log|]. intros _ _.
  eapply safe_bind; [by apply safe_get_vals|]. intros ovals _.
  eapply safe_bind; [by apply safe_log|]. intros _ _.
  destruct (backward_grads _ _ _ _ _) as [[gd gl] gps].
  eapply safe_bind; [apply safe_accumulate_grad; by eauto|]. intros _ _.
  eapply safe_bind; [apply safe_accumulate_grad; by eauto|]. intros _ _.
  eapply safe_bind; [|intros _ _; by apply safe_ret].
  apply (safe_for_each _ _ _ (fun _ => True)); [|done]. intros [p g] [] Hpg _. simpl.
  apply elem_of_zip_l in Hpg.
  apply safe_accumulate_grad; [by apply net_T|].
  rewrite Forall_forall in net_readable. by apply net_readable.
Qed.

Lemma safe_optimizer_step k : safe I (optimizer_step self dd dl k) (fun _ => True).
Proof.
  assert (dd_readable : readable b dd) by (by exists vd).
  unfold optimizer_step.
  eapply safe_bind; [apply safe_closure|]. intros loss _.
  apply safe_for_each; [|done]. intros rd [] _ _.
  eapply safe_bind; [apply safe_update_in_place; by eauto|]. intros _ _.
  eapply safe_bind; [apply safe_update_in_place; by eauto|]. intros _ _.
  destruct (r_reeval rd); [|by apply safe_ret].
  eapply safe_bind; [apply safe_closure|]. intros _ _. by apply safe_ret.
Qed.

Lemma safe_epoch gt_im h0 k iters st :
  recorded gt_im h0 k st ->
  safe I (epoch self dd dl gt_im iters st)
    (recorded gt_im h0 (if decide (Z.of_nat iters mod val_size self = 0) then S k else k)).
Proof.
  intros Hst. unfold epoch.
  eapply safe_bind; [apply safe_optimizer_step|]. intros _ _.
  destruct (val_size self =? 0) eqn:Ev; [by apply Z.eqb_eq in Ev|].
  destruct (Z.of_nat iters mod val_size self =? 0) eqn:Em.
  - apply Z.eqb_eq in Em. rewrite decide_True by done.
    eapply safe_bind; [apply safe_closure|]. intros current_loss _.
    eapply safe_bind; [by eapply safe_get_val|]. intros dv Hdv. simpl in Hdv.
    rewrite dd_shape in Hdv.
    eapply safe_bind.
    { apply (safe_map_m _ _ _ (fun _ _ => True)). intros i Hi.
      apply elem_of_seq in Hi.
      destruct (index_first_ok dv n s i Hdv) as [x Hx]; [lia|].
      eapply safe_bind; [by apply (safe_lift _ _ _ (fun _ => True) Hx)|].
      intros y _. by apply safe_ret. }
    intros ims _.
    destruct (index_first_ok dv n s 0%nat Hdv) as [d0 Hd0]; [lia|].
    eapply safe_bind; [by apply (safe_lift _ _ _ (fun a => a = d0) Hd0)|]. intros ? ->.
    apply safe_ret.
    destruct Hst as (snaps & dims & Hl1 & Hl2 & Hf & Hs).
    exists (snaps ++ [ims]), (dims ++ [transpose_hwc d0]). simpl.
    rewrite !length_app, Hl1, Hl2, Hf, Hs. simpl. rewrite !map_app, app_assoc. simpl.
    repeat split; lia.
  - apply Z.eqb_neq in Em. rewrite decide_False by done. by apply safe_ret.
Qed.

Lemma safe_epochs gt_im h0 l k st :
  recorded gt_im h0 k st ->
  safe I (for_each l (epoch self dd dl gt_im) st)
    (recorded gt_im h0
       (k + length (filter (fun i : nat => Z.of_nat i mod val_size self = 0) l))).
Proof.
  revert k st. induction l as [|i l IH]; intros k st Hst; simpl.
  - apply safe_ret. by rewrite Nat.add_0_r.
  - eapply safe_bind; [by apply safe_epoch|]. intros st' Hst'.
    rewrite filter_cons. case_decide; simpl.
    + rewrite <- Nat.add_succ_comm. by apply IH.
    + by apply IH.
Qed.

End Body.
End Loop.

(** *** [train] on a well-formed experiment *)

Lemma val_of_sample_world d sh w r v :
  val_of w r = Some v -> val_of (sample_world d sh w) r = Some v.
Proof.
  unfold val_of. simpl. destruct (objs w !! r) as [o|] eqn:Eo; [|done].
  destruct (stor w !! o_storage o) as [e|] eqn:Ee; [|done]. intros <-.
  rewrite (lookup_app_l_Some _ _ _ _ Eo), (lookup_app_l_Some _ _ _ _ Ee). done.
Qed.

Lemma val_of_sample_world_new d sh w :
  val_of (sample_world d sh w) (length (objs w)) =
  Some (mk_tval sh (fst (torch_sample d sh (torch_rng w)))).
Proof.
  unfold val_of. simpl. rewrite list_lookup_middle by done. simpl.
  by rewrite list_lookup_middle by done.
Qed.

Lemma readable_sample_world d sh w r :
  readable w r -> readable (sample_world d sh w) r.
Proof. intros [v Hv]. exists v. by apply val_of_sample_world. Qed.

Lemma readable_lt w r : readable w r -> (r < length (objs w))%nat.
Proof. intros [o Ho]%readable_obj. by eapply lookup_lt_Some. Qed.

Lemma train_ok self w d :
  wf_experiment self w -> valid_init_type (init_type self) = Some d ->
  exists self' w' gv g0 snaps ims,
    train self w = (Ok self', w') /\
    val_of w (gt_data self) = Some gv /\ index_first gv 0%nat = Ok g0 /\
    loop_inv (train_world self d w) (net self ++ dummy_refs w) (dummy_refs w) w' /\
    length snaps = length (snapshot_epochs (num_epochs self) (val_size self)) /\
    length ims = length (snapshot_epochs (num_epochs self) (val_size self)) /\
    self' = set_history_losses self (history self ++ snaps)
              (mk_loss_dict
                 (d_psnr (losses self) ++ [map (psnr (transpose_hwc g0)) ims])
                 (d_ssim (losses self) ++ [map (ssim (transpose_hwc g0)) ims])
                 (d_mse (losses self) ++ [map (mse (transpose_hwc g0)) ims])).
Proof.
  intros [Hnet Horig Hon (gv & s & Hgv & Hsh) Hb [ol Hol] Hv] Hd.
  assert (exists og, objs w !! gt_data self = Some og /\ o_shape og = shape gv) as (og & Hog & Hogs).
  { unfold val_of in Hgv. destruct (objs w !! gt_data self) as [og|]; [|done].
    destruct (stor w !! o_storage og); [|done]. simplify_eq. eauto. }
  destruct (index_first_ok gv _ _ 0%nat Hsh) as [g0 Hg0]; [lia|].
  unfold train_world. rewrite Hog, Hol.
  set (w1 := sample_world d (o_shape og) w).
  set (w2 := sample_world d (o_shape ol) w1).
  set (dd := length (objs w)). set (dl := S (length (objs w))).
  assert (Hdl : dl = length (objs w1)).
  { unfold w1, dl. simpl. rewrite length_app. simpl. lia. }
  assert (Hsafe : safe (loop_inv w2 (net self ++ dummy_refs w) (dummy_refs w))
            (for_each (range (num_epochs self)) (epoch self dd dl (transpose_hwc g0))
                      (history self, mk_loss_dict [] [] []))
            (recorded (transpose_hwc g0) (history self)
               (0 + length (snapshot_epochs (num_epochs self) (val_size self))))).
  { apply (safe_epochs w2 (net self ++ dummy_refs w) (dummy_refs w) self dd dl
             (Z.to_nat (batch_size self)) s
             (mk_tval (o_shape og) (fst (torch_sample d (o_shape og) (torch_rng w))))).
    - intros p Hp. apply elem_of_app. by left.
    - apply elem_of_app. right. left.
    - apply elem_of_app. right. right. left.
    - left.
    - right. left.
    - eapply Forall_impl; [exact Hnet|]. intros r Hr. by do 2 apply readable_sample_world.
    - eapply Forall_impl; [exact Horig|]. intros r Hr. by do 2 apply readable_sample_world.
    - apply val_of_sample_world, val_of_sample_world_new.
    - simpl. by rewrite Hogs.
    - eexists. rewrite Hdl. apply val_of_sample_world_new.
    - done.
    - lia.
    - done.
    - exists [], []. repeat split; try done. by rewrite app_nil_r. }
  unfold train.
  erewrite bind_ok by (by eapply init_data_eq). simpl. fold w1 w2 dd dl.
  erewrite bind_ok; last first.
  { rewrite get_val_eq. unfold w2, w1.
    by rewrite (val_of_sample_world _ _ _ _ _ (val_of_sample_world _ _ _ _ _ Hgv)). }
  erewrite bind_ok by (unfold lift; by rewrite Hg0).
  destruct (Hsafe w2) as (st & w' & E & HI & Hrec); [apply loop_inv_refl|].
  destruct Hrec as (snaps & ims & Hl1 & Hl2 & Hf & Hs).
  erewrite bind_ok by exact E. unfold ret.
  exists (set_history_losses self (fst st)
            (mk_loss_dict (d_psnr (losses self) ++ [d_psnr (snd st)])
               (d_ssim (losses self) ++ [d_ssim (snd st)])
               (d_mse (losses self) ++ [d_mse (snd st)]))), w', gv, g0, snaps, ims.
  rewrite Hf, Hs. simpl.
  split; [done|]. split; [done|]. split; [done|]. split; [exact HI|].
  split; [done|]. split; done.
Qed.

Lemma untouched_refl T w : untouched T w w.
Proof.
  constructor; try done.
  - intros i o Hi. exists o. split; [done|]. by destruct o.
  - exists []. by rewrite app_nil_r.
Qed.

Lemma untouched_trans T w1 w2 w3 :
  untouched T w1 w2 -> untouched T w2 w3 -> untouched T w1 w3.
Proof.
  intros [A1 A2 A3 (t1 & A4 & A5)] [B1 B2 B3 (t2 & B4 & B5)]. constructor.
  - eauto.
  - intros i o Hi. destruct (A2 i o Hi) as (o' & Ho' & E').
    destruct (B2 i o' Ho') as (o'' & Ho'' & E''). exists o''. split; [done|].
    rewrite E'', E'. done.
  - eauto.
  - exists (t1 ++ t2). rewrite B4, A4, app_assoc. split; [done|].
    by rewrite forallb_app, A5, B5.
Qed.


Lemma untouched_shape T w w' r v :
  untouched T w w' -> val_of w r = Some v ->
  exists v', val_of w' r = Some v' /\ shape v' = shape v.
Proof.
  intros [_ A2 A3 _]. unfold val_of.
  destruct (objs w !! r) as [o|] eqn:Eo; [|done].
  destruct (stor w !! o_storage o) as [e|] eqn:Ee; [|done]. intros [= <-].
  destruct (A2 _ _ Eo) as (o' & -> & E'). rewrite E'. simpl.
  rewrite (A3 _ _ Ee). eauto.
Qed.

Lemma loop_inv_untouched self d w w' :
  is_Some (objs w !! gt_data self) -> is_Some (objs w !! gt_onehot_label self) ->
  loop_inv (train_world self d w) (net self ++ dummy_refs w) (dummy_refs w) w' ->
  untouched (net self) w w'.
Proof.
  intros [og Hog] [ol Hol]. unfold train_world. rewrite Hog, Hol. intros HI.
  assert (Hlen : length (objs (sample_world d (o_shape og) w)) = S (length (objs w))).
  { simpl. rewrite length_app. simpl. lia. }
  constructor.
  - intros i o Hi HT. rewrite (li_frame _ _ _ _ HI).
    + simpl. by do 2 apply lookup_app_l_Some.
    + apply lookup_lt_Some in Hi. unfold dummy_refs.
      rewrite elem_of_app, !elem_of_cons, elem_of_nil. intros [?|[?|[?|[]]]]; [done|lia|lia].
  - intros i o Hi. eapply li_lookup; [exact HI|]. simpl. by do 2 apply lookup_app_l_Some.
  - intros j e Hj. rewrite (li_stor _ _ _ _ HI).
    + simpl. by do 2 apply lookup_app_l_Some.
    + apply lookup_lt_Some in Hj. intros r o Hr Ho. unfold dummy_refs in Hr.
      rewrite !elem_of_cons, elem_of_nil in Hr. destruct Hr as [->|[->|[]]].
      * simpl in Ho. rewrite lookup_app_l in Ho by (rewrite length_app; simpl; lia).
        rewrite list_lookup_middle in Ho by done. simplify_eq. simpl. lia.
      * simpl in Ho. rewrite <- Hlen in Ho. simpl in Ho.
        rewrite list_lookup_middle in Ho by done. simplify_eq. simpl.
        rewrite length_app. simpl. lia.
  - destruct (li_trace _ _ _ _ HI) as (t & Ht & Hall). simpl in Ht.
    exists ([EvSample d; EvSample d] ++ t). split.
    + rewrite Ht. by rewrite <- !app_assoc.
    + rewrite forallb_app. simpl.
      clear Ht. induction t as [|e t IH]; [done|]. simpl in *.
      apply andb_true_iff in Hall as [He Ht]. unfold is_train_event at 1. rewrite He. simpl. auto.
Qed.

(** The two outcomes of [train] on a well-formed experiment. *)
Lemma train_cases self w :
  wf_experiment self w ->
  (valid_init_type (init_type self) = None /\
   train self w = (Raise (ValueError init_type_msg), w)) \/
  (exists d self' w' gv g0 snaps ims,
    valid_init_type (init_type self) = Some d /\
    train self w = (Ok self', w') /\
    val_of w (gt_data self) = Some gv /\ index_first gv 0%nat = Ok g0 /\
    untouched (net self) w w' /\
    wf_experiment self' w' /\
    length snaps = length (snapshot_epochs (num_epochs self) (val_size self)) /\
    length ims = length (snapshot_epochs (num_epochs self) (val_size self)) /\
    self' = set_history_losses self (history self ++ snaps)
              (mk_loss_dict
                 (d_psnr (losses self) ++ [map (psnr (transpose_hwc g0)) ims])
                 (d_ssim (losses self) ++ [map (ssim (transpose_hwc g0)) ims])
                 (d_mse (losses self) ++ [map (mse (transpose_hwc g0)) ims]))).
Proof.
  intros Hwf. destruct (valid_init_type (init_type self)) as [d|] eqn:Hd.
  - right. destruct (train_ok self w d Hwf Hd)
      as (self' & w' & gv & g0 & snaps & ims & E & Hgv & Hg0 & HI & Hl1 & Hl2 & Hs).
    assert (Hu : untouched (net self) w w').
    { eapply loop_inv_untouched; [| |exact HI].
      - unfold val_of in Hgv. by destruct (objs w !! gt_data self).
      - by destruct Hwf. }
    exists d, self', w', gv, g0, snaps, ims. repeat (split; [done|]). split; [|done].
    destruct Hwf as [Hnet Horig Hon (v & s & Hv & Hsh) Hb [ol Hol] Hvs]. subst self'.
    constructor; simpl; try done.
    + eapply Forall_impl; [exact Hnet|]. intros r [x Hx].
      destruct (untouched_shape _ _ _ _ _ Hu Hx) as (x' & Hx' & _). by exists x'.
    + eapply Forall_impl; [exact Horig|]. intros r [x Hx].
      destruct (untouched_shape _ _ _ _ _ Hu Hx) as (x' & Hx' & _). by exists x'.
    + destruct (untouched_shape _ _ _ _ _ Hu Hv) as (x' & Hx' & Hsx).
      exists x', s. by rewrite Hsx.
    + destruct (ut_layout _ _ _ Hu _ _ Hol) as (o' & Ho' & _). by exists o'.
  - left. split; [done|]. unfold train. by rewrite (bind_raise _ _ _ _ _ (init_data_invalid _ _ Hd)).
Qed.


(** *** Allocation during setup *)

Lemma heap_ext_refl w : heap_ext w w.
Proof. by constructor. Qed.

Lemma heap_ext_trans w1 w2 w3 : heap_ext w1 w2 -> heap_ext w2 w3 -> heap_ext w1 w3.
Proof. intros [] []. constructor; try (by etrans); auto. Qed.

Lemma heap_step_refl w : heap_step w w.
Proof. split; [apply heap_ext_refl|done]. Qed.

Lemma heap_step_trans w1 w2 w3 : heap_step w1 w2 -> heap_step w2 w3 -> heap_step w1 w3.
Proof.
  intros (? & ? & ? & ?) (? & ? & ? & ?).
  split; [by eapply heap_ext_trans|]. repeat split; congruence.
Qed.

Lemma heap_ext_val_of w w' r v : heap_ext w w' -> val_of w r = Some v -> val_of w' r = Some v.
Proof.
  intros [[os Ho] [ss Hs] _]. unfold val_of.
  destruct (objs w !! r) as [o|] eqn:Eo; [|done].
  destruct (stor w !! o_storage o) as [e|] eqn:Ee; [|done]. intros [= <-].
  by rewrite Ho, Hs, (lookup_app_l_Some _ _ _ _ Eo), (lookup_app_l_Some _ _ _ _ Ee).
Qed.

Lemma heap_step_val_of w w' r v : heap_step w w' -> val_of w r = Some v -> val_of w' r = Some v.
Proof. intros [H _]. by apply heap_ext_val_of. Qed.

Lemma heap_ext_length w w' : heap_ext w w' -> (length (objs w) <= length (objs w'))%nat.
Proof. intros [[os Ho] _ _]. rewrite Ho, length_app. lia. Qed.

Lemma heap_step_length w w' : heap_step w w' -> (length (objs w) <= length (objs w'))%nat.
Proof. intros [H _]. by apply heap_ext_length. Qed.

Lemma new_tensor_step v rg gf w r w' :
  new_tensor v rg gf w = (Ok r, w') ->
  heap_step w w' /\ r = length (objs w) /\ val_of w' r = Some v /\
  objs w' = objs w ++ [mk_tobj (length (stor w)) (shape v) rg gf None].
Proof.
  unfold new_tensor. intros [= <- <-]. split; [|split; [done|split; [|done]]].
  - split; [|done]. constructor; simpl; try (by eexists).
    unfold heap_wf. simpl. intros Hwf. rewrite Forall_app, Forall_singleton. simpl.
    rewrite length_app. simpl. split; [|lia]. eapply Forall_impl; [exact Hwf|]. simpl. lia.
  - unfold val_of. simpl. rewrite list_lookup_middle by done. simpl.
    rewrite list_lookup_middle by done. by destruct v.
Qed.

Lemma new_view_step st sh rg gf w r w' :
  new_view st sh rg gf w = (Ok r, w') -> (st < length (stor w))%nat ->
  heap_step w w' /\ r = length (objs w) /\
  objs w' = objs w ++ [mk_tobj st sh rg gf None] /\ stor w' = stor w.
Proof.
  unfold new_view. intros [= <- <-] Hst. split; [|done].
  split; [|done]. constructor; simpl; try done; try (by eexists).
  unfold heap_wf. simpl. intros Hwf. rewrite Forall_app, Forall_singleton. done.
Qed.

Lemma map_m_allocates {A} (f : A -> M tref) V l w rs w' :
  allocates f V -> map_m f l w = (Ok rs, w') ->
  heap_step w w' /\
  Forall2 (fun x r => (length (objs w) <= r)%nat /\ exists v, val_of w' r = Some v /\ V x v) l rs.
Proof.
  intros Hf. revert w rs w'. induction l as [|x l IH]; intros w rs w' H; simpl in H.
  - injection H as <- <-. split; [apply heap_step_refl|constructor].
  - apply bind_ok_inv in H as (r & w1 & E1 & H).
    apply bind_ok_inv in H as (rs' & w2 & E2 & H). injection H as <- <-.
    destruct (Hf _ _ _ _ E1) as (S1 & Hr & v & Hv & HV).
    destruct (IH _ _ _ E2) as (S2 & Hall).
    split; [by eapply heap_step_trans|]. constructor.
    + split; [done|]. exists v. split; [|done]. by eapply heap_step_val_of.
    + eapply Forall2_impl; [exact Hall|]. simpl. intros y r' [Hle Hy]. split; [|done].
      apply heap_step_length in S1. lia.
Qed.

Lemma new_tensor_allocates rg gf :
  allocates (fun v => new_tensor v rg gf) (fun v v' => v' = v).
Proof.
  intros v w r w' E. apply new_tensor_step in E as (S & -> & Hv & _).
  split; [done|]. split; [done|]. eauto.
Qed.

Lemma format_image_allocates d dev :
  allocates (fun idx => format_image d idx dev)
            (fun idx v => v = mk_tval (1%nat :: shape (dataset_image d idx))
                                      (elems (dataset_image d idx))).
Proof.
  intros idx w r w' E. unfold format_image in E.
  apply bind_ok_inv in E as (t & w1 & E1 & E).
  apply bind_ok_inv in E as (t' & w2 & E2 & E). unfold to, ret in E2. injection E2 as <- <-.
  apply new_tensor_step in E1 as (S1 & -> & Hv & Ho).
  unfold view_1 in E. apply bind_ok_inv in E as (o & w3 & E3 & E).
  unfold get_obj in E3. rewrite Ho, list_lookup_middle in E3 by done. injection E3 as <- <-.
  simpl in E.
  apply new_view_step in E as (S2 & -> & Ho2 & Hs2).
  2:{ revert Hv. unfold val_of. rewrite Ho.
      rewrite list_lookup_middle by done. simpl.
      destruct (stor w1 !! length (stor w)) eqn:El; [|done]. intros _.
      by eapply lookup_lt_Some. }
  split; [by eapply heap_step_trans|]. split.
  { apply heap_step_length in S1. lia. }
  eexists. split; [|done]. revert Hv. unfold val_of. rewrite Ho2, Hs2, Ho.
  rewrite !list_lookup_middle by done. simpl.
  destruct (stor w1 !! length (stor w)); [|done]. intros [= <-]. done.
Qed.

Lemma format_label_allocates d dev :
  allocates (fun idx => format_label d idx dev)
            (fun idx v => v = label_to_onehot (dataset_label d idx)).
Proof.
  intros idx w r w' E. unfold format_label in E.
  apply new_tensor_step in E as (S & -> & Hv & _).
  split; [done|]. split; [done|]. eauto.
Qed.

Lemma map_m_get_val_inv rs w vs w' :
  map_m get_val rs w = (Ok vs, w') ->
  w' = w /\ Forall2 (fun r v => val_of w r = Some v) rs vs.
Proof.
  revert vs. induction rs as [|r rs IH]; intros vs H; simpl in H.
  - injection H as <- <-. split; [done|constructor].
  - apply bind_ok_inv in H as (v & w1 & E1 & H).
    apply bind_ok_inv in H as (vs' & w2 & E2 & H). injection H as <- <-.
    rewrite get_val_eq in E1. destruct (val_of w r) as [v'|] eqn:Ev; [|done].
    injection E1 as <- <-. destruct (IH _ E2) as (-> & Hall). split; [done|]. by constructor.
Qed.

Lemma sum_heads (l : list (tval scalar)) :
  Forall (fun u => exists s, shape u = 1%nat :: s) l ->
  foldr Nat.add 0%nat (map (fun u => hd 0%nat (shape u)) l) = length l.
Proof.
  induction 1 as [|x l [s Hx] _ IH]; [done|]. simpl. rewrite Hx. simpl. by rewrite IH.
Qed.

Lemma cat0_shape (vs : list (tval scalar)) v :
  cat0 vs = Ok v -> Forall (fun u => exists s, shape u = 1%nat :: s) vs ->
  vs <> [] /\ exists s, shape v = length vs :: s.
Proof.
  unfold cat0. destruct vs as [|u vs]; [done|]. destruct (shape u) as [|n s] eqn:Es; [done|].
  case_match; [|done]. intros [= <-] Hall. split; [done|]. exists s.
  cbn [shape]. f_equal. by apply (sum_heads (u :: vs)).
Qed.

Lemma torch_cat_inv ts w r w' :
  torch_cat ts w = (Ok r, w') ->
  exists vs v, Forall2 (fun t u => val_of w t = Some u) ts vs /\ cat0 vs = Ok v /\
    heap_step w w' /\ r = length (objs w) /\ val_of w' r = Some v.
Proof.
  unfold torch_cat. intros H.
  apply bind_ok_inv in H as (vs & w1 & E1 & H).
  apply map_m_get_val_inv in E1 as (-> & Hvs).
  apply bind_ok_inv in H as (v & w2 & E2 & H). unfold lift in E2. injection E2 as E2 <-.
  apply new_tensor_step in H as (S & -> & Hv & _). eauto 10.
Qed.

Lemma load_ground_truths_inv d idxs dev w gd gl go w' :
  load_ground_truths d idxs dev w = (Ok (gd, gl, go), w') ->
  heap_step w w' /\ idxs <> [] /\
  (exists v s, val_of w' gd = Some v /\ shape v = length idxs :: s) /\
  readable w' go.
Proof.
  unfold load_ground_truths. intros H.
  apply bind_ok_inv in H as (images & w1 & E1 & H).
  apply bind_ok_inv in H as (labels & w2 & E2 & H).
  apply bind_ok_inv in H as (gd' & w3 & E3 & H).
  apply bind_ok_inv in H as (go' & w4 & E4 & H). injection H as <- <- <- <-.
  apply (map_m_allocates _ _ _ _ _ _ (format_image_allocates d dev)) in E1 as (S1 & A1).
  apply (map_m_allocates _ _ _ _ _ _ (format_label_allocates d dev)) in E2 as (S2 & A2).
  apply torch_cat_inv in E3 as (vs & v & Hvs & Hcat & S3 & -> & Hv).
  apply torch_cat_inv in E4 as (vs' & v' & Hvs' & Hcat' & S4 & -> & Hv').
  split; [eauto using heap_step_trans|].
  assert (Hlen : length vs = length idxs).
  { apply Forall2_length in Hvs, A1. lia. }
  destruct (cat0_shape vs v Hcat) as (Hne & s & Hs).
  { apply Forall_forall. intros u Hu. apply list_elem_of_lookup in Hu as [i Hi].
    destruct (Forall2_lookup_r _ _ _ _ _ Hvs Hi) as (t & Ht & Htv).
    destruct (Forall2_lookup_r _ _ _ _ _ A1 Ht) as (idx & _ & _ & u' & Hu' & ->).
    apply (heap_step_val_of _ _ _ _ S2) in Hu'. rewrite Hu' in Htv. injection Htv as <-.
    simpl. eauto. }
  split. { intros ->. by destruct vs. }
  split; [|by exists v'].
  exists v, s. rewrite <- Hlen. split; [|done]. by eapply heap_step_val_of.
Qed.


(** One [_.detach().clone()]. *)
Lemma detach_clone_step t w r w' :
  bind (detach t) (fun d => clone d) w = (Ok r, w') ->
  exists ot e, objs w !! t = Some ot /\ stor w !! o_storage ot = Some e /\
    r = S (length (objs w)) /\
    w' = mk_world (objs w ++ [mk_tobj (o_storage ot) (o_shape ot) false false None;
                              mk_tobj (length (stor w)) (o_shape ot) false false None])
                  (stor w ++ [e]) (py_rng w) (torch_rng w) (trace w).
Proof.
  intros H. apply bind_ok_inv in H as (d & w1 & E1 & E2).
  unfold detach in E1. apply bind_ok_inv in E1 as (ot & w0 & E0 & E1).
  unfold get_obj in E0. destruct (objs w !! t) as [ot'|] eqn:Et; [|done].
  injection E0 as <- <-. unfold new_view in E1. injection E1 as <- <-.
  unfold clone in E2. apply bind_ok_inv in E2 as (od & w2 & E2 & E3).
  unfold get_obj in E2. simpl in E2. rewrite list_lookup_middle in E2 by done.
  injection E2 as <- <-.
  apply bind_ok_inv in E3 as (e & w3 & E3 & E4).
  unfold get_elems in E3. simpl in E3.
  destruct (stor w !! o_storage ot') as [e'|] eqn:Ee; [|done]. injection E3 as <- <-.
  unfold new_tensor in E4. simpl in E4. injection E4 as <- <-.
  exists ot', e'. rewrite length_app, <- app_assoc. simpl.
  split; [done|]. split; [done|]. split; [lia|]. done.
Qed.

Lemma detach_clone_facts t w r w' :
  bind (detach t) (fun d => clone d) w = (Ok r, w') ->
  heap_step w w' /\ r = S (length (objs w)) /\
  (exists v, val_of w t = Some v /\ val_of w' r = Some v) /\
  (heap_wf w -> detached_copy w' r /\
                (forall r0, detached_copy w r0 -> r0 <> t -> detached_copy w' r0)).
Proof.
  intros H. apply detach_clone_step in H as (ot & e & Ht & He & -> & ->).
  assert (Hst : (o_storage ot < length (stor w))%nat) by (by eapply lookup_lt_Some).
  split; [|split; [done|split; [|intros Hwf; split]]].
  - split; [|done]. constructor; simpl; try (by eexists).
    intros Hwf. unfold heap_wf. simpl. rewrite Forall_app, !Forall_cons, Forall_nil.
    rewrite length_app. simpl. split; [|lia].
    eapply Forall_impl; [exact Hwf|]. simpl. lia.
  - exists (mk_tval (o_shape ot) e). unfold val_of. rewrite Ht, He. split; [done|]. simpl.
    rewrite (lookup_app_r (objs w)) by lia.
    replace (S (length (objs w)) - length (objs w))%nat with 1%nat by lia. simpl.
    by rewrite list_lookup_middle by done.
  - eexists. simpl. rewrite (lookup_app_r (objs w)) by lia.
    replace (S (length (objs w)) - length (objs w))%nat with 1%nat by lia. simpl.
    split; [done|]. split; [done|]. split; [done|]. intros r' o' Hr' Hs.
    destruct (decide (r' < length (objs w))%nat) as [Hlt|Hge].
    + rewrite lookup_app_l in Hr' by done.
      unfold heap_wf in Hwf. rewrite Forall_lookup in Hwf. specialize (Hwf _ _ Hr').
      simpl in *. lia.
    + rewrite lookup_app_r in Hr' by lia.
      destruct (r' - length (objs w))%nat as [|[|k]] eqn:Ek; simpl in Hr'.
      * injection Hr' as <-. simpl in Hs. lia.
      * lia.
      * done.
  - intros r0 (o0 & H0 & Hrg & Hgf & Huniq) Hne. exists o0. simpl.
    split; [by apply lookup_app_l_Some|]. split; [done|]. split; [done|].
    intros r' o' Hr' Hs.
    destruct (decide (r' < length (objs w))%nat) as [Hlt|Hge].
    + rewrite lookup_app_l in Hr' by done. by eapply Huniq.
    + rewrite lookup_app_r in Hr' by lia.
      assert (Hst0 : (o_storage o0 < length (stor w))%nat).
      { unfold heap_wf in Hwf. rewrite Forall_lookup in Hwf. by eapply Hwf. }
      destruct (r' - length (objs w))%nat as [|[|k]] eqn:Ek; simpl in Hr'.
      * injection Hr' as <-. simpl in Hs.
        specialize (Huniq _ _ Ht Hs). congruence.
      * injection Hr' as <-. simpl in Hs. lia.
      * done.
Qed.

Lemma detach_clone_list n ts w rs w' :
  Forall (fun t => (t < n)%nat) ts -> (n <= length (objs w))%nat ->
  map_m (fun t => bind (detach t) (fun d => clone d)) ts w = (Ok rs, w') ->
  heap_step w w' /\
  Forall2 (fun t r => (exists v, val_of w' t = Some v /\ val_of w' r = Some v) /\
                      (length (objs w) <= r)%nat) ts rs /\
  (heap_wf w -> Forall (detached_copy w') rs /\
                (forall r0, detached_copy w r0 -> r0 ∉ ts -> detached_copy w' r0)).
Proof.
  revert w rs w'. induction ts as [|t ts IH]; intros w rs w' Hts Hn H; simpl in H.
  - injection H as <- <-. split; [apply heap_step_refl|]. split; [constructor|done].
  - apply bind_ok_inv in H as (r & w1 & E1 & H).
    apply bind_ok_inv in H as (rs' & w2 & E2 & H). injection H as <- <-.
    apply Forall_cons in Hts as [Ht Hts].
    destruct (detach_clone_facts _ _ _ _ E1) as (S1 & -> & (v & Hv & Hv1) & Hd).
    pose proof (heap_step_length _ _ S1) as Hlen.
    assert (Hn1 : (n <= length (objs w1))%nat) by lia.
    destruct (IH _ _ _ Hts Hn1 E2) as (S2 & Hall & Hkeep2).
    split; [by eapply heap_step_trans|]. split; [constructor|].
    + split; [|lia].
      exists v. split; [|by eapply heap_step_val_of].
      eapply heap_step_val_of; [exact S2|]. by eapply heap_step_val_of.
    + eapply Forall2_impl; [exact Hall|]. simpl.
      intros t' r' (Hv' & Hle). split; [done|lia].
    + intros Hwf. destruct (Hd Hwf) as (Hd1 & Hkeep).
      assert (Hwf1 : heap_wf w1) by (by apply S1).
      destruct (Hkeep2 Hwf1) as (Hall2 & Hkeep3). split.
      * constructor; [|done]. apply Hkeep3; [done|]. intros Hin.
        rewrite Forall_forall in Hts. specialize (Hts _ Hin). lia.
      * intros r0 Hr0 Hin. apply not_elem_of_cons in Hin as [Hne Hin]. auto.
Qed.

Lemma val_of_lt w r v : val_of w r = Some v -> (r < length (objs w))%nat.
Proof.
  unfold val_of. destruct (objs w !! r) eqn:E; [|done]. intros _. by eapply lookup_lt_Some.
Qed.

Lemma compute_original_grad_inv params gd go w rs w' :
  compute_original_grad params gd go w = (Ok rs, w') ->
  exists pvals x y,
    Forall2 (fun p v => val_of w p = Some v) params pvals /\
    val_of w gd = Some x /\ val_of w go = Some y /\
    heap_step (set_trace w (trace w ++ [EvForward; EvAutograd false])) w' /\
    Forall2 (fun g r => val_of w' r = Some g /\ (length (objs w) <= r)%nat)
            (ce_grad pvals x y) rs /\
    (heap_wf w -> Forall (detached_copy w') rs).
Proof.
  unfold compute_original_grad. intros H.
  apply bind_ok_inv in H as (pvals & w1 & E1 & H).
  apply map_m_get_val_inv in E1 as (-> & Hp).
  apply bind_ok_inv in H as (x & w1 & E1 & H).
  rewrite get_val_eq in E1. destruct (val_of w gd) as [x'|] eqn:Ex; [|done].
  injection E1 as <- <-.
  apply bind_ok_inv in H as ([] & w1 & E1 & H). unfold log in E1. injection E1 as <-.
  apply bind_ok_inv in H as (y & w2 & E2 & H).
  rewrite get_val_eq in E2.
  change (val_of (set_trace w (trace w ++ [EvForward])) go) with (val_of w go) in E2.
  destruct (val_of w go) as [y'|] eqn:Ey; [|done]. injection E2 as <- <-.
  apply bind_ok_inv in H as ([] & w1 & E1 & H). unfold log in E1. injection E1 as <-.
  apply bind_ok_inv in H as (dy_dx & w3 & E3 & H).
  apply (map_m_allocates _ _ _ _ _ _ (new_tensor_allocates false false)) in E3 as (S3 & A3).
  apply (detach_clone_list (length (objs w3))) in H as (S4 & A4 & D4); [|
    |done].
  2:{ apply Forall_forall. intros t Ht. apply list_elem_of_lookup in Ht as [i Hi].
      destruct (Forall2_lookup_r _ _ _ _ _ A3 Hi) as (g & _ & _ & v & Hv & _).
      by eapply val_of_lt. }
  exists pvals, x', y'. split; [done|]. split; [done|]. split; [done|].
  assert (S : heap_step (set_trace w (trace w ++ [EvForward; EvAutograd false])) w').
  { eapply heap_step_trans; [|exact S4].
    revert S3. simpl. rewrite <- app_assoc. simpl. done. }
  split; [done|]. split.
  - apply Forall2_same_length_lookup_2.
    { apply Forall2_length in A3, A4. lia. }
    intros i g r Hg Hr.
    destruct (Forall2_lookup_l _ _ _ _ _ A3 Hg) as (t & Ht & Hle & v & Hv & ->).
    destruct (Forall2_lookup_lr _ _ _ _ _ _ A4 Ht Hr) as ((v' & Hv1 & Hv2) & Hle').
    apply (heap_step_val_of _ _ _ _ S4) in Hv. rewrite Hv in Hv1. injection Hv1 as <-.
    split; [done|]. apply heap_step_length in S3. simpl in *. lia.
  - intros Hwf. apply D4. apply S3. exact Hwf.
Qed.

Lemma map_m_elems_inv rs w es w' :
  map_m (fun grad => bind (get_val grad) (fun v => ret (elems v))) rs w = (Ok es, w') ->
  w' = w /\ exists vs, Forall2 (fun r v => val_of w r = Some v) rs vs /\ es = map elems vs.
Proof.
  revert es. induction rs as [|r rs IH]; intros es H; simpl in H.
  - injection H as <- <-. split; [done|]. exists []. split; [constructor|done].
  - apply bind_ok_inv in H as (e & w1 & E1 & H).
    apply bind_ok_inv in H as (es' & w2 & E2 & H). injection H as <- <-.
    apply bind_ok_inv in E1 as (v & w0 & E0 & E1). injection E1 as <- <-.
    rewrite get_val_eq in E0. destruct (val_of w r) as [v'|] eqn:Ev; [|done].
    injection E0 as <- <-. destruct (IH _ E2) as (-> & vs & Hvs & ->). split; [done|].
    exists (v' :: vs). split; [by constructor|done].
Qed.

Lemma create_loss_measure_inv m orig q w lm w' :
  create_loss_measure m orig q w = (Ok lm, w') ->
  (m = "euclidean" /\ lm = euclidean_measure /\ w' = w) \/
  (m = "gaussian" /\ w' = set_trace w (trace w ++ [EvVar]) /\
   exists ovals, Forall2 (fun r v => val_of w r = Some v) orig ovals /\
                 lm = gaussian_measure (torch_var (concat (map elems ovals))) q).
Proof.
  unfold create_loss_measure. intros H.
  destruct (String.eqb_spec m "euclidean") as [->|_].
  { injection H as <- <-. by left. }
  destruct (String.eqb_spec m "gaussian") as [->|_]; [|done]. right.
  apply bind_ok_inv in H as (es & w1 & E1 & H).
  apply map_m_elems_inv in E1 as (-> & vs & Hvs & ->).
  apply bind_ok_inv in H as (flat & w1 & E1 & H).
  unfold lift, cat_flat in E1.
  assert (flat = concat (map elems vs) /\ w1 = w) as [-> ->].
  { destruct (map elems vs); [done|]. by injection E1 as <- <-. }
  apply bind_ok_inv in H as ([] & w1 & E2 & H). injection E2 as <-. injection H as <- <-.
  split; [done|]. split; [done|]. by exists vs.
Qed.

Lemma create_loss_measure_invalid m orig q w :
  m <> "euclidean" -> m <> "gaussian" ->
  create_loss_measure m orig q w = (Raise (ValueError measure_msg), w).
Proof.
  intros H1 H2. unfold create_loss_measure.
  destruct (String.eqb_spec m "euclidean"); [done|].
  destruct (String.eqb_spec m "gaussian"); done.
Qed.


(** *** [__init__] in two halves *)

Lemma init_split p w : __init__ p w = bind (setup_prefix p) (setup_finish p) w.
Proof.
  unfold __init__, setup_prefix, setup_finish, bind, the_device.
  destruct (LeNet (torch_rng w)) as [vs g]. simpl.
  destruct (map_m _ vs _) as [[net|e] wa]; [|done].
  destruct (load_dataset _ wa) as [[d|e] wb]; [|done].
  destruct (random_choices _ _ wb) as [[idxs|e] wc]; [|done].
  destruct (load_ground_truths _ _ _ wc) as [[[[gd gl] go]|e] wd]; [|done]. simpl.
  destruct (compute_original_grad _ _ _ wd) as [[orig|e] we]; [|done]. simpl.
  done.
Qed.

Lemma load_dataset_inv name w d w' :
  load_dataset name w = (Ok d, w') ->
  is_Some (dsts !! name) /\ w' = set_trace w (trace w ++ [EvDataset name]).
Proof.
  unfold load_dataset. destruct (dsts !! name) as [c|]; [|done].
  intros H. apply bind_ok_inv in H as ([] & w1 & E1 & H). injection E1 as <-.
  injection H as <- <-. eauto.
Qed.

Lemma random_choices_inv n k w idxs w' :
  random_choices n k w = (Ok idxs, w') ->
  length idxs = Z.to_nat k /\ heap_ext w w' /\ heap_ext w' w /\ trace w' = trace w /\
  torch_rng w' = torch_rng w.
Proof.
  unfold random_choices, range. intros H.
  cut (length idxs = length (seq 0 (Z.to_nat k)) /\ heap_ext w w' /\ heap_ext w' w /\
       trace w' = trace w /\ torch_rng w' = torch_rng w).
  { by rewrite length_seq. }
  revert H. generalize (seq 0 (Z.to_nat k)). intros l. revert w idxs.
  induction l as [|x l IH]; intros w idxs H; simpl in H.
  - injection H as <- <-. repeat split; try done; apply heap_ext_refl.
  - apply bind_ok_inv in H as (i & w1 & E1 & H).
    apply bind_ok_inv in H as (is' & w2 & E2 & H). injection H as <- <-.
    destruct (n =? 0)%nat; [done|].
    destruct (random_below n (py_rng w)) as [j g]. injection E1 as <- <-.
    destruct (IH _ _ E2) as (Hl & H1 & H2 & H3 & H4). simpl. rewrite Hl.
    split; [done|]. split; [|split; [|done]].
    + eapply heap_ext_trans; [|exact H1]. by constructor.
    + eapply heap_ext_trans; [exact H2|]. by constructor.
Qed.

Lemma np_arange_inv stop step w l w' :
  np_arange stop step w = (Ok l, w') -> step <> 0 /\ w' = w.
Proof.
  unfold np_arange. destruct (Z.eqb_spec step 0); [done|]. by intros [= <- <-].
Qed.

Lemma heap_ext_readable w w' r : heap_ext w w' -> readable w r -> readable w' r.
Proof. intros H [v Hv]. exists v. by eapply heap_ext_val_of. Qed.

Lemma setup_prefix_inv p w s w' :
  setup_prefix p w = (Ok s, w') ->
  heap_ext w w' /\
  trace w' = trace w ++ [EvDataset (p_data p); EvForward; EvAutograd false] /\
  is_Some (dsts !! p_data p) /\
  Forall (readable w') (s_net s) /\
  Forall (readable w') (s_original_dy_dx s) /\
  Forall (fun r => r ∉ s_net s) (s_original_dy_dx s) /\
  (exists v sh, val_of w' (s_gt_data s) = Some v /\
                shape v = Z.to_nat (p_batch_size p) :: sh) /\
  0 < p_batch_size p /\
  readable w' (s_gt_onehot_label s) /\
  (exists pvals x y,
     Forall2 (fun r v => val_of w' r = Some v) (s_net s) pvals /\
     val_of w' (s_gt_data s) = Some x /\ val_of w' (s_gt_onehot_label s) = Some y /\
     Forall2 (fun g r => val_of w' r = Some g) (ce_grad pvals x y) (s_original_dy_dx s)) /\
  (heap_wf w -> heap_wf w' /\ Forall (detached_copy w') (s_original_dy_dx s)).
Proof.
  unfold setup_prefix. intros H.
  apply bind_ok_inv in H as (net & wa & Ea & H).
  apply bind_ok_inv in H as (d & wb & Eb & H).
  apply bind_ok_inv in H as (idxs & wc & Ec & H).
  apply bind_ok_inv in H as ([[gd gl] go] & wd & Ed & H). simpl in H.
  apply bind_ok_inv in H as (orig & we & Ee & H). injection H as <- <-. simpl.
  apply (map_m_allocates _ _ _ _ _ _ (new_tensor_allocates true false)) in Ea as (Sa & Aa).
  apply load_dataset_inv in Eb as (Hds & ->).
  apply random_choices_inv in Ec as (Hlen & Sc & Sc' & Tc & Rc).
  apply load_ground_truths_inv in Ed as (Sd & Hne & (v & sh & Hv & Hsh) & Hgo).
  apply compute_original_grad_inv in Ee
    as (pvals & x & y & Hp & Hx & Hy & Se & Ho & Hdet).
  assert (Ha : heap_ext w wa).
  { destruct Sa as [Sa _]. eapply heap_ext_trans; [|exact Sa]. by constructor. }
  assert (Hab : heap_ext wa wc).
  { eapply heap_ext_trans; [|exact Sc]. by constructor. }
  assert (Hcd : heap_ext wc wd) by apply Sd.
  assert (Hde : heap_ext wd we).
  { destruct Se as [Se _]. eapply heap_ext_trans; [|exact Se]. by constructor. }
  assert (Hae : heap_ext wa we) by eauto using heap_ext_trans.
  split; [eauto using heap_ext_trans|]. split.
  { destruct Se as (_ & -> & _). simpl. destruct Sd as (_ & -> & _). rewrite Tc. simpl.
    destruct Sa as (_ & -> & _). simpl. by rewrite <- app_assoc. }
  split; [done|]. split.
  { apply Forall_forall. intros r Hr. apply list_elem_of_lookup in Hr as [i Hi].
    destruct (Forall2_lookup_r _ _ _ _ _ Aa Hi) as (g & _ & _ & u & Hu & _).
    exists u. by apply (heap_ext_val_of _ _ _ _ Hae). }
  split.
  { apply Forall_forall. intros r Hr. apply list_elem_of_lookup in Hr as [i Hi].
    destruct (Forall2_lookup_r _ _ _ _ _ Ho Hi) as (g & _ & Hg & _). by exists g. }
  split.
  { apply Forall_forall. intros r Hr Hin. apply list_elem_of_lookup in Hr as [i Hi].
    destruct (Forall2_lookup_r _ _ _ _ _ Ho Hi) as (g & _ & _ & Hle).
    apply list_elem_of_lookup in Hin as [j Hj].
    destruct (Forall2_lookup_r _ _ _ _ _ Aa Hj) as (g' & _ & _ & u & Hu & _).
    apply val_of_lt in Hu.
    apply heap_ext_length in Hab, Hcd. lia. }
  split.
  { exists v, sh. split; [by apply (heap_ext_val_of _ _ _ _ Hde)|]. by rewrite Hsh, Hlen. }
  split.
  { destruct idxs; [done|]. simpl in Hlen. lia. }
  split; [by apply (heap_ext_readable _ _ _ Hde)|]. split.
  { exists pvals, x, y. split; [|split; [|split]].
    - eapply Forall2_impl; [exact Hp|]. intros. by apply (heap_ext_val_of _ _ _ _ Hde).
    - by apply (heap_ext_val_of _ _ _ _ Hde).
    - by apply (heap_ext_val_of _ _ _ _ Hde).
    - eapply Forall2_impl; [exact Ho|]. by intros ? ? []. }
  intros Hwf. assert (heap_wf wd) as Hwfd.
  { apply Hcd, Hab, Ha, Hwf. }
  split; [by apply Hde|]. by apply Hdet.
Qed.


(** *** Fresh experiments and repeated training *)

Lemma init_inv p w self w' :
  __init__ p w = (Ok self, w') ->
  exists s ws lm its,
    setup_prefix p w = (Ok s, ws) /\
    create_loss_measure (p_measure p) (s_original_dy_dx s) (p_Q p) ws = (Ok lm, w') /\
    np_arange (p_num_epochs p) (p_val_size p) w' = (Ok its, w') /\
    p_val_size p <> 0 /\ self = experiment_of p s lm its.
Proof.
  rewrite init_split. intros H.
  apply bind_ok_inv in H as (s & ws & Es & H). unfold setup_finish in H.
  apply bind_ok_inv in H as (lm & w1 & El & H).
  apply bind_ok_inv in H as (its & w2 & Ea & H). injection H as <- <-.
  pose proof Ea as Ea'. apply np_arange_inv in Ea' as (Hv & ->). by exists s, ws, lm, its.
Qed.

Lemma create_loss_measure_world m orig q w lm w' :
  create_loss_measure m orig q w = (Ok lm, w') ->
  objs w' = objs w /\ stor w' = stor w /\
  (exists ev, trace w' = trace w ++ ev /\ (ev = [] \/ ev = [EvVar])).
Proof.
  intros [(_ & _ & ->)|(_ & -> & _)]%create_loss_measure_inv.
  - split; [done|]. split; [done|]. exists []. rewrite app_nil_r. auto.
  - split; [done|]. split; [done|]. exists [EvVar]. auto.
Qed.

Lemma val_of_same_heap w w' r :
  objs w' = objs w -> stor w' = stor w -> val_of w' r = val_of w r.
Proof. intros Ho Hs. unfold val_of. by rewrite Ho, Hs. Qed.

Lemma detached_copy_same_heap w w' r :
  objs w' = objs w -> detached_copy w r -> detached_copy w' r.
Proof. intros Ho. unfold detached_copy. by rewrite Ho. Qed.

(** What holds of a freshly constructed experiment. *)
Lemma init_facts p w self w' :
  __init__ p w = (Ok self, w') ->
  wf_experiment self w' /\
  init_type self = p_init_type p /\ num_epochs self = p_num_epochs p /\
  val_size self = p_val_size p /\ history self = [] /\
  losses self = mk_loss_dict [] [] [] /\
  (exists ev, trace w' = trace w ++ [EvDataset (p_data p); EvForward; EvAutograd false] ++ ev /\
              (ev = [] \/ ev = [EvVar])) /\
  (exists pvals x y,
     Forall2 (fun r v => val_of w' r = Some v) (net self) pvals /\
     val_of w' (gt_data self) = Some x /\ val_of w' (gt_onehot_label self) = Some y /\
     Forall2 (fun g r => val_of w' r = Some g) (ce_grad pvals x y) (original_dy_dx self)) /\
  (heap_wf w -> Forall (detached_copy w') (original_dy_dx self)).
Proof.
  intros H. apply init_inv in H as (s & ws & lm & its & Es & El & _ & Hv & ->).
  apply setup_prefix_inv in Es
    as (Hext & Htr & Hds & Hnet & Horig & Hon & (v & sh & Hgv & Hsh) & Hb & Hgo & Hvals & Hdet).
  apply create_loss_measure_world in El as (Ho & Hs & ev & Hev & Hevs).
  assert (Hval : forall r, val_of w' r = val_of ws r) by (intros; by apply val_of_same_heap).
  simpl. split; [|repeat (split; [done|]); split; [|split]].
  - constructor; simpl; try done.
    + eapply Forall_impl; [exact Hnet|]. intros r [x Hx]. exists x. by rewrite Hval.
    + eapply Forall_impl; [exact Horig|]. intros r [x Hx]. exists x. by rewrite Hval.
    + exists v, sh. by rewrite Hval.
    + destruct Hgo as [x Hx]. unfold val_of in Hx. rewrite Ho.
      by destruct (objs ws !! s_gt_onehot_label s).
  - exists ev. split; [|done]. by rewrite Hev, Htr, <- app_assoc.
  - destruct Hvals as (pvals & x & y & H1 & H2 & H3 & H4). exists pvals, x, y.
    rewrite !Hval. split; [|split; [done|split; [done|]]].
    + eapply Forall2_impl; [exact H1|]. intros ? ? ?. by rewrite Hval.
    + eapply Forall2_impl; [exact H4|]. intros ? ? ?. by rewrite Hval.
  - intros Hwf. destruct (Hdet Hwf) as [_ Hd].
    eapply Forall_impl; [exact Hd|]. intros r Hr. by eapply detached_copy_same_heap.
Qed.

(** A call of [train] that returns has appended to [history] and to each
    series of [losses], and changed nothing else of the object. *)
Lemma train_inv self w self' w' :
  train self w = (Ok self', w') ->
  exists h a b c,
    self' = set_history_losses self h
              (mk_loss_dict (d_psnr (losses self) ++ [a]) (d_ssim (losses self) ++ [b])
                            (d_mse (losses self) ++ [c])).
Proof.
  unfold train. intros H.
  apply bind_ok_inv in H as (dd & w1 & _ & H).
  apply bind_ok_inv in H as (gv & w2 & _ & H).
  apply bind_ok_inv in H as (g0 & w3 & _ & H).
  apply bind_ok_inv in H as (st & w4 & _ & H). injection H as <- <-. eauto.
Qed.

Lemma untouched_readable T w w' r : untouched T w w' -> readable w r -> readable w' r.
Proof.
  intros Hu [v Hv]. destruct (untouched_shape _ _ _ _ _ Hu Hv) as (v' & Hv' & _). by exists v'.
Qed.

(** Any number of calls of [train] on a well-formed experiment. *)
Lemma train_n_cases k self w r w' :
  wf_experiment self w -> train_n k self w = (r, w') ->
  untouched (net self) w w' /\
  match r with
  | Ok self' => wf_experiment self' w' /\ same_config self self'
  | Raise e => e = ValueError init_type_msg
  end.
Proof.
  revert self w. induction k as [|k IH]; intros self w Hwf H; simpl in H.
  - injection H as <- <-. split; [apply untouched_refl|]. split; [done|]. by destruct self.
  - destruct (train_cases self w Hwf) as [(Hd & E)|
      (d & self1 & w1 & gv & g0 & snaps & ims & Hd & E & _ & _ & Hu & Hwf1 & _ & _ & Hs)].
    + rewrite (bind_raise _ _ _ _ _ E) in H. injection H as <- <-.
      split; [apply untouched_refl|done].
    + rewrite (bind_ok _ _ _ _ _ E) in H.
      assert (Hnet : net self1 = net self) by (by subst self1).
      destruct (IH _ _ Hwf1 H) as (Hu2 & Hr). rewrite Hnet in Hu2.
      split; [by eapply untouched_trans|].
      destruct r as [self'|e]; [|done]. destruct Hr as (Hwf' & Hc). split; [done|].
      unfold same_config in *. rewrite Hc. subst self1. done.
Qed.


(** *** Counting snapshots *)

Lemma ceil_div_spec n v :
  0 < v -> v * (ceil_div n v - 1) < n <= v * ceil_div n v.
Proof.
  intros Hv. unfold ceil_div.
  pose proof (Z.div_mod (n + v - 1) v ltac:(lia)) as Hdm.
  pose proof (Z.mod_pos_bound (n + v - 1) v Hv) as Hb. lia.
Qed.

Lemma ceil_div_succ (m : nat) v :
  0 < v ->
  ceil_div (Z.of_nat (S m)) v =
  ceil_div (Z.of_nat m) v + (if decide (Z.of_nat m mod v = 0) then 1 else 0).
Proof.
  intros Hv. unfold ceil_div.
  pose proof (Z.div_mod (Z.of_nat m) v ltac:(lia)) as Hdm.
  pose proof (Z.mod_pos_bound (Z.of_nat m) v Hv) as Hb.
  set (a := Z.of_nat m / v) in *. set (r := Z.of_nat m mod v) in *.
  rewrite <- (Z.div_unique (Z.of_nat (S m) + v - 1) v (a + 1) r) by lia.
  case_decide.
  - rewrite <- (Z.div_unique (Z.of_nat m + v - 1) v a (v - 1)) by lia. done.
  - rewrite <- (Z.div_unique (Z.of_nat m + v - 1) v (a + 1) (r - 1)) by lia. lia.
Qed.

Lemma snapshot_count (m : nat) v :
  0 < v ->
  length (filter (fun i : nat => Z.of_nat i mod v = 0) (seq 0 m)) =
  Z.to_nat (ceil_div (Z.of_nat m) v).
Proof.
  intros Hv. induction m as [|m IH].
  - simpl. unfold ceil_div. simpl. rewrite Z.div_small by lia. done.
  - rewrite seq_S, filter_app, length_app, IH, ceil_div_succ by done. simpl.
    pose proof (ceil_div_spec (Z.of_nat m) v Hv).
    rewrite filter_cons, filter_nil. case_decide; simpl; nia.
Qed.

Lemma snapshot_epochs_length n v :
  0 < v -> length (snapshot_epochs n v) = Z.to_nat (ceil_div n v).
Proof.
  intros Hv. unfold snapshot_epochs, range. rewrite snapshot_count by done.
  destruct (decide (0 <= n)) as [Hn|Hn].
  - by rewrite Z2Nat.id.
  - replace (Z.to_nat n) with 0%nat by lia.
    assert (Hq : ceil_div n v <= 0).
    { pose proof (ceil_div_spec n v Hv) as [Hlo _].
      destruct (decide (ceil_div n v <= 0)); [done|]. nia. }
    change (Z.of_nat 0) with 0. unfold ceil_div at 1. rewrite Z.div_small by lia. lia.
Qed.

Lemma snapshot_epochs_head n v :
  0 < n -> v <> 0 -> head (snapshot_epochs n v) = Some 0%nat.
Proof.
  intros Hn Hv. unfold snapshot_epochs, range.
  destruct (Z.to_nat n) as [|m] eqn:E; [lia|]. cbn [seq].
  rewrite filter_cons, decide_True; [done|]. apply Z.mod_0_l. done.
Qed.


Lemma map_m_new_tensor_ok vs rg gf w :
  exists rs w', map_m (fun v => new_tensor v rg gf) vs w = (Ok rs, w').
Proof.
  revert w. induction vs as [|v vs IH]; intros w; simpl; [by eexists _, _|].
  unfold bind at 1. simpl.
  destruct (IH (set_objs (set_stor w (stor w ++ [elems v]))
                  (objs w ++ [mk_tobj (length (stor w)) (shape v) rg gf None])))
    as (rs & w' & E).
  rewrite (bind_ok _ _ _ _ _ E). by eexists _, _.
Qed.

(** *** The claims *)


(** C9. Every completed call of [train] appends exactly one sequence to each
    of the psnr, ssim and mse series of [losses] and leaves the sequences
    already there in place; after [k] completed calls each series is the old
    one followed by [k] new sequences.  Nothing in [train] resets them. *)
Theorem train_appends_losses k self w self' w' :
  train_n k self w = (Ok self', w') ->
  exists ps ss ms,
    length ps = k /\ length ss = k /\ length ms = k /\
    d_psnr (losses self') = d_psnr (losses self) ++ ps /\
    d_ssim (losses self') = d_ssim (losses self) ++ ss /\
    d_mse (losses self') = d_mse (losses self) ++ ms.
Proof.
  revert self w. induction k as [|k IH]; intros self w H; simpl in H.
  - injection H as <- <-. exists [], [], []. by rewrite !app_nil_r.
  - apply bind_ok_inv in H as (self1 & w1 & E & H).
    apply train_inv in E as (h & a & b & c & ->).
    destruct (IH _ _ H) as (ps & ss & ms & H1 & H2 & H3 & H4 & H5 & H6). simpl in *.
    exists (a :: ps), (b :: ss), (c :: ms). simpl.
    rewrite H1, H2, H3, H4, H5, H6, <- !app_assoc. done.
Qed.

(** C10. A configuration whose [data] is none of "CIFAR", "MNIST", "Omniglot"
    and "SVHN" makes [Experiment(params)] fail during setup with the [KeyError]
    of the dictionary lookup in [load_dataset] (so not with the [ValueError]
    of [measure] and [init_type]), before any dataset is opened or any
    gradient computed. *)
Theorem unknown_data_KeyError p w :
  p_data p <> "CIFAR" -> p_data p <> "MNIST" ->
  p_data p <> "Omniglot" -> p_data p <> "SVHN" ->
  exists w', __init__ p w = (Raise (KeyError (p_data p)), w') /\ trace w' = trace w.
Proof.
  intros H1 H2 H3 H4. unfold __init__. unfold bind at 1.
  destruct (LeNet (torch_rng w)) as [vs g].
  destruct (map_m_new_tensor_ok vs true false (set_torch_rng w g)) as (net & wa & Ea).
  rewrite Ea.
  apply (map_m_allocates _ _ _ _ _ _ (new_tensor_allocates true false)) in Ea
    as ((_ & Ht & _) & _).
  unfold bind, load_dataset. unfold dsts. rewrite !lookup_insert_ne, lookup_empty by done.
  simpl. eauto.
Qed.

(** C3 (amended).  [__init__] stores [init_type] without looking at it: a
    configuration that constructs with one [init_type] constructs, in the same
    world, with an unrecognised one.  The [ValueError] is raised by
    [init_data], the first statement of [train]: the call fails at once,
    before the loop, and leaves the world as it was. *)
Theorem unknown_init_type_fails_in_train p w self w1 s :
  valid_init_type s = None ->
  __init__ p w = (Ok self, w1) ->
  __init__ (with_init_type p s) w = (Ok (set_init_type self s), w1) /\
  train (set_init_type self s) w1 = (Raise (ValueError init_type_msg), w1).
Proof.
  intros Hs H. split.
  - apply init_inv in H as (st & ws & lm & its & Es & El & Ea & Hv & ->).
    rewrite init_split.
    change (setup_prefix (with_init_type p s)) with (setup_prefix p).
    rewrite (bind_ok _ _ _ _ _ Es). unfold setup_finish. simpl.
    by rewrite (bind_ok _ _ _ _ _ El), (bind_ok _ _ _ _ _ Ea).
  - unfold train.
    by rewrite (bind_raise _ _ _ _ _ (init_data_invalid (set_init_type self s) w1 Hs)).
Qed.

(** C2 (amended).  A configuration whose [measure] is neither "euclidean" nor
    "gaussian" never constructs.  When the same configuration with measure
    "euclidean" constructs, the failure is the [ValueError] of
    [create_loss_measure]; it comes after the dataset was opened and the
    original gradient computed (one forward pass, one [autograd.grad]), and
    before any evaluation of the objective: the world it leaves is the one of
    the successful construction. *)
Theorem unknown_measure_fails_after_original_grad p w :
  p_measure p <> "euclidean" -> p_measure p <> "gaussian" ->
  (forall self w', __init__ p w <> (Ok self, w')) /\
  (forall self w1,
     __init__ (with_measure p "euclidean") w = (Ok self, w1) ->
     __init__ p w = (Raise (ValueError measure_msg), w1) /\
     trace w1 = trace w ++ [EvDataset (p_data p); EvForward; EvAutograd false]).
Proof.
  intros H1 H2. split.
  - intros self w' H. apply init_inv in H as (st & ws & lm & its & _ & El & _).
    by rewrite create_loss_measure_invalid in El.
  - intros self w1 H. apply init_inv in H as (st & ws & lm & its & Es & El & _ & Hv & ->).
    change (setup_prefix (with_measure p "euclidean")) with (setup_prefix p) in Es.
    simpl in El. unfold create_loss_measure in El. simpl in El. injection El as <- <-.
    split.
    + rewrite init_split, (bind_ok _ _ _ _ _ Es). unfold setup_finish.
      by rewrite (bind_raise _ _ _ _ _ (create_loss_measure_invalid _ _ _ _ H1 H2)).
    + by apply setup_prefix_inv in Es as (_ & -> & _).
Qed.


Lemma train_events_not t :
  forallb is_train_event t = true -> (EvVar ∉ t) /\ (EvAutograd false ∉ t).
Proof.
  induction t as [|e t IH]; simpl.
  - intros _. split; apply not_elem_of_nil.
  - intros [He Ht]%andb_true_iff. destruct (IH Ht) as [H1 H2].
    split; apply not_elem_of_cons; (split; [|done]); intros <-; done.
Qed.

(** C6. With [measure = "gaussian"], [__init__] computes [sigma] once, as
    [torch.var] of the concatenation of the flattened tensors of the original
    gradient list, and the measure it stores is [gaussian_measure(sigma, Q)]
    with the [Q] of the configuration.  No call of [train] computes it again
    or replaces the measure. *)
Theorem gaussian_sigma_once p w self w1 :
  p_measure p = "gaussian" ->
  __init__ p w = (Ok self, w1) ->
  exists ovals,
    Forall2 (fun r v => val_of w1 r = Some v) (original_dy_dx self) ovals /\
    loss_measure self = gaussian_measure (torch_var (concat (map elems ovals))) (p_Q p) /\
    trace w1 = trace w ++ [EvDataset (p_data p); EvForward; EvAutograd false; EvVar] /\
    forall k r w2, train_n k self w1 = (r, w2) ->
      (exists t, trace w2 = trace w1 ++ t /\ EvVar ∉ t) /\
      forall self2, r = Ok self2 -> loss_measure self2 = loss_measure self.
Proof.
  intros Hm H. pose proof (init_facts _ _ _ _ H) as (Hwf & _).
  apply init_inv in H as (s & ws & lm & its & Es & El & _ & _ & ->).
  apply setup_prefix_inv in Es as (_ & Htr & _).
  apply create_loss_measure_inv in El as [(Hm' & _)|(_ & -> & ovals & Ho & ->)].
  { rewrite Hm in Hm'. discriminate. }
  exists ovals. split; [done|]. split; [done|]. split.
  { simpl. by rewrite Htr, <- app_assoc. }
  intros k r w2 Hk. destruct (train_n_cases _ _ _ _ _ Hwf Hk) as (Hu & Hr).
  destruct (ut_trace _ _ _ Hu) as (t & Ht & Hall). split.
  - exists t. split; [done|]. by apply train_events_not.
  - intros self2 ->. destruct Hr as (_ & ->). done.
Qed.



(** C8. [init_data] draws [dummy_data] with the shape of [gt_data] and then
    [dummy_label] with the shape of [gt_onehot_label], both from the sampler
    selected by [init_type]: [torch.rand] (uniform on [0,1)) for "uniform",
    [torch.randn] (standard normal) for "gaussian", [torch.normal] with mean
    0.5 and standard deviation 0.5 for "gaussian_shift"; both tensors have
    [requires_grad] set. *)
Theorem init_data_samples_selected_distribution self w og ol d :
  objs w !! gt_data self = Some og ->
  objs w !! gt_onehot_label self = Some ol ->
  (init_type self = "uniform" /\ d = Uniform01) \/
  (init_type self = "gaussian" /\ d = StandardNormal) \/
  (init_type self = "gaussian_shift" /\ d = Normal (1 # 2) (1 # 2)) ->
  exists dd dl w' od odl,
    init_data self w = (Ok (dd, dl), w') /\
    val_of w' dd =
      Some (mk_tval (o_shape og) (fst (torch_sample d (o_shape og) (torch_rng w)))) /\
    val_of w' dl =
      Some (mk_tval (o_shape ol)
              (fst (torch_sample d (o_shape ol)
                      (snd (torch_sample d (o_shape og) (torch_rng w)))))) /\
    objs w' !! dd = Some od /\ o_requires_grad od = true /\
    objs w' !! dl = Some odl /\ o_requires_grad odl = true /\
    trace w' = trace w ++ [EvSample d; EvSample d].
Proof.
  intros Hg Hl Hd.
  assert (Hv : valid_init_type (init_type self) = Some d).
  { unfold valid_init_type. by destruct Hd as [[-> ->]|[[-> ->]|[-> ->]]]. }
  rewrite (init_data_eq self w og ol d Hg Hl Hv).
  set (w1 := sample_world d (o_shape og) w).
  assert (Hlen : S (length (objs w)) = length (objs w1)).
  { unfold w1. simpl. rewrite length_app. simpl. lia. }
  eexists _, _, _, _, _. split; [done|]. split; [|split; [|split; [|split; [|split; [|split]]]]].
  - apply val_of_sample_world, val_of_sample_world_new.
  - rewrite Hlen. apply val_of_sample_world_new.
  - simpl. apply lookup_app_l_Some. by apply list_lookup_middle.
  - done.
  - rewrite Hlen. simpl. by apply list_lookup_middle.
  - done.
  - simpl. by rewrite <- app_assoc.
Qed.

(** C7. [init_data] reads of the ground truth only the sizes of [gt_data]
    and [gt_onehot_label].  Two experiments with the same [init_type], whose
    ground-truth tensors have the same shapes (their contents, like the rest
    of the two heaps, being arbitrary), started from the same state of the
    torch generator, get the same [dummy_data] and the same [dummy_label] and
    leave the generator in the same state. *)
Theorem init_data_ignores_ground_truth_values self1 w1 self2 w2 og1 ol1 og2 ol2 :
  init_type self1 = init_type self2 ->
  torch_rng w1 = torch_rng w2 ->
  objs w1 !! gt_data self1 = Some og1 -> objs w2 !! gt_data self2 = Some og2 ->
  objs w1 !! gt_onehot_label self1 = Some ol1 ->
  objs w2 !! gt_onehot_label self2 = Some ol2 ->
  o_shape og1 = o_shape og2 -> o_shape ol1 = o_shape ol2 ->
  match init_data self1 w1, init_data self2 w2 with
  | (Ok (d1, l1), w1'), (Ok (d2, l2), w2') =>
      is_Some (val_of w1' d1) /\ is_Some (val_of w1' l1) /\
      val_of w1' d1 = val_of w2' d2 /\ val_of w1' l1 = val_of w2' l2 /\
      torch_rng w1' = torch_rng w2'
  | (Raise e1, _), (Raise e2, _) => e1 = e2
  | _, _ => False
  end.
Proof.
  intros Hit Hrng Hg1 Hg2 Hl1 Hl2 Hsg Hsl.
  destruct (valid_init_type (init_type self1)) as [d|] eqn:Hd.
  - rewrite (init_data_eq self1 w1 og1 ol1 d Hg1 Hl1 Hd).
    rewrite Hit in Hd. rewrite (init_data_eq self2 w2 og2 ol2 d Hg2 Hl2 Hd).
    assert (Hlen : forall w og, S (length (objs w)) = length (objs (sample_world d (o_shape og) w))).
    { intros w og. simpl. rewrite length_app. simpl. lia. }
    rewrite !(val_of_sample_world _ _ _ _ _ (val_of_sample_world_new _ _ _)).
    rewrite (Hlen w1 og1), (Hlen w2 og2), !val_of_sample_world_new. simpl.
    rewrite Hsg, Hsl, Hrng. eauto 10.
  - rewrite (init_data_invalid _ _ Hd). rewrite Hit in Hd.
    by rewrite (init_data_invalid _ _ Hd).
Qed.





(** ** Further properties of the code *)

(** *** Edge cases of the configuration *)

(** X1. With a supported dataset and [batch_size <= 0], construction fails
    with the [RuntimeError] of [torch.cat] on an empty list, in
    [load_ground_truths]: the dataset has been opened, no index drawn and no
    gradient computed. *)
Theorem nonpositive_batch_size_fails p w :
  is_Some (dsts !! p_data p) -> p_batch_size p <= 0 ->
  exists w', __init__ p w = (Raise RuntimeError, w') /\
             trace w' = trace w ++ [EvDataset (p_data p)] /\
             py_rng w' = py_rng w.
Proof.
  intros [c Hc] Hb. rewrite init_split. unfold setup_prefix.
  destruct (map_m_new_tensor_ok (fst (LeNet (torch_rng w))) true false
              (set_torch_rng w (snd (LeNet (torch_rng w))))) as (net & wa & Ea).
  unfold bind at 1 2. rewrite Ea.
  apply (map_m_allocates _ _ _ _ _ _ (new_tensor_allocates true false)) in Ea
    as ((_ & Ht & Hpy & _) & _).
  unfold load_dataset. rewrite Hc. unfold random_choices, range.
  replace (Z.to_nat (p_batch_size p)) with 0%nat by lia.
  eexists. split; [reflexivity|]. simpl. rewrite Ht, Hpy. done.
Qed.

(** X6. With [num_epochs <= 0] the loop of [train] does not run: a call on a
    well-formed experiment with a recognised [init_type] creates the two dummy
    tensors, evaluates the objective not once, leaves [history] as it was and
    appends an empty sequence to each series of [losses]. *)
Theorem train_without_epochs self w d :
  wf_experiment self w -> valid_init_type (init_type self) = Some d ->
  num_epochs self <= 0 ->
  exists w',
    train self w =
      (Ok (set_history_losses self (history self)
             (mk_loss_dict (d_psnr (losses self) ++ [[]]) (d_ssim (losses self) ++ [[]])
                           (d_mse (losses self) ++ [[]]))), w') /\
    trace w' = trace w ++ [EvSample d; EvSample d].
Proof.
  intros Hwf Hd Hn.
  destruct (wf_gt_data _ _ Hwf) as (v & s & Hv & Hsh).
  destruct (readable_obj w (gt_data self)) as [og Hog]; [by exists v|].
  destruct (wf_gt_label _ _ Hwf) as [ol Hol].
  destruct (index_first_ok v _ _ 0%nat Hsh) as [g0 Hg0].
  { pose proof (wf_batch _ _ Hwf). lia. }
  eexists. unfold train.
  rewrite (bind_ok _ _ _ _ _ (init_data_eq self w og ol d Hog Hol Hd)).
  erewrite bind_ok; last first.
  { rewrite get_val_eq.
    by rewrite (val_of_sample_world _ _ _ _ _ (val_of_sample_world _ _ _ _ _ Hv)). }
  erewrite bind_ok by (unfold lift; by rewrite Hg0).
  unfold range. replace (Z.to_nat (num_epochs self)) with 0%nat by lia.
  split; [reflexivity|]. simpl. by rewrite <- app_assoc.
Qed.

(** X7. No call of [train] changes the contents of a tensor that existed
    before it: the classifier's parameters, the ground truth, the original
    gradients and the dummy tensors of earlier calls read after any number of
    calls as they did before. *)
Theorem train_keeps_tensor_contents k self w r w' t v :
  wf_experiment self w -> train_n k self w = (r, w') ->
  val_of w t = Some v -> val_of w' t = Some v.
Proof.
  intros Hwf H Hv. destruct (train_n_cases _ _ _ _ _ Hwf H) as ([_ Hlay Hst _] & _).
  revert Hv. unfold val_of.
  destruct (objs w !! t) as [o|] eqn:Eo; [|done].
  destruct (stor w !! o_storage o) as [e|] eqn:Ee; [|done]. intros [= <-].
  destruct (Hlay _ _ Eo) as (o' & -> & ->). simpl. by rewrite (Hst _ _ Ee).
Qed.

(** X4. [init_data] only allocates: every tensor object and storage of the
    world it starts from is still there unchanged, Python's generator is not
    used, and the two tensors it returns are new, distinct, on two new
    storages of their own, with no gradient yet. *)
Theorem init_data_only_allocates self w og ol d :
  objs w !! gt_data self = Some og ->
  objs w !! gt_onehot_label self = Some ol ->
  valid_init_type (init_type self) = Some d ->
  exists dd dl w' od odl,
    init_data self w = (Ok (dd, dl), w') /\
    heap_ext w w' /\ py_rng w' = py_rng w /\
    (length (objs w) <= dd)%nat /\ (length (objs w) <= dl)%nat /\ dd <> dl /\
    objs w' !! dd = Some od /\ objs w' !! dl = Some odl /\
    (length (stor w) <= o_storage od)%nat /\ (length (stor w) <= o_storage odl)%nat /\
    o_storage od <> o_storage odl /\
    o_grad od = None /\ o_grad odl = None.
Proof.
  intros Hg Hl Hd. rewrite (init_data_eq self w og ol d Hg Hl Hd).
  eexists _, _, _, _, _. split; [reflexivity|]. simpl.
  split; [|split; [done|split; [lia|split; [lia|split; [lia|]]]]].
  - constructor; simpl.
    + eexists. by rewrite <- app_assoc.
    + eexists. by rewrite <- app_assoc.
    + intros Hwf. unfold heap_wf. simpl. rewrite !Forall_app, !Forall_singleton. simpl.
      rewrite !length_app. simpl. split; [split|]; [|lia|lia].
      eapply Forall_impl; [exact Hwf|]. simpl. lia.
  - split; [apply lookup_app_l_Some; by apply list_lookup_middle|].
    split.
    { apply list_lookup_middle. rewrite length_app. simpl. lia. }
    simpl. rewrite length_app. simpl. repeat split; lia.
Qed.

(** *** Invariants kept whatever the outcome *)

Lemma preserves_ret {A} I (a : A) : preserves I (ret a).
Proof. intros w r w' HI [= <- <-]. done. Qed.

Lemma preserves_raise {A} I e : preserves I (@raise _ A e).
Proof. intros w r w' HI [= <- <-]. done. Qed.


Lemma preserves_bind {A B} I (m : M A) (k : A -> M B) :
  preserves I m -> (forall a, preserves I (k a)) -> preserves I (bind m k).
Proof.
  intros Hm Hk w r w' HI. unfold bind.
  destruct (m w) as [[a|e] w1] eqn:E.
  - intros H. eapply Hk; [|exact H]. by eapply Hm.
  - intros [= <- <-]. by eapply Hm.
Qed.

Lemma preserves_for_each {A S} I (l : list A) (body : A -> S -> M S) s :
  (forall x s, x ∈ l -> preserves I (body x s)) -> preserves I (for_each l body s).
Proof.
  revert s. induction l as [|x l IH]; intros s Hb; simpl.
  - apply preserves_ret.
  - apply preserves_bind; [apply Hb; left|].
    intros s'. apply IH. intros y t Hy. apply Hb. by right.
Qed.

Lemma preserves_map_m {A B} I (f : A -> M B) (l : list A) :
  (forall x, preserves I (f x)) -> preserves I (map_m f l).
Proof.
  intros Hf. induction l as [|x l IH]; simpl.
  - apply preserves_ret.
  - apply preserves_bind; [apply Hf|]. intros y.
    apply preserves_bind; [apply IH|]. intros ys. apply preserves_ret.
Qed.


Lemma preserves_get_val I r : preserves I (get_val r).
Proof. intros w x w' HI. rewrite get_val_eq. by intros [= <- <-]. Qed.

(** An evaluation of the objective writes nothing but [.grad] fields. *)
Lemma preserves_accumulate_grad b T r g :
  r ∈ T -> preserves (loop_inv b T []) (accumulate_grad r g).
Proof.
  intros Hr w x w' HI. unfold accumulate_grad, bind, get_obj.
  destruct (objs w !! r) as [o|] eqn:Eo; [|by intros [= <- <-]].
  destruct (o_requires_grad o); intros [= <- <-]; [|done].
  by apply li_put_grad.
Qed.

Lemma preserves_zero_grad b T ps :
  (forall p, p ∈ ps -> p ∈ T) -> preserves (loop_inv b T []) (zero_grad ps).
Proof.
  intros Hps. unfold zero_grad. apply preserves_bind.
  { intros w x w' HI [= <- <-]. by apply li_log. }
  intros _. apply preserves_for_each. intros p u Hp.
  intros w x w' HI. unfold bind, get_obj.
  destruct (objs w !! p) as [o|] eqn:Eo; [|by intros [= <- <-]].
  destruct (o_grad o); intros [= <- <-]; [|done].
  apply li_put_grad; [by apply Hps|done|done].
Qed.

Lemma preserves_closure b self dd dl :
  preserves (loop_inv b (dd :: dl :: net self) []) (closure self dd dl).
Proof.
  unfold closure.
  apply preserves_bind.
  { apply preserves_zero_grad. intros p Hp.
    apply elem_of_cons in Hp as [->|Hp]; [left|].
    apply list_elem_of_singleton in Hp as ->. right. left. }
  intros _. apply preserves_bind; [apply preserves_map_m; intros; apply preserves_get_val|].
  intros pvals. apply preserves_bind; [apply preserves_get_val|]. intros dv.
  apply preserves_bind; [intros w x w' HI [= <- <-]; by apply li_log|]. intros _.
  apply preserves_bind; [apply preserves_get_val|]. intros lv.
  apply preserves_bind; [intros w x w' HI [= <- <-]; by apply li_log|]. intros _.
  apply preserves_bind; [apply preserves_map_m; intros; apply preserves_get_val|].
  intros ovals.
  apply preserves_bind; [intros w x w' HI [= <- <-]; by apply li_log|]. intros _.
  destruct (backward_grads _ _ _ _ _) as [[gd gl] gps].
  apply preserves_bind; [apply preserves_accumulate_grad; left|]. intros _.
  apply preserves_bind; [apply preserves_accumulate_grad; right; left|]. intros _.
  apply preserves_bind; [|intros; apply preserves_ret].
  apply preserves_for_each. intros [p g] u Hpg. simpl.
  apply preserves_accumulate_grad. right. right. by apply elem_of_zip_l in Hpg.
Qed.

(** X5. One evaluation of [closure], whether it returns or raises, changes
    no tensor's contents and neither generator: every storage is as before,
    every tensor object is as before up to its [.grad], and only
    [dummy_data], [dummy_label] and the classifier's parameters can have
    their [.grad] changed. *)
Theorem closure_writes_only_grads self dd dl w r w' :
  closure self dd dl w = (r, w') ->
  stor w' = stor w /\ py_rng w' = py_rng w /\ torch_rng w' = torch_rng w /\
  (forall t, val_of w' t = val_of w t) /\
  (forall i, i ∉ dd :: dl :: net self -> objs w' !! i = objs w !! i) /\
  (forall i o, objs w !! i = Some o ->
               exists g, objs w' !! i = Some (set_grad_of o g)).
Proof.
  intros H.
  pose proof (preserves_closure w self dd dl w r w' (loop_inv_refl _ _ _) H) as HI.
  assert (Hs : stor w' = stor w).
  { apply list_eq. intros j. apply (li_stor _ _ _ _ HI). intros t o Ht.
    by apply elem_of_nil in Ht. }
  split; [done|]. split; [by destruct HI|]. split; [by destruct HI|].
  assert (Hl : forall i o, objs w !! i = Some o ->
                           exists g, objs w' !! i = Some (set_grad_of o g)).
  { intros i o Hi. destruct (li_lookup _ _ _ _ _ _ HI Hi) as (o' & Ho' & E).
    exists (o_grad o'). by rewrite Ho', E at 1. }
  split; [|split; [by destruct HI|done]].
  intros t. unfold val_of. rewrite Hs.
  destruct (objs w !! t) as [o|] eqn:Eo.
  - destruct (Hl _ _ Eo) as (g & ->). done.
  - assert (objs w' !! t = None) as ->; [|done].
    apply lookup_ge_None. apply lookup_ge_None in Eo.
    destruct HI as [Hf _ _ _ _ _ _]. apply Forall2_length in Hf. lia.
Qed.

(** *** The log of [train] *)











(** *** The snapshot epochs *)

Lemma ceil_div_nonneg n v : 0 < v -> 0 <= n -> 0 <= ceil_div n v.
Proof. intros Hv Hn. unfold ceil_div. apply Z.div_pos; lia. Qed.

Lemma snapshot_filter_seq (m : nat) v :
  0 < v ->
  filter (fun i : nat => Z.of_nat i mod v = 0) (seq 0 m) =
  map (fun k : nat => (k * Z.to_nat v)%nat) (seq 0 (Z.to_nat (ceil_div (Z.of_nat m) v))).
Proof.
  intros Hv. induction m as [|m IH].
  - unfold ceil_div. simpl. by rewrite Z.div_small by lia.
  - rewrite seq_S, filter_app, IH, ceil_div_succ by done. simpl.
    pose proof (ceil_div_nonneg (Z.of_nat m) v Hv ltac:(lia)) as Hc.
    rewrite filter_cons, filter_nil. case_decide as Hm.
    + rewrite Z2Nat.inj_add by lia. change (Z.to_nat 1) with 1%nat.
      rewrite Nat.add_1_r, seq_S, map_app. simpl. f_equal. f_equal.
      pose proof (ceil_div_spec (Z.of_nat m) v Hv) as [Hlo Hhi].
      apply Z.mod_divide in Hm as [a Ha]; [|lia].
      assert (ceil_div (Z.of_nat m) v = a) as -> by nia. nia.
    + by rewrite Z.add_0_r, app_nil_r.
Qed.

Lemma snapshot_epochs_eq n v :
  0 < v ->
  snapshot_epochs n v =
  map (fun k : nat => (k * Z.to_nat v)%nat) (seq 0 (Z.to_nat (ceil_div n v))).
Proof.
  intros Hv. unfold snapshot_epochs, range. rewrite snapshot_filter_seq by done.
  destruct (decide (0 <= n)) as [Hn|Hn]; [by rewrite Z2Nat.id|].
  replace (Z.to_nat n) with 0%nat by lia.
  rewrite <- (snapshot_epochs_length n v Hv).
  unfold snapshot_epochs, range. replace (Z.to_nat n) with 0%nat by lia.
  unfold ceil_div. simpl. by rewrite Z.div_small by lia.
Qed.

Lemma neg_div_neg n v : 0 < v -> - ((- n) / v) = ceil_div n v.
Proof.
  intros Hv. pose proof (ceil_div_spec n v Hv) as [Hlo Hhi].
  rewrite <- (Z.div_unique (- n) v (- ceil_div n v) (v * ceil_div n v - n)); lia.
Qed.

Lemma init_iters p w self w1 :
  __init__ p w = (Ok self, w1) -> 0 < p_val_size p ->
  iters self = map Z.of_nat (snapshot_epochs (num_epochs self) (val_size self)).
Proof.
  intros H Hv. apply init_inv in H as (s & ws & lm & its & _ & _ & Ea & _ & ->). simpl.
  unfold np_arange in Ea. destruct (Z.eqb_spec (p_val_size p) 0); [lia|].
  injection Ea as <-.
  rewrite snapshot_epochs_eq, neg_div_neg by done. unfold range.
  rewrite <- list_fmap_compose. apply list_fmap_ext. intros _ k _. simpl. lia.
Qed.

Lemma snapshot_epochs_lookup n v k e :
  0 < v -> snapshot_epochs n v !! k = Some e ->
  Z.of_nat e = Z.of_nat k * v /\ Z.of_nat e < n.
Proof.
  intros Hv Hk. unfold snapshot_epochs, range in Hk.
  pose proof Hk as Hk'. rewrite snapshot_filter_seq in Hk' by done.
  apply list_lookup_fmap_Some in Hk' as (k' & He & Hk').
  apply lookup_seq in Hk' as [-> _]. split; [lia|].
  apply list_elem_of_lookup_2, list_elem_of_filter in Hk as [_ Hin].
  apply elem_of_seq in Hin. lia.
Qed.


(** *** What [train] records *)

Lemma map_m_length {A B} (f : A -> M B) l w ys w' :
  map_m f l w = (Ok ys, w') -> length ys = length l.
Proof.
  revert w ys w'. induction l as [|x l IH]; intros w ys w' H; simpl in H.
  - by injection H as <- _.
  - apply bind_ok_inv in H as (y & w1 & _ & H).
    apply bind_ok_inv in H as (ys' & w2 & E & H). injection H as <- _.
    simpl. by rewrite (IH _ _ _ E).
Qed.

Lemma epoch_history self dd dl gt_im i st w st' w' :
  epoch self dd dl gt_im i st w = (Ok st', w') ->
  exists new, fst st' = fst st ++ new /\
              Forall (fun e => length e = Z.to_nat (batch_size self)) new.
Proof.
  unfold epoch. intros H.
  apply bind_ok_inv in H as ([] & w1 & _ & H).
  destruct (val_size self =? 0); [done|].
  destruct (Z.of_nat i mod val_size self =? 0).
  - apply bind_ok_inv in H as (l & w2 & _ & H).
    apply bind_ok_inv in H as (dv & w3 & _ & H).
    apply bind_ok_inv in H as (ims & w4 & E & H).
    apply bind_ok_inv in H as (d0 & w5 & _ & H). injection H as <- _.
    exists [ims]. split; [done|]. apply Forall_singleton.
    apply map_m_length in E. unfold range in E. by rewrite length_seq in E.
  - injection H as <- _. exists []. by rewrite app_nil_r.
Qed.

Lemma epochs_history self dd dl gt_im l st w st' w' :
  for_each l (epoch self dd dl gt_im) st w = (Ok st', w') ->
  exists new, fst st' = fst st ++ new /\
              Forall (fun e => length e = Z.to_nat (batch_size self)) new.
Proof.
  revert st w. induction l as [|i l IH]; intros st w H; simpl in H.
  - injection H as <- _. exists []. by rewrite app_nil_r.
  - apply bind_ok_inv in H as (st1 & w1 & E1 & H).
    apply epoch_history in E1 as (n1 & H1 & F1). apply IH in H as (n2 & H2 & F2).
    exists (n1 ++ n2). rewrite H2, H1, app_assoc. split; [done|]. by apply Forall_app.
Qed.

Lemma train_history_batches self w self' w' :
  train self w = (Ok self', w') ->
  exists new, self' = set_history_losses self (history self ++ new) (losses self') /\
              Forall (fun e => length e = Z.to_nat (batch_size self)) new.
Proof.
  unfold train. intros E.
  apply bind_ok_inv in E as (dd & w2 & _ & E).
  apply bind_ok_inv in E as (gv & w3 & _ & E).
  apply bind_ok_inv in E as (g0 & w4 & _ & E).
  apply bind_ok_inv in E as (st & w5 & E5 & E). injection E as <- _.
  apply epochs_history in E5 as (n1 & H1 & F1). simpl in H1.
  exists n1. by rewrite H1.
Qed.

(** X9. [history] only grows: after any number of completed calls of
    [train] it is the old history followed by new entries, and every new
    entry is a list of [batch_size] images. *)
Theorem history_grows_by_batches k self w self' w' :
  train_n k self w = (Ok self', w') ->
  exists new, history self' = history self ++ new /\
              Forall (fun e => length e = Z.to_nat (batch_size self)) new.
Proof.
  revert self w. induction k as [|k IH]; intros self w H; simpl in H.
  - injection H as <- _. exists []. by rewrite app_nil_r.
  - apply bind_ok_inv in H as (self1 & w1 & E & H).
    apply train_history_batches in E as (n1 & Hs & F1).
    apply IH in H as (n2 & H2 & F2). rewrite Hs in H2, F2. simpl in H2, F2.
    exists (n1 ++ n2). rewrite H2, app_assoc. split; [done|]. by apply Forall_app.
Qed.

(** *** The ground-truth batch *)

Lemma cat0_elems (vs : list (tval scalar)) v :
  cat0 vs = Ok v ->
  elems v = concat (map elems vs) /\
  Forall (fun u => tail (shape u) = tail (shape v)) vs.
Proof.
  unfold cat0. destruct vs as [|u vs]; [done|].
  destruct (shape u) as [|n s] eqn:Es; [done|].
  destruct (forallb _ _) eqn:Ef; [|done]. intros [= <-]. split; [done|]. simpl.
  pose proof (proj1 (forallb_forall _ _) Ef) as Ef'. apply Forall_forall. intros x Hx.
  apply list_elem_of_In in Hx. specialize (Ef' x Hx).
  apply bool_decide_eq_true in Ef' as [Ht _]. done.
Qed.

Lemma allocated_values {A} (f : A -> tval scalar) (l : list A) rs w vs :
  Forall2 (fun x r => exists v, val_of w r = Some v /\ v = f x) l rs ->
  Forall2 (fun r v => val_of w r = Some v) rs vs ->
  vs = map f l.
Proof.
  intros H1 H2. apply list_eq. intros i. rewrite list_lookup_fmap.
  destruct (l !! i) as [x|] eqn:El; simpl.
  - destruct (Forall2_lookup_l _ _ _ _ _ H1 El) as (r & Hr & v & Hv & ->).
    destruct (Forall2_lookup_l _ _ _ _ _ H2 Hr) as (v' & Hv' & Hvv). congruence.
  - apply lookup_ge_None. apply lookup_ge_None in El.
    apply Forall2_length in H1, H2. lia.
Qed.

Lemma load_ground_truths_values d idxs dev w gd gl go w' :
  load_ground_truths d idxs dev w = (Ok (gd, gl, go), w') ->
  length gl = length idxs /\
  exists gv ov,
    val_of w' gd = Some gv /\
    cat0 (map (fun i => mk_tval (1%nat :: shape (dataset_image d i))
                                (elems (dataset_image d i))) idxs) = Ok gv /\
    val_of w' go = Some ov /\
    cat0 (map (fun i => label_to_onehot (dataset_label d i)) idxs) = Ok ov.
Proof.
  unfold load_ground_truths. intros H.
  apply bind_ok_inv in H as (images & w1 & E1 & H).
  apply bind_ok_inv in H as (labels & w2 & E2 & H).
  apply bind_ok_inv in H as (gd' & w3 & E3 & H).
  apply bind_ok_inv in H as (go' & w4 & E4 & H). injection H as <- <- <- <-.
  pose proof (map_m_length _ _ _ _ _ E2) as Hlen.
  apply (map_m_allocates _ _ _ _ _ _ (format_image_allocates d dev)) in E1 as (S1 & A1).
  apply (map_m_allocates _ _ _ _ _ _ (format_label_allocates d dev)) in E2 as (S2 & A2).
  apply torch_cat_inv in E3 as (vs & v & Hvs & Hcat & S3 & -> & Hv).
  apply torch_cat_inv in E4 as (vs' & v' & Hvs' & Hcat' & S4 & -> & Hv').
  split; [done|]. exists v, v'.
  split; [by apply (heap_step_val_of _ _ _ _ S4)|]. split.
  - rewrite <- Hcat. f_equal. symmetry.
    eapply (allocated_values _ idxs images w2); [|exact Hvs].
    eapply Forall2_impl; [exact A1|]. simpl. intros i r (Hle & u & Hu & ->).
    eexists. split; [|done]. by apply (heap_step_val_of _ _ _ _ S2).
  - split; [done|]. rewrite <- Hcat'. f_equal. symmetry.
    eapply (allocated_values _ idxs labels w3); [|exact Hvs'].
    eapply Forall2_impl; [exact A2|]. simpl. intros i r (Hle & u & Hu & ->).
    eexists. split; [|done]. by apply (heap_step_val_of _ _ _ _ S3).
Qed.

Lemma init_indices_length p w self w' :
  __init__ p w = (Ok self, w') -> length (indices self) = Z.to_nat (batch_size self).
Proof.
  intros H. apply init_inv in H as (s & ws & lm & its & Es & _ & _ & _ & ->). simpl.
  unfold setup_prefix in Es.
  apply bind_ok_inv in Es as (net & wa & Ea & H).
  apply bind_ok_inv in H as (d & wb & Eb & H).
  apply bind_ok_inv in H as (idxs & wc & Ec & H).
  apply bind_ok_inv in H as (gts & wd & Ed & H).
  apply bind_ok_inv in H as (orig & we & Ee & H). injection H as <- <-. simpl.
  by apply random_choices_inv in Ec as (Hlen & _).
Qed.

(** X2. The ground-truth batch of a constructed experiment: [indices] holds
    [batch_size] drawn indices, [gt_label] one tensor per index, and
    [gt_data] and [gt_onehot_label] hold, in the order of [indices], the
    elements of the transformed images and of the one-hot labels of the
    dataset at those indices; each image has the shape of one row of
    [gt_data]. *)
Theorem ground_truth_batch_follows_indices p w self w' :
  __init__ p w = (Ok self, w') ->
  length (indices self) = Z.to_nat (batch_size self) /\
  length (gt_label self) = length (indices self) /\
  exists gv ov,
    val_of w' (gt_data self) = Some gv /\
    elems gv = concat (map (fun i => elems (dataset_image (dst self) i)) (indices self)) /\
    Forall (fun i => shape (dataset_image (dst self) i) = tail (shape gv)) (indices self) /\
    val_of w' (gt_onehot_label self) = Some ov /\
    elems ov = concat (map (fun i => elems (label_to_onehot (dataset_label (dst self) i)))
                           (indices self)).
Proof.
  intros H. apply init_inv in H as (s & ws & lm & its & Es & El & _ & _ & ->). simpl.
  apply create_loss_measure_world in El as (Ho & Hs & _).
  assert (Hval : forall r, val_of w' r = val_of ws r) by (intros; by apply val_of_same_heap).
  unfold setup_prefix in Es.
  apply bind_ok_inv in Es as (net & wa & Ea & H).
  apply bind_ok_inv in H as (d & wb & Eb & H).
  apply bind_ok_inv in H as (idxs & wc & Ec & H).
  apply bind_ok_inv in H as ([[gd gl] go] & wd & Ed & H). simpl in H.
  apply bind_ok_inv in H as (orig & we & Ee & H). injection H as <- <-. simpl.
  apply random_choices_inv in Ec as (Hlen & _).
  apply load_ground_truths_values in Ed as (Hgl & gv & ov & Hgv & Hcg & Hov & Hco).
  apply compute_original_grad_inv in Ee as (_ & _ & _ & _ & _ & _ & Se & _).
  assert (Hde : heap_ext wd we).
  { destruct Se as [Se _]. eapply heap_ext_trans; [|exact Se]. by constructor. }
  split; [done|]. split; [done|]. exists gv, ov. rewrite !Hval.
  apply cat0_elems in Hcg as (Heg & Hsg). apply cat0_elems in Hco as (Heo & _).
  split; [by apply (heap_ext_val_of _ _ _ _ Hde)|]. split.
  { rewrite Heg, map_map. done. }
  split.
  { apply Forall_forall. intros i Hi.
    rewrite Forall_forall in Hsg. symmetry.
    rewrite <- (Hsg (mk_tval (1%nat :: shape (dataset_image d i)) (elems (dataset_image d i)))).
    - done.
    - apply list_elem_of_fmap. by exists i. }
  split; [by apply (heap_ext_val_of _ _ _ _ Hde)|].
  by rewrite Heo, map_map.
Qed.

(** *** [make_reconstruction_plots] *)

Ltac p_unfold :=
  unfold show_reconstruction, show_ground_truth, show_reconstruction_1,
    show_ground_truth_1, axes_i_j, axes_i, imshow, set_title, axis_off,
    axes_subscript, subscript, load_i, load_j, store_i, store_j, emit, p_bind, p_ret,
    p_raise, range.

Ltac p_step :=
  first [ rewrite list_lookup_fmap
        | rewrite lookup_seq_lt by lia
        | progress simpl ].

Lemma show_reconstruction_run self nrows i j hj im vi vj d :
  vi = Some i -> vj = Some j -> (i < Z.to_nat nrows)%nat ->
  history self !! j = Some hj -> hj !! i = Some im ->
  show_reconstruction self
    (Axes2D (map (fun r => map (pair r) (seq 0 (length (history self) + 1))) (range nrows)))
    (mk_frame vi vj d) =
  inr (tt, mk_frame vi vj
             (d ++ cell i j (Reconstruction im) (It (Z.of_nat j * val_size self)))).
Proof.
  intros -> -> Hi Hj Him. pose proof (lookup_lt_Some _ _ _ Hj) as Hlt.
  p_unfold. repeat p_step. rewrite Hj. simpl. rewrite Him. simpl.
  repeat p_step. by rewrite Nat.add_0_r, <- !app_assoc.
Qed.

Lemma show_ground_truth_run self nrows i j idx vi vj d :
  vi = Some i -> vj = Some j -> (i < Z.to_nat nrows)%nat ->
  S j = length (history self) -> indices self !! i = Some idx ->
  show_ground_truth self
    (Axes2D (map (fun r => map (pair r) (seq 0 (length (history self) + 1))) (range nrows)))
    (mk_frame vi vj d) =
  inr (tt, mk_frame vi vj (d ++ ground_truth_cell self i)).
Proof.
  intros -> -> Hi Hj Hidx. unfold ground_truth_cell. rewrite Hidx.
  p_unfold. repeat p_step. rewrite Hidx. simpl.
  repeat p_step. rewrite Hidx. simpl. repeat p_step.
  replace (j + 1)%nat with (length (history self)) by lia. by rewrite <- !app_assoc.
Qed.

Lemma show_reconstruction_1_run self i hi im vi vj d :
  vi = Some i -> history self !! i = Some hi -> hi !! 0%nat = Some im ->
  show_reconstruction_1 self (Axes1D (map (pair 0%nat) (seq 0 (length (history self) + 1))))
    (mk_frame vi vj d) =
  inr (tt, mk_frame vi vj
             (d ++ cell 0 i (Reconstruction im) (It (Z.of_nat i * val_size self)))).
Proof.
  intros -> Hi Him. pose proof (lookup_lt_Some _ _ _ Hi) as Hlt.
  p_unfold. repeat p_step. rewrite Hi. simpl. rewrite Him. simpl.
  repeat p_step. by rewrite Nat.add_0_r, <- !app_assoc.
Qed.

Lemma show_ground_truth_1_run self i idx vi vj d :
  vi = Some i -> S i = length (history self) -> indices self !! 0%nat = Some idx ->
  show_ground_truth_1 self (Axes1D (map (pair 0%nat) (seq 0 (length (history self) + 1))))
    (mk_frame vi vj d) =
  inr (tt, mk_frame vi vj (d ++ ground_truth_cell self 0)).
Proof.
  intros -> Hi Hidx. unfold ground_truth_cell. rewrite Hidx.
  p_unfold. rewrite Hidx. repeat p_step.
  replace (i + 1)%nat with (length (history self)) by lia. by rewrite <- !app_assoc.
Qed.

Lemma after_loop_cons x l v : after_loop (x :: l) v = after_loop l (Some x).
Proof.
  unfold after_loop. destruct l as [|y l]; [done|].
  rewrite last_cons. by destruct (last (y :: l)).
Qed.

Lemma p_for_i_cons x l (body : P unit) vi vj d :
  p_for store_i (x :: l) body (mk_frame vi vj d) =
  match body (mk_frame (Some x) vj d) with
  | inr (_, f') => p_for store_i l body f'
  | inl e => inl e
  end.
Proof. reflexivity. Qed.

Lemma p_for_j_cons x l (body : P unit) vi vj d :
  p_for store_j (x :: l) body (mk_frame vi vj d) =
  match body (mk_frame vi (Some x) d) with
  | inr (_, f') => p_for store_j l body f'
  | inl e => inl e
  end.
Proof. reflexivity. Qed.

(** A loop whose body only draws. *)
Lemma p_for_i_run (body : P unit) (out : nat -> list draw) (I Q : option nat -> Prop) l :
  (forall x vj d, x ∈ l -> I vj ->
     exists vj', body (mk_frame (Some x) vj d) = inr (tt, mk_frame (Some x) vj' (d ++ out x)) /\
                 Q vj') ->
  (forall v, Q v -> I v) ->
  forall vi vj d, I vj ->
    exists vj', p_for store_i l body (mk_frame vi vj d) =
                inr (tt, mk_frame (after_loop l vi) vj' (d ++ flat_map out l)) /\
                (l = [] -> vj' = vj) /\ (l <> [] -> Q vj').
Proof.
  intros Hb HQ. induction l as [|x l IH]; intros vi vj d HI.
  - exists vj. simpl. unfold p_ret. by rewrite app_nil_r.
  - destruct (Hb x vj d) as (vj1 & E1 & HQ1); [left|done|].
    destruct (IH (fun y vj d Hy => Hb y vj d (list_elem_of_further _ _ _ Hy))
                 (Some x) vj1 (d ++ out x) (HQ _ HQ1)) as (vj2 & E2 & Hnil & Hcons).
    exists vj2. rewrite p_for_i_cons, E1, E2, after_loop_cons, <- app_assoc.
    split; [done|]. split; [done|]. intros _.
    destruct l as [|y l]; [by rewrite Hnil|]. by apply Hcons.
Qed.

Lemma p_for_j_run (body : P unit) (out : nat -> list draw) vi l :
  (forall x d, x ∈ l ->
     body (mk_frame vi (Some x) d) = inr (tt, mk_frame vi (Some x) (d ++ out x))) ->
  forall vj d,
    p_for store_j l body (mk_frame vi vj d) =
    inr (tt, mk_frame vi (after_loop l vj) (d ++ flat_map out l)).
Proof.
  induction l as [|x l IH]; intros Hb vj d.
  - simpl. unfold p_ret. by rewrite app_nil_r.
  - rewrite p_for_j_cons, Hb by left. rewrite IH by (intros; apply Hb; by right).
    by rewrite after_loop_cons, <- app_assoc.
Qed.

Lemma range_of_nat n : range (Z.of_nat n) = seq 0 n.
Proof. unfold range. by rewrite Nat2Z.id. Qed.

Lemma after_loop_seq n v : (0 < n)%nat -> after_loop (seq 0 n) v = Some (n - 1)%nat.
Proof.
  intros Hn. destruct n as [|m]; [lia|]. unfold after_loop.
  rewrite seq_S, last_snoc. simpl. f_equal. lia.
Qed.

Lemma p_bind_run {A B} (m : P A) (k : A -> P B) f a f' :
  m f = inr (a, f') -> p_bind m k f = k a f'.
Proof. intros E. unfold p_bind. by rewrite E. Qed.

Lemma p_bind_raise {A B} (m : P A) (k : A -> P B) f e :
  m f = inl e -> p_bind m k f = inl e.
Proof. intros E. unfold p_bind. by rewrite E. Qed.

Lemma reconstruction_cells_eq self i :
  (i < Z.to_nat (batch_size self))%nat ->
  Forall (fun e => length e = Z.to_nat (batch_size self)) (history self) ->
  forall j, (j < length (history self))%nat ->
  exists hj im, history self !! j = Some hj /\ hj !! i = Some im /\
    match history self !! j ≫= (.!! i) with
    | Some im => cell i j (Reconstruction im) (It (Z.of_nat j * val_size self))
    | None => []
    end = cell i j (Reconstruction im) (It (Z.of_nat j * val_size self)).
Proof.
  intros Hi Hall j Hj.
  destruct (lookup_lt_is_Some_2 (history self) j Hj) as [hj Hhj].
  pose proof (Forall_lookup_1 _ _ _ _ Hall Hhj) as Hlen. simpl in Hlen.
  destruct (lookup_lt_is_Some_2 hj i) as [im Him]; [lia|].
  exists hj, im. rewrite Hhj. simpl. by rewrite Him.
Qed.

(** On a plottable experiment the method returns, having drawn [figure]. *)
Lemma plot_plottable self : plottable self -> plot self = inr (figure self).
Proof.
  intros [Hb Hidx Hne Hall]. unfold plot, make_reconstruction_plots, figure.
  assert (Hn : (0 < length (history self))%nat).
  { destruct (history self); [done|simpl; lia]. }
  rewrite !range_of_nat.
  destruct (Z.ltb_spec 1 (batch_size self)) as [Hgt|Hle].
  - (* a grid with several rows *)
    erewrite p_bind_run; cycle 1.
    { unfold subplots.
      destruct (Z.leb_spec (batch_size self) 0); [lia|].
      destruct (Nat.eqb_spec (length (history self) + 1) 0); [lia|]. simpl.
      destruct (Z.eqb_spec (batch_size self) 1); [lia|]. simpl.
      destruct (Nat.eqb_spec (length (history self) + 1) 1); [lia|]. reflexivity. }
    destruct (p_for_i_run
                (p_for store_j (seq 0 (length (history self)))
                   (show_reconstruction self
                      (Axes2D (map (fun r => map (pair r) (seq 0 (length (history self) + 1)))
                                   (range (batch_size self))))))
                (reconstruction_cells self) (fun _ => True)
                (fun v => v = Some (length (history self) - 1)%nat)
                (range (batch_size self)))
      with (vi := @None nat) (vj := @None nat) (d := @nil draw)
      as (vj1 & E1 & _ & Hvj1); [|done|done|].
    { intros x vj d Hx _. apply list_elem_of_In in Hx. apply in_seq in Hx.
      eexists. split; [|by apply after_loop_seq].
      rewrite (p_for_j_run _ (fun j => match history self !! j ≫= (.!! x) with
                                       | Some im => cell x j (Reconstruction im)
                                                         (It (Z.of_nat j * val_size self))
                                       | None => []
                                       end)); [done|].
      intros j d' Hj.
      apply list_elem_of_In in Hj. apply in_seq in Hj.
      destruct (reconstruction_cells_eq self x ltac:(lia) Hall j ltac:(lia))
        as (hj & im & H1 & H2 & ->).
      apply (show_reconstruction_run self (batch_size self) x j hj im); try done. lia. }
    assert (exists f2, p_bind
        (p_for store_i (range (batch_size self))
           (p_for store_j (seq 0 (length (history self)))
              (show_reconstruction self
                 (Axes2D (map (fun r => map (pair r) (seq 0 (length (history self) + 1)))
                              (range (batch_size self)))))))
        (fun _ => p_for store_i (range (batch_size self))
           (show_ground_truth self
              (Axes2D (map (fun r => map (pair r) (seq 0 (length (history self) + 1)))
                           (range (batch_size self))))))
        (mk_frame None None []) = inr (tt, f2) /\
      drawn f2 = flat_map (reconstruction_cells self) (range (batch_size self)) ++
                 flat_map (ground_truth_cell self) (range (batch_size self)))
      as (f2 & E2 & Hd2).
    { erewrite p_bind_run; [|exact E1].
      destruct (p_for_i_run
                  (show_ground_truth self
                     (Axes2D (map (fun r => map (pair r) (seq 0 (length (history self) + 1)))
                                  (range (batch_size self)))))
                  (ground_truth_cell self)
                  (fun v => v = Some (length (history self) - 1)%nat)
                  (fun v => v = Some (length (history self) - 1)%nat)
                  (range (batch_size self)))
        with (vi := after_loop (range (batch_size self)) None) (vj := vj1)
             (d := [] ++ flat_map (reconstruction_cells self) (range (batch_size self)))
        as (vj2 & E2 & _); [|done| |eexists; split; [exact E2|done]].
      - intros x vj d Hx ->. apply list_elem_of_In in Hx. apply in_seq in Hx.
        exists (Some (length (history self) - 1)%nat). split; [|done].
        destruct (lookup_lt_is_Some_2 (indices self) x) as [idx Hix]; [lia|].
        apply (show_ground_truth_run self (batch_size self) x
                 (length (history self) - 1) idx); try done; lia.
      - apply Hvj1. unfold range. destruct (Z.to_nat (batch_size self)) eqn:E; [lia|done]. }
    erewrite p_bind_run; [|exact E2].
    unfold emit, p_bind. simpl. by rewrite Hd2, <- !app_assoc.
  - (* a single row *)
    assert (Hb1 : batch_size self = 1) by lia.
    erewrite p_bind_run; cycle 1.
    { unfold subplots. rewrite Hb1. simpl.
      destruct (Nat.eqb_spec (length (history self) + 1) 0); [lia|]. simpl.
      destruct (Nat.eqb_spec (length (history self) + 1) 1); [lia|]. reflexivity. }
    destruct (p_for_i_run
                (show_reconstruction_1 self
                   (Axes1D (map (pair 0%nat) (seq 0 (length (history self) + 1)))))
                (fun j => match history self !! j ≫= (.!! 0%nat) with
                          | Some im => cell 0 j (Reconstruction im)
                                            (It (Z.of_nat j * val_size self))
                          | None => []
                          end)
                (fun _ => True) (fun _ => True) (seq 0 (length (history self))))
      with (vi := @None nat) (vj := @None nat) (d := @nil draw)
      as (vj1 & E1 & _); [|done|done|].
    { intros x vj d Hx _. exists vj. split; [|done].
      apply list_elem_of_In in Hx. apply in_seq in Hx.
      destruct (reconstruction_cells_eq self 0%nat ltac:(lia) Hall x ltac:(lia))
        as (hj & im & H1 & H2 & ->).
      by apply (show_reconstruction_1_run self x hj im). }
    rewrite after_loop_seq in E1 by done.
    destruct (lookup_lt_is_Some_2 (indices self) 0%nat) as [idx Hix]; [lia|].
    erewrite p_bind_run; cycle 1.
    { erewrite p_bind_run; [|exact E1].
      apply (show_ground_truth_1_run self (length (history self) - 1) idx); try done. lia. }
    unfold emit, p_bind. simpl. unfold reconstruction_cells. by rewrite <- !app_assoc.
Qed.

(** Without a snapshot the loop variable read after the loops is unbound. *)
Lemma p_for_i_skip l (b : P unit) vi vj d :
  p_for store_i l (p_for store_j [] b) (mk_frame vi vj d) =
  inr (tt, mk_frame (after_loop l vi) vj d).
Proof.
  revert vi. induction l as [|x l IH]; intros vi; [done|].
  rewrite p_for_i_cons. simpl. unfold p_ret at 1. by rewrite IH, after_loop_cons.
Qed.

Lemma plot_without_history self :
  0 < batch_size self -> history self = [] ->
  plot self = inl (UnboundLocalError (if 1 <? batch_size self then "j" else "i")).
Proof.
  intros Hb Hh. unfold plot, make_reconstruction_plots. rewrite Hh.
  change (length (@nil (list pil_image)) + 1)%nat with 1%nat.
  change (range (Z.of_nat (length (@nil (list pil_image))))) with (@nil nat).
  destruct (Z.ltb_spec 1 (batch_size self)) as [Hgt|Hle].
  - erewrite p_bind_run; cycle 1.
    { unfold subplots. destruct (Z.leb_spec (batch_size self) 0); [lia|]. simpl.
      destruct (Z.eqb_spec (batch_size self) 1); [lia|]. reflexivity. }
    erewrite p_bind_raise; [reflexivity|].
    erewrite p_bind_run; [|apply p_for_i_skip].
    unfold range. destruct (Z.to_nat (batch_size self)) as [|m] eqn:Em; [lia|].
    rewrite <- cons_seq, p_for_i_cons. simpl.
    unfold show_ground_truth, axes_i_j, axes_subscript, subscript, load_i, load_j, p_bind.
    simpl. done.
  - assert (batch_size self = 1) as Hb1 by lia.
    erewrite p_bind_run; cycle 1.
    { unfold subplots. rewrite Hb1. reflexivity. }
    erewrite p_bind_raise; [reflexivity|].
    erewrite p_bind_run; [|reflexivity].
    unfold show_ground_truth_1, axes_i, axes_subscript, subscript, load_i, load_j, p_bind.
    simpl. done.
Qed.

(** *** Experiments as [__init__] and [train] leave them *)

Lemma train_history self w self' w' :
  wf_experiment self w -> train self w = (Ok self', w') ->
  wf_experiment self' w' /\
  exists new, self' = set_history_losses self (history self ++ new) (losses self') /\
    length new = length (snapshot_epochs (num_epochs self) (val_size self)) /\
    Forall (fun e => length e = Z.to_nat (batch_size self)) new.
Proof.
  intros Hwf H.
  destruct (train_cases self w Hwf) as [(_ & E)|
    (d & s' & w2 & gv & g0 & snaps & ims & _ & E & _ & _ & _ & Hwf' & Hl & _ & Hs)];
    rewrite E in H; [done|].
  injection H as <- <-. split; [done|].
  destruct (train_history_batches _ _ _ _ E) as (new & Hnew & Hall).
  exists new. split; [done|]. split; [|done].
  assert (history s' = history self ++ snaps) as H1 by (by rewrite Hs).
  assert (history s' = history self ++ new) as H2 by (by rewrite Hnew).
  rewrite H1 in H2. apply app_inv_head in H2. by rewrite <- H2.
Qed.

Lemma train_n_history k self w self' w' :
  wf_experiment self w -> train_n k self w = (Ok self', w') ->
  exists new, self' = set_history_losses self (history self ++ new) (losses self') /\
    length new = (k * length (snapshot_epochs (num_epochs self) (val_size self)))%nat /\
    Forall (fun e => length e = Z.to_nat (batch_size self)) new.
Proof.
  revert self w. induction k as [|k IH]; intros self w Hwf H; simpl in H.
  - injection H as <- _. exists []. rewrite app_nil_r. by destruct self.
  - apply bind_ok_inv in H as (s1 & w1 & E & H).
    destruct (train_history _ _ _ _ Hwf E) as (Hwf1 & n1 & H1 & L1 & F1).
    destruct (IH _ _ Hwf1 H) as (n2 & H2 & L2 & F2).
    rewrite H1 in H2, L2, F2. simpl in H2, L2, F2.
    exists (n1 ++ n2). rewrite length_app, L1, L2, app_assoc.
    split; [exact H2|]. split; [lia|]. by apply Forall_app.
Qed.

Lemma init_train_n p w self w1 k self' w2 :
  __init__ p w = (Ok self, w1) -> train_n k self w1 = (Ok self', w2) ->
  batch_size self' = p_batch_size p /\ val_size self' = p_val_size p /\
  indices self' = indices self /\ dst self' = dst self /\ iters self' = iters self /\
  0 < batch_size self' /\
  length (indices self') = Z.to_nat (batch_size self') /\
  length (history self') =
    (k * length (snapshot_epochs (p_num_epochs p) (p_val_size p)))%nat /\
  Forall (fun e => length e = Z.to_nat (batch_size self')) (history self').
Proof.
  intros Hi Ht. pose proof (init_indices_length _ _ _ _ Hi) as Hlen.
  pose proof (init_inv _ _ _ _ Hi) as (s & ws & lm & its & _ & _ & _ & _ & Hself).
  assert (batch_size self = p_batch_size p) as Hbs by (by rewrite Hself).
  destruct (init_facts _ _ _ _ Hi) as (Hwf & _ & Hne & Hvs & Hh & _).
  destruct (train_n_history _ _ _ _ _ Hwf Ht) as (new & Hs & Hl & Hall).
  rewrite Hh, Hne, Hvs in *. simpl in Hs.
  pose proof (wf_batch _ _ Hwf) as Hb.
  rewrite Hs. simpl. rewrite Hbs in *. done.
Qed.

(** *** What the figure holds *)

Lemma length_flat_map_const {A B} (f : A -> list B) l k :
  (forall x, In x l -> length (f x) = k) -> length (flat_map f l) = (k * length l)%nat.
Proof.
  induction l as [|x l IH]; intros H; simpl; [lia|].
  rewrite length_app, (H x (or_introl eq_refl)), IH; [lia|].
  intros y Hy. apply H. by right.
Qed.

Lemma in_reconstruction_cells self i j hj im :
  history self !! j = Some hj -> hj !! i = Some im ->
  In (Imshow i j (Reconstruction im)) (reconstruction_cells self i) /\
  In (SetTitle i j (It (Z.of_nat j * val_size self))) (reconstruction_cells self i).
Proof.
  intros Hj Hi. unfold reconstruction_cells. rewrite !in_flat_map.
  pose proof (lookup_lt_Some _ _ _ Hj) as Hlt.
  split; exists j; (split; [apply in_seq; lia|]); rewrite Hj; simpl; rewrite Hi; simpl; auto.
Qed.

Lemma in_figure_reconstruction self i j hj im :
  plottable self -> history self !! j = Some hj -> hj !! i = Some im ->
  In (Imshow i j (Reconstruction im)) (figure self) /\
  In (SetTitle i j (It (Z.of_nat j * val_size self))) (figure self).
Proof.
  intros [Hb Hidx Hne Hall] Hj Hi.
  pose proof (Forall_lookup_1 _ _ _ _ Hall Hj) as Hlen. simpl in Hlen.
  pose proof (lookup_lt_Some _ _ _ Hi) as Hlt.
  destruct (in_reconstruction_cells self i j hj im Hj Hi) as [H1 H2].
  unfold figure. destruct (Z.ltb_spec 1 (batch_size self)) as [Hgt|Hle].
  - split; apply in_or_app; left; apply in_or_app; left; apply in_flat_map;
      exists i; (split; [apply in_seq; lia|done]).
  - assert (i = 0%nat) as -> by lia.
    split; apply in_or_app; left; apply in_or_app; by left.
Qed.

Lemma in_figure_ground_truth self i idx :
  plottable self -> indices self !! i = Some idx ->
  In (Imshow i (length (history self)) (DatasetPicture (dst self) idx)) (figure self) /\
  In (SetTitle i (length (history self)) (GroundTruthImage idx)) (figure self).
Proof.
  intros [Hb Hidx Hne Hall] Hi. pose proof (lookup_lt_Some _ _ _ Hi) as Hlt.
  assert (In (Imshow i (length (history self)) (DatasetPicture (dst self) idx))
             (ground_truth_cell self i) /\
          In (SetTitle i (length (history self)) (GroundTruthImage idx))
             (ground_truth_cell self i)) as [H1 H2].
  { unfold ground_truth_cell. rewrite Hi. simpl. auto. }
  unfold figure. destruct (Z.ltb_spec 1 (batch_size self)) as [Hgt|Hle].
  - split; apply in_or_app; left; apply in_or_app; right; apply in_flat_map;
      exists i; (split; [apply in_seq; lia|done]).
  - assert (i = 0%nat) as -> by lia.
    split; apply in_or_app; left; apply in_or_app; by right.
Qed.

Lemma length_reconstruction_cells self i :
  plottable self -> (i < Z.to_nat (batch_size self))%nat ->
  length (reconstruction_cells self i) = (3 * length (history self))%nat.
Proof.
  intros [Hb Hidx Hne Hall] Hi. unfold reconstruction_cells.
  rewrite (length_flat_map_const _ _ 3), length_seq; [done|].
  intros j Hj. apply in_seq in Hj.
  by destruct (reconstruction_cells_eq self i Hi Hall j ltac:(lia)) as (hj & im & _ & _ & ->).
Qed.

Lemma length_ground_truth_cell self i :
  plottable self -> (i < Z.to_nat (batch_size self))%nat ->
  length (ground_truth_cell self i) = 3%nat.
Proof.
  intros [Hb Hidx Hne Hall] Hi. unfold ground_truth_cell.
  destruct (lookup_lt_is_Some_2 (indices self) i) as [idx ->]; [lia|done].
Qed.

Lemma length_figure self :
  plottable self ->
  length (figure self) =
  (3 * Z.to_nat (batch_size self) * (length (history self) + 1) + 2)%nat.
Proof.
  intros Hp. pose proof (pl_batch _ Hp) as Hb. unfold figure.
  rewrite length_app. simpl. destruct (Z.ltb_spec 1 (batch_size self)) as [Hgt|Hle].
  - rewrite length_app.
    rewrite (length_flat_map_const _ _ (3 * length (history self))).
    2:{ intros i Hi. apply in_seq in Hi. apply length_reconstruction_cells; [done|lia]. }
    rewrite (length_flat_map_const _ _ 3).
    2:{ intros i Hi. apply in_seq in Hi. apply length_ground_truth_cell; [done|lia]. }
    unfold range. rewrite length_seq. lia.
  - rewrite length_app, length_reconstruction_cells, length_ground_truth_cell by (done || lia).
    replace (Z.to_nat (batch_size self)) with 1%nat by lia. lia.
Qed.

Lemma in_reconstruction_cells_title self r i j e :
  In (SetTitle i j (It e)) (reconstruction_cells self r) ->
  (j < length (history self))%nat /\ e = Z.of_nat j * val_size self.
Proof.
  unfold reconstruction_cells. intros (j0 & Hj0 & Hin)%in_flat_map.
  apply in_seq in Hj0. destruct (history self !! j0 ≫= (.!! r)); [|done].
  simpl in Hin. destruct Hin as [H|[H|[H|[]]]]; try discriminate H.
  injection H as <- <- <-. split; [lia|done].
Qed.

Lemma in_figure_title self i j e :
  In (SetTitle i j (It e)) (figure self) ->
  (j < length (history self))%nat /\ e = Z.of_nat j * val_size self.
Proof.
  assert (Hg : forall r, ~ In (SetTitle i j (It e)) (ground_truth_cell self r)).
  { intros r. unfold ground_truth_cell. destruct (indices self !! r); [|by intros []].
    simpl. intros [H|[H|[H|[]]]]; discriminate H. }
  unfold figure. intros [H|H]%in_app_or.
  2:{ simpl in H. destruct H as [H|[H|[]]]; discriminate H. }
  destruct (1 <? batch_size self); apply in_app_or in H as [H|H].
  - apply in_flat_map in H as (r & _ & H). by eapply in_reconstruction_cells_title.
  - apply in_flat_map in H as (r & _ & H). by apply Hg in H.
  - by eapply in_reconstruction_cells_title.
  - by apply Hg in H.
Qed.

(** *** The plots of an experiment *)

(** X10. Plotting needs a snapshot: on an experiment that was constructed and
    then never trained, or trained only with [num_epochs <= 0], the method
    raises [UnboundLocalError], for the loop variable [j] (or [i] when the
    batch holds one image) that no iteration has bound; nothing is shown. *)
Theorem plot_before_any_snapshot p w self w1 k self' w2 :
  __init__ p w = (Ok self, w1) -> train_n k self w1 = (Ok self', w2) ->
  k = 0%nat \/ p_num_epochs p <= 0 ->
  plot self' = inl (UnboundLocalError (if 1 <? p_batch_size p then "j" else "i")).
Proof.
  intros Hi Ht Hk.
  destruct (init_train_n _ _ _ _ _ _ _ Hi Ht) as (Hbs & _ & _ & _ & _ & Hb & _ & Hl & _).
  rewrite <- Hbs. apply plot_without_history; [done|].
  apply length_zero_iff_nil. rewrite Hl. destruct Hk as [->|Hn]; [done|].
  unfold snapshot_epochs, range. replace (Z.to_nat (p_num_epochs p)) with 0%nat by lia.
  simpl. lia.
Qed.

(** X11. After at least one completed call of [train] with a positive
    [num_epochs], the method returns and has shown the figure: for every
    snapshot [j] and image [i] of the batch, cell [(i, j)] shows
    [history[j][i]] under the title [it = j * val_size]; the column after the
    snapshots shows, in row [i], the dataset picture of index [indices[i]];
    three calls are made per cell of the [batch_size] x [len(history) + 1]
    grid, and two on the figure. *)
Theorem plot_after_training p w self w1 k self' w2 :
  __init__ p w = (Ok self, w1) -> train_n k self w1 = (Ok self', w2) ->
  (0 < k)%nat -> 0 < p_num_epochs p ->
  exists cmds,
    plot self' = inr cmds /\
    (forall i j hj im, history self' !! j = Some hj -> hj !! i = Some im ->
       In (Imshow i j (Reconstruction im)) cmds /\
       In (SetTitle i j (It (Z.of_nat j * val_size self'))) cmds) /\
    (forall i idx, indices self' !! i = Some idx ->
       In (Imshow i (length (history self')) (DatasetPicture (dst self') idx)) cmds /\
       In (SetTitle i (length (history self')) (GroundTruthImage idx)) cmds) /\
    length cmds =
      (3 * Z.to_nat (batch_size self') * (length (history self') + 1) + 2)%nat.
Proof.
  intros Hi Ht Hk Hn.
  destruct (init_train_n _ _ _ _ _ _ _ Hi Ht) as (_ & Hvs & _ & _ & _ & Hb & Hix & Hl & Hall).
  pose proof (init_inv _ _ _ _ Hi) as (_ & _ & _ & _ & _ & _ & _ & Hv & _).
  assert (Hp : plottable self').
  { split; try done. intros Hnil. rewrite Hnil in Hl. simpl in Hl.
    pose proof (snapshot_epochs_head (p_num_epochs p) (p_val_size p) Hn Hv) as Hhd.
    destruct (snapshot_epochs (p_num_epochs p) (p_val_size p)); [done|]. simpl in Hl. nia. }
  exists (figure self'). split; [by apply plot_plottable|].
  split; [intros; by eapply in_figure_reconstruction|].
  split; [intros; by apply in_figure_ground_truth|]. by apply length_figure.
Qed.

(** X12. After one call of [train] on a freshly constructed experiment with
    positive [num_epochs] and [val_size], the [it=] titles of the figure are
    the epochs of the snapshots: the title of column [j] is [iters[j]], and
    every entry of [iters] is the title of its column. *)
Theorem plot_titles_are_iters p w self w1 self' w2 :
  __init__ p w = (Ok self, w1) -> train self w1 = (Ok self', w2) ->
  0 < p_num_epochs p -> 0 < p_val_size p ->
  exists cmds,
    plot self' = inr cmds /\
    (forall i j e, In (SetTitle i j (It e)) cmds -> iters self' !! j = Some e) /\
    (forall j e, iters self' !! j = Some e -> In (SetTitle 0 j (It e)) cmds).
Proof.
  intros Hi Ht Hn Hv.
  assert (Ht1 : train_n 1 self w1 = (Ok self', w2)).
  { simpl. unfold bind. rewrite Ht. done. }
  destruct (init_train_n _ _ _ _ _ _ _ Hi Ht1)
    as (_ & Hvs & _ & _ & Hit & Hb & Hix & Hl & Hall).
  destruct (init_facts _ _ _ _ Hi) as (_ & _ & Hne & Hvs0 & _).
  pose proof (init_iters _ _ _ _ Hi Hv) as Hiters. rewrite Hne, Hvs0 in Hiters.
  rewrite Nat.mul_1_l in Hl.
  assert (Hp : plottable self').
  { split; try done. intros Hnil. rewrite Hnil in Hl. simpl in Hl.
    pose proof (snapshot_epochs_head (p_num_epochs p) (p_val_size p) Hn ltac:(lia)) as Hhd.
    destruct (snapshot_epochs (p_num_epochs p) (p_val_size p)); [done|]. simpl in Hl. lia. }
  assert (Hcol : forall j, (j < length (history self'))%nat ->
                           iters self' !! j = Some (Z.of_nat j * val_size self')).
  { intros j Hj. rewrite Hit, Hiters, list_lookup_fmap.
    destruct (lookup_lt_is_Some_2 (snapshot_epochs (p_num_epochs p) (p_val_size p)) j)
      as [e He]; [lia|].
    rewrite He. simpl. f_equal.
    destruct (snapshot_epochs_lookup _ _ _ _ Hv He) as [-> _]. by rewrite Hvs. }
  exists (figure self'). split; [by apply plot_plottable|]. split.
  - intros i j e (Hj & ->)%in_figure_title. by apply Hcol.
  - intros j e He. pose proof (lookup_lt_Some _ _ _ He) as Hj.
    rewrite Hit, Hiters, length_map, <- Hl in Hj.
    rewrite (Hcol j Hj) in He. injection He as <-.
    destruct (lookup_lt_is_Some_2 (history self') j Hj) as [hj Hhj].
    pose proof (Forall_lookup_1 _ _ _ _ Hall Hhj) as Hlen. simpl in Hlen.
    destruct (lookup_lt_is_Some_2 hj 0%nat) as [im Him]; [lia|].
    by destruct (in_figure_reconstruction self' 0%nat j hj im Hp Hhj Him).
Qed.

End Proofs.

(** ** The theorems at work on the concrete instance *)

Import Concrete.
#[local] Existing Instance ZCollab.


(** Two calls of [train] on a fresh experiment leave two sequences in each
    series. *)
Lemma train_appends_losses_witness :
  exists self w1 self' w2,
    __init__ params0 w0 = (Ok self, w1) /\
    train_n 2 self w1 = (Ok self', w2) /\
    length (d_psnr (losses self')) = 2%nat /\
    length (d_ssim (losses self')) = 2%nat /\
    length (d_mse (losses self')) = 2%nat.
Proof.
  destruct (__init__ params0 w0) as [[self|e] w1] eqn:E; [|vm_compute in E; discriminate].
  destruct (train_n 2 self w1) as [[self'|e] w2] eqn:E2.
  2:{ vm_compute in E. injection E as <- <-. vm_compute in E2. discriminate. }
  destruct (train_appends_losses 2 self w1 self' w2 E2)
    as (ps & ss & ms & H1 & H2 & H3 & H4 & H5 & H6).
  destruct (init_facts _ _ _ _ E) as (_ & _ & _ & _ & _ & Hl & _).
  exists self, w1, self', w2. split; [reflexivity|]. split; [exact E2|].
  rewrite H4, H5, H6, !length_app, H1, H2, H3, Hl. simpl. auto.
Defined.

(** [data = "ImageNet"]: the lookup fails before anything is logged. *)
Lemma unknown_data_KeyError_witness :
  p_data params_imagenet <> "CIFAR" /\ p_data params_imagenet <> "MNIST" /\
  p_data params_imagenet <> "Omniglot" /\ p_data params_imagenet <> "SVHN" /\
  exists w', __init__ params_imagenet w0 = (Raise (KeyError "ImageNet"), w') /\
             trace w' = [].
Proof.
  assert (H1 : p_data params_imagenet <> "CIFAR") by discriminate.
  assert (H2 : p_data params_imagenet <> "MNIST") by discriminate.
  assert (H3 : p_data params_imagenet <> "Omniglot") by discriminate.
  assert (H4 : p_data params_imagenet <> "SVHN") by discriminate.
  repeat (split; [done|]).
  exact (unknown_data_KeyError params_imagenet w0 H1 H2 H3 H4).
Defined.

(** C3, as stated, fails: with [init_type = "bimodal"] the constructor
    returns an experiment; it raises nothing. *)
Lemma unknown_init_type_constructs : ~ fails_at_setup params_bimodal w0.
Proof.
  intros (msg & w' & H). vm_compute in H. discriminate.
Qed.

(** [init_type = "bimodal"]: the experiment is built as with "uniform", and
    its first [train] raises. *)
Lemma unknown_init_type_fails_in_train_witness :
  exists self w1,
    valid_init_type "bimodal" = None /\
    __init__ params0 w0 = (Ok self, w1) /\
    __init__ params_bimodal w0 = (Ok (set_init_type self "bimodal"), w1) /\
    train (set_init_type self "bimodal") w1 = (Raise (ValueError init_type_msg), w1).
Proof.
  destruct (__init__ params0 w0) as [[self|e] w1] eqn:E; [|vm_compute in E; discriminate].
  assert (Hs : valid_init_type "bimodal" = None) by reflexivity.
  exists self, w1. split; [done|]. split; [done|].
  exact (unknown_init_type_fails_in_train params0 w0 self w1 "bimodal" Hs E).
Defined.

(** C2, as stated, fails: with [measure = "l1"] the constructor does raise
    [ValueError], but only after the original gradient has been computed. *)
Lemma unknown_measure_computes_gradient_first :
  ~ fails_before_any_gradient params_l1 w0.
Proof.
  intros (msg & w' & H & Hno). vm_compute in H. injection H as _ <-.
  apply (Hno false). simpl. right. right. left.
Qed.

(** [measure = "l1"]: the [ValueError] leaves the world of the construction
    with "euclidean". *)
Lemma unknown_measure_fails_after_original_grad_witness :
  exists self w1,
    p_measure params_l1 <> "euclidean" /\ p_measure params_l1 <> "gaussian" /\
    __init__ (with_measure params_l1 "euclidean") w0 = (Ok self, w1) /\
    __init__ params_l1 w0 = (Raise (ValueError measure_msg), w1).
Proof.
  destruct (__init__ (with_measure params_l1 "euclidean") w0) as [[self|e] w1] eqn:E;
    [|vm_compute in E; discriminate].
  assert (H1 : p_measure params_l1 <> "euclidean") by discriminate.
  assert (H2 : p_measure params_l1 <> "gaussian") by discriminate.
  exists self, w1. repeat (split; [done|]).
  exact (proj1 (proj2 (unknown_measure_fails_after_original_grad params_l1 w0 H1 H2) self w1 E)).
Defined.

(** On the concrete instance the original gradient is [[2; 3]], and
    [torch_var] is the sum. *)
Lemma gaussian_sigma_once_witness :
  exists self w1,
    p_measure params_gaussian = "gaussian" /\
    __init__ params_gaussian w0 = (Ok self, w1) /\
    loss_measure self = gaussian_measure 5 1 /\
    trace w1 = [EvDataset "CIFAR"; EvForward; EvAutograd false; EvVar].
Proof.
  destruct (__init__ params_gaussian w0) as [[self|e] w1] eqn:E;
    [|vm_compute in E; discriminate].
  assert (Hm : p_measure params_gaussian = "gaussian") by reflexivity.
  destruct (gaussian_sigma_once params_gaussian w0 self w1 Hm E)
    as (ovals & Ho & Hl & Ht & _).
  exists self, w1. split; [exact Hm|]. split; [reflexivity|]. split; [|exact Ht].
  vm_compute in E. injection E as <- <-. reflexivity.
Defined.


(** [init_type = "gaussian_shift"]: two draws from [torch.normal(0.5, 0.5)]. *)
Lemma init_data_samples_selected_distribution_witness :
  exists self w1 og ol dd dl w2,
    __init__ params_gaussian w0 = (Ok self, w1) /\
    objs w1 !! gt_data self = Some og /\
    objs w1 !! gt_onehot_label self = Some ol /\
    init_type self = "gaussian_shift" /\
    init_data self w1 = (Ok (dd, dl), w2) /\
    trace w2 = trace w1 ++ [EvSample (Normal (1 # 2) (1 # 2)); EvSample (Normal (1 # 2) (1 # 2))].
Proof.
  destruct (__init__ params_gaussian w0) as [[self|e] w1] eqn:E;
    [|vm_compute in E; discriminate].
  destruct (init_facts _ _ _ _ E) as (Hwf & Hit & _).
  destruct (wf_gt_data _ _ Hwf) as (v & sh & Hv & _).
  destruct (readable_obj w1 (gt_data self)) as [og Hog]; [exists v; exact Hv|].
  destruct (wf_gt_label _ _ Hwf) as [ol Hol].
  assert (Hd : init_type self = "uniform" /\ Normal (1 # 2) (1 # 2) = Uniform01 \/
               init_type self = "gaussian" /\ Normal (1 # 2) (1 # 2) = StandardNormal \/
               init_type self = "gaussian_shift" /\
               Normal (1 # 2) (1 # 2) = Normal (1 # 2) (1 # 2)).
  { right. right. split; [rewrite Hit|]; reflexivity. }
  destruct (init_data_samples_selected_distribution self w1 og ol _ Hog Hol Hd)
    as (dd & dl & w2 & od & odl & Ei & _ & _ & _ & _ & _ & _ & Ht).
  exists self, w1, og, ol, dd, dl, w2.
  split; [reflexivity|]. split; [exact Hog|]. split; [exact Hol|].
  split; [rewrite Hit; reflexivity|]. split; [exact Ei|exact Ht].
Defined.

(** Two experiments on different images of the dataset get the same dummy
    tensors. *)
Lemma init_data_ignores_ground_truth_values_witness :
  exists self1 w1 self2 w2 d1 l1 w1' d2 l2 w2',
    __init__ params0 w0 = (Ok self1, w1) /\
    __init__ params0 w0' = (Ok self2, w2) /\
    val_of w1 (gt_data self1) <> val_of w2 (gt_data self2) /\
    init_data self1 w1 = (Ok (d1, l1), w1') /\
    init_data self2 w2 = (Ok (d2, l2), w2') /\
    val_of w1' d1 = val_of w2' d2 /\ val_of w1' l1 = val_of w2' l2.
Proof.
  destruct (__init__ params0 w0) as [[self1|e] w1] eqn:E1; [|vm_compute in E1; discriminate].
  destruct (__init__ params0 w0') as [[self2|e] w2] eqn:E2; [|vm_compute in E2; discriminate].
  destruct (init_facts _ _ _ _ E1) as (Hwf1 & Hit1 & _).
  destruct (init_facts _ _ _ _ E2) as (Hwf2 & Hit2 & _).
  destruct (wf_gt_data _ _ Hwf1) as (v1 & sh1 & Hv1 & _).
  destruct (wf_gt_data _ _ Hwf2) as (v2 & sh2 & Hv2 & _).
  destruct (readable_obj w1 (gt_data self1)) as [og1 Hog1]; [exists v1; exact Hv1|].
  destruct (readable_obj w2 (gt_data self2)) as [og2 Hog2]; [exists v2; exact Hv2|].
  destruct (wf_gt_label _ _ Hwf1) as [ol1 Hol1].
  destruct (wf_gt_label _ _ Hwf2) as [ol2 Hol2].
  assert (Hit : init_type self1 = init_type self2) by (rewrite Hit1, Hit2; reflexivity).
  assert (Hrng : torch_rng w1 = torch_rng w2).
  { vm_compute in E1, E2. injection E1 as <- <-; injection E2 as <- <-. reflexivity. }
  assert (Hsg : o_shape og1 = o_shape og2).
  { vm_compute in E1, E2. injection E1 as <- <-; injection E2 as <- <-.
    vm_compute in Hog1, Hog2. injection Hog1 as <-. injection Hog2 as <-. reflexivity. }
  assert (Hsl : o_shape ol1 = o_shape ol2).
  { vm_compute in E1, E2. injection E1 as <- <-; injection E2 as <- <-.
    vm_compute in Hol1, Hol2. injection Hol1 as <-. injection Hol2 as <-. reflexivity. }
  assert (Hne : val_of w1 (gt_data self1) <> val_of w2 (gt_data self2)).
  { vm_compute in E1, E2. injection E1 as <- <-; injection E2 as <- <-.
    vm_compute. discriminate. }
  pose proof (init_data_ignores_ground_truth_values self1 w1 self2 w2 og1 ol1 og2 ol2
                Hit Hrng Hog1 Hog2 Hol1 Hol2 Hsg Hsl) as H.
  destruct (valid_init_type (init_type self1)) as [d|] eqn:Hv;
    [|rewrite Hit1 in Hv; discriminate Hv].
  pose proof Hv as Hv1'.
  rewrite (init_data_eq self1 w1 og1 ol1 d Hog1 Hol1 Hv) in H.
  rewrite Hit in Hv. rewrite (init_data_eq self2 w2 og2 ol2 d Hog2 Hol2 Hv) in H.
  destruct H as (_ & _ & Hd & Hl & _).
  exists self1, w1, self2, w2. do 6 eexists.
  split; [reflexivity|]. split; [reflexivity|]. split; [exact Hne|].
  split; [exact (init_data_eq self1 w1 og1 ol1 d Hog1 Hol1 Hv1')|].
  split; [exact (init_data_eq self2 w2 og2 ol2 d Hog2 Hol2 Hv)|].
  split; [exact Hd|exact Hl].
Defined.



(** ** Further properties at work on the concrete instance *)

(** A batch of no image: the dataset is opened, then [torch.cat] fails. *)
Lemma nonpositive_batch_size_fails_witness :
  is_Some (dsts !! p_data params_empty_batch) /\ p_batch_size params_empty_batch <= 0 /\
  exists w', __init__ params_empty_batch w0 = (Raise RuntimeError, w') /\
             trace w' = [EvDataset "CIFAR"] /\ py_rng w' = 0%nat.
Proof.
  assert (H1 : is_Some (dsts !! p_data params_empty_batch)).
  { exists CIFAR100. reflexivity. }
  assert (H2 : p_batch_size params_empty_batch <= 0) by (simpl; lia).
  split; [exact H1|]. split; [exact H2|].
  exact (nonpositive_batch_size_fails params_empty_batch w0 H1 H2).
Defined.

(** The batch of two images of the reference configuration. *)
Lemma ground_truth_batch_follows_indices_witness :
  exists self w1 gv,
    __init__ params0 w0 = (Ok self, w1) /\
    length (indices self) = Z.to_nat (batch_size self) /\
    length (gt_label self) = length (indices self) /\
    val_of w1 (gt_data self) = Some gv /\
    elems gv = concat (map (fun i => elems (dataset_image (dst self) i)) (indices self)).
Proof.
  destruct (__init__ params0 w0) as [[self|e] w1] eqn:E; [|vm_compute in E; discriminate].
  destruct (ground_truth_batch_follows_indices params0 w0 self w1 E)
    as (H1 & H2 & gv & ov & H3 & H4 & _).
  exists self, w1, gv. split; [reflexivity|]. split; [exact H1|]. split; [exact H2|].
  split; [exact H3|exact H4].
Defined.


(** [init_data] on a fresh experiment. *)
Lemma init_data_only_allocates_witness :
  exists self w1 og ol dd dl w2,
    __init__ params0 w0 = (Ok self, w1) /\
    objs w1 !! gt_data self = Some og /\
    objs w1 !! gt_onehot_label self = Some ol /\
    valid_init_type (init_type self) = Some Uniform01 /\
    init_data self w1 = (Ok (dd, dl), w2) /\
    heap_ext w1 w2 /\ py_rng w2 = py_rng w1 /\ dd <> dl.
Proof.
  destruct (__init__ params0 w0) as [[self|e] w1] eqn:E; [|vm_compute in E; discriminate].
  destruct (init_facts _ _ _ _ E) as (Hwf & Hit & _).
  destruct (wf_gt_data _ _ Hwf) as (v & s & Hv & _).
  destruct (readable_obj w1 (gt_data self) (ex_intro _ v Hv)) as [og Hog].
  destruct (wf_gt_label _ _ Hwf) as [ol Hol].
  assert (Hd : valid_init_type (init_type self) = Some Uniform01).
  { rewrite Hit. reflexivity. }
  destruct (init_data_only_allocates self w1 og ol Uniform01 Hog Hol Hd)
    as (dd & dl & w2 & od & odl & Hi & Hext & Hpy & _ & _ & Hne & _).
  exists self, w1, og, ol, dd, dl, w2.
  split; [reflexivity|]. split; [exact Hog|]. split; [exact Hol|]. split; [exact Hd|].
  split; [exact Hi|]. split; [exact Hext|]. split; [exact Hpy|exact Hne].
Defined.

(** One evaluation of the objective on the dummy tensors of a fresh run. *)
Lemma closure_writes_only_grads_witness :
  exists self w1 dd dl wd r w2,
    __init__ params0 w0 = (Ok self, w1) /\
    init_data self w1 = (Ok (dd, dl), wd) /\
    closure self dd dl wd = (r, w2) /\
    stor w2 = stor wd /\ torch_rng w2 = torch_rng wd /\
    forall t, val_of w2 t = val_of wd t.
Proof.
  destruct (__init__ params0 w0) as [[self|e] w1] eqn:E; [|vm_compute in E; discriminate].
  destruct (init_data self w1) as [[[dd dl]|e] wd] eqn:Ei.
  2:{ vm_compute in E. injection E as <- <-. vm_compute in Ei. discriminate Ei. }
  destruct (closure self dd dl wd) as [r w2] eqn:Ec.
  destruct (closure_writes_only_grads self dd dl wd r w2 Ec) as (H1 & _ & H2 & H3 & _).
  exists self, w1, dd, dl, wd, r, w2.
  split; [reflexivity|]. split; [exact Ei|]. split; [exact Ec|].
  split; [exact H1|]. split; [exact H2|exact H3].
Defined.

(** No epoch: [train] returns with the history as it was. *)
Lemma train_without_epochs_witness :
  exists self w1 self' w2,
    __init__ params_no_epochs w0 = (Ok self, w1) /\
    wf_experiment self w1 /\
    valid_init_type (init_type self) = Some Uniform01 /\
    num_epochs self <= 0 /\
    train self w1 = (Ok self', w2) /\
    history self' = history self /\
    trace w2 = trace w1 ++ [EvSample Uniform01; EvSample Uniform01].
Proof.
  destruct (__init__ params_no_epochs w0) as [[self|e] w1] eqn:E;
    [|vm_compute in E; discriminate].
  destruct (init_facts _ _ _ _ E) as (Hwf & Hit & Hne & _).
  assert (Hd : valid_init_type (init_type self) = Some Uniform01).
  { rewrite Hit. reflexivity. }
  assert (Hn : num_epochs self <= 0).
  { rewrite Hne. simpl. lia. }
  destruct (train_without_epochs self w1 Uniform01 Hwf Hd Hn) as (w2 & Ht & Htr).
  eexists self, w1, _, w2.
  split; [reflexivity|]. split; [exact Hwf|]. split; [exact Hd|]. split; [exact Hn|].
  split; [exact Ht|]. split; [reflexivity|exact Htr].
Defined.

(** The ground-truth batch reads the same after a call of [train]. *)
Lemma train_keeps_tensor_contents_witness :
  exists self w1 r w2 v,
    __init__ params0 w0 = (Ok self, w1) /\
    wf_experiment self w1 /\
    train_n 1 self w1 = (r, w2) /\
    val_of w1 (gt_data self) = Some v /\
    val_of w2 (gt_data self) = Some v.
Proof.
  destruct (__init__ params0 w0) as [[self|e] w1] eqn:E; [|vm_compute in E; discriminate].
  destruct (init_facts _ _ _ _ E) as (Hwf & _).
  destruct (wf_gt_data _ _ Hwf) as (v & s & Hv & _).
  destruct (train_n 1 self w1) as [r w2] eqn:Et.
  exists self, w1, r, w2, v.
  split; [reflexivity|]. split; [exact Hwf|]. split; [exact Et|]. split; [exact Hv|].
  exact (train_keeps_tensor_contents 1 self w1 r w2 (gt_data self) v Hwf Et Hv).
Defined.


(** Two calls of [train]: the history holds lists of two images. *)
Lemma history_grows_by_batches_witness :
  exists self w1 self' w2 new,
    __init__ params0 w0 = (Ok self, w1) /\
    train_n 2 self w1 = (Ok self', w2) /\
    history self' = history self ++ new /\
    Forall (fun e => length e = Z.to_nat (batch_size self)) new.
Proof.
  destruct (__init__ params0 w0) as [[self|e] w1] eqn:E; [|vm_compute in E; discriminate].
  destruct (train_n 2 self w1) as [[self'|e] w2] eqn:E2.
  2:{ vm_compute in E. injection E as <- <-. vm_compute in E2. discriminate. }
  destruct (history_grows_by_batches 2 self w1 self' w2 E2) as (new & H1 & H2).
  exists self, w1, self', w2, new.
  split; [reflexivity|]. split; [exact E2|]. split; [exact H1|exact H2].
Defined.

(** Plotting a fresh experiment of batch size two: [j] is unbound. *)
Lemma plot_before_any_snapshot_witness :
  exists self w1,
    __init__ params0 w0 = (Ok self, w1) /\
    train_n 0 self w1 = (Ok self, w1) /\
    plot self = inl (UnboundLocalError "j").
Proof.
  destruct (__init__ params0 w0) as [[self|e] w1] eqn:E; [|vm_compute in E; discriminate].
  exists self, w1. split; [reflexivity|]. split; [reflexivity|].
  exact (plot_before_any_snapshot params0 w0 self w1 0 self w1 E eq_refl
           (or_introl eq_refl)).
Defined.

(** Plotting after one call of [train]: three snapshots of two images and
    the ground-truth column, 24 calls on the cells and two on the figure. *)
Lemma plot_after_training_witness :
  exists self w1 self' w2 cmds,
    __init__ params0 w0 = (Ok self, w1) /\
    train_n 1 self w1 = (Ok self', w2) /\
    (0 < 1)%nat /\ 0 < p_num_epochs params0 /\
    plot self' = inr cmds /\
    length cmds =
      (3 * Z.to_nat (batch_size self') * (length (history self') + 1) + 2)%nat.
Proof.
  destruct (__init__ params0 w0) as [[self|e] w1] eqn:E; [|vm_compute in E; discriminate].
  destruct (train_n 1 self w1) as [[self'|e] w2] eqn:E2.
  2:{ vm_compute in E. injection E as <- <-. vm_compute in E2. discriminate. }
  assert (Hk : (0 < 1)%nat) by lia.
  assert (Hn : 0 < p_num_epochs params0) by (simpl; lia).
  destruct (plot_after_training params0 w0 self w1 1 self' w2 E E2 Hk Hn)
    as (cmds & Hp & _ & _ & Hl).
  exists self, w1, self', w2, cmds.
  split; [reflexivity|]. split; [exact E2|]. split; [exact Hk|]. split; [exact Hn|].
  split; [exact Hp|exact Hl].
Defined.

(** The titles of the figure after one call of [train] are [iters]. *)
Lemma plot_titles_are_iters_witness :
  exists self w1 self' w2 cmds,
    __init__ params0 w0 = (Ok self, w1) /\
    train self w1 = (Ok self', w2) /\
    0 < p_num_epochs params0 /\ 0 < p_val_size params0 /\
    plot self' = inr cmds /\
    forall j e, iters self' !! j = Some e -> In (SetTitle 0 j (It e)) cmds.
Proof.
  destruct (__init__ params0 w0) as [[self|e] w1] eqn:E; [|vm_compute in E; discriminate].
  destruct (train self w1) as [[self'|e] w2] eqn:E2.
  2:{ vm_compute in E. injection E as <- <-. vm_compute in E2. discriminate. }
  assert (Hn : 0 < p_num_epochs params0) by (simpl; lia).
  assert (Hv : 0 < p_val_size params0) by (simpl; lia).
  destruct (plot_titles_are_iters params0 w0 self w1 self' w2 E E2 Hn Hv)
    as (cmds & Hp & _ & Ht).
  exists self, w1, self', w2, cmds.
  split; [reflexivity|]. split; [exact E2|]. split; [exact Hn|]. split; [exact Hv|].
  split; [exact Hp|exact Ht].
Defined.
